(** * dt-import: header codec, header fixer, version classifier, per-file state

    A shallow embedding of [dt-import.py] (the Draw Things LoRA import
    pipeline) and the properties of it that the design document states.

    Conventions of the embedding.
    - A Python [str] is held as the sequence of its UTF-8 bytes, a Python
      [bytes] as the sequence of its bytes; both are Rocq [string]s (a
      [string] is a list of 8-bit characters).  [str.encode] and
      [bytes.decode] are the functions of [Utf8].
    - A Python [int] is a [Z].  Floating-point numbers are not interpreted:
      a JSON number with a fraction or an exponent is kept as its literal
      ([JFloat]) and results about encoded bytes are stated for float-free
      values ([wf_json]).
    - A Python [dict] is an association list in insertion order whose keys
      are pairwise distinct ([dict_set] keeps them so).
    - Exceptions are the [Raise] results of the [result] type; effects on
      the file, its extended attributes and the network are threaded
      through a [world].  Console output is not modelled. *)

From Stdlib Require Import ZArith String Ascii List Lia Bool.
From Stdlib Require Import DecimalString DecimalPos DecimalN DecimalZ DecimalFacts.
From stdpp Require Import base option gmap strings.
Import ListNotations.

Local Open Scope string_scope.
Local Open Scope Z_scope.

(* ================================================================== *)
(** * Python values: strings, integers, exceptions                     *)
(* ================================================================== *)

Module Py.

(** The exceptions the modelled code can raise. *)
Inductive exn : Type :=
| OSError
| StructError
| UnicodeDecodeError
| UnicodeEncodeError
| JSONDecodeError
| ValueError
| TypeError
| AttributeError
| KeyError
| IndexError
| HTTPError (code : Z)
| URLError.

Inductive result (A : Type) : Type :=
| Ok (a : A)
| Raise (e : exn).
Arguments Ok {A} a.
Arguments Raise {A} e.

Definition rbind {A B} (r : result A) (f : A -> result B) : result B :=
  match r with
  | Ok a => f a
  | Raise e => Raise e
  end.

Definition code (c : ascii) : Z := Z.of_N (N_of_ascii c).
Definition chr (z : Z) : ascii := ascii_of_N (Z.to_N z).

Definition in_range (c : ascii) (lo hi : Z) : bool :=
  (lo <=? code c) && (code c <=? hi).

Definition is_digit (c : ascii) : bool := in_range c 48 57.

(** [len(s)] *)
Definition len (s : string) : Z := Z.of_nat (String.length s).

(** [s.startswith(p)] *)
Definition startswith (s p : string) : bool := String.prefix p s.

(** [p in s] for strings: [p] occurs in [s] as a contiguous run. *)
Fixpoint isin (p s : string) : bool :=
  if String.prefix p s then true
  else match s with
       | EmptyString => false
       | String _ r => isin p r
       end.

(** [s[n:]] for [0 <= n]. *)
Fixpoint drop (n : nat) (s : string) : string :=
  match n, s with
  | O, _ => s
  | S n', EmptyString => EmptyString
  | S n', String _ r => drop n' r
  end.

(** [f.read(n)] on the rest [s] of a file: the first [n] bytes, or all of
    them when fewer are left; and what is left after them.  The count is a
    [Z], so that a huge length field costs nothing to evaluate. *)
Fixpoint take_z (n : Z) (s : string) : string :=
  match s with
  | EmptyString => EmptyString
  | String c r => if n <=? 0 then EmptyString else String c (take_z (n - 1) r)
  end.

Fixpoint drop_z (n : Z) (s : string) : string :=
  match s with
  | EmptyString => EmptyString
  | String c r => if n <=? 0 then s else drop_z (n - 1) r
  end.

Fixpoint map_chars (f : ascii -> ascii) (s : string) : string :=
  match s with
  | EmptyString => EmptyString
  | String c r => String (f c) (map_chars f r)
  end.

Definition lower_char (c : ascii) : ascii :=
  if in_range c 65 90 then chr (code c + 32) else c.
Definition upper_char (c : ascii) : ascii :=
  if in_range c 97 122 then chr (code c - 32) else c.

(** [s.lower()] and [s.upper()].  Only the ASCII letters change case here;
    on the needles this program looks for (["flux"], ["sdxl"], ["qwen"],
    ["z_image"], ["zimagetturbo"], ["LORA"]) Python's Unicode case mapping
    finds the same occurrences. *)
Definition lower (s : string) : string := map_chars lower_char s.
Definition upper (s : string) : string := map_chars upper_char s.

(** [s.replace(a, b)] for single characters [a], [b]. *)
Definition replace_char (a b : ascii) (s : string) : string :=
  map_chars (fun c => if Ascii.eqb c a then b else c) s.

(** [sep.join(l)] *)
Definition join (sep : string) (l : list string) : string := String.concat sep l.

(** [str(n)] for an [int]. *)
Definition str_of_int (z : Z) : string := NilZero.string_of_int (Z.to_int z).

(** ASCII whitespace, as [bytes.strip] and [int] see it. *)
Definition is_space (c : ascii) : bool :=
  in_range c 9 13 || (code c =? 32).

Fixpoint lstrip (s : string) : string :=
  match s with
  | String c r => if is_space c then lstrip r else s
  | EmptyString => EmptyString
  end.

(** Digits of a decimal literal with single underscores between digits
    allowed, read left to right into [acc]; [prev_digit] tells whether the
    last character read was a digit.  Stops at trailing whitespace, which
    must reach the end of the text. *)
Fixpoint int_digits (s : string) (acc : Z) (prev_digit : bool) : option Z :=
  match s with
  | EmptyString => if prev_digit then Some acc else None
  | String c r =>
      if is_digit c then int_digits r (10 * acc + (code c - 48)) true
      else if Ascii.eqb c "_" then
        if prev_digit
        then match r with
             | String c' _ => if is_digit c' then int_digits r acc false else None
             | EmptyString => None
             end
        else None
      else if is_space c then
        if prev_digit then
          match lstrip r with EmptyString => Some acc | _ => None end
        else None
      else None
  end.

(** [int(raw)] for a [bytes] or [str] value in base 10: optional
    surrounding whitespace, an optional sign, digits.  [None] stands for
    [ValueError]. *)
Definition int_of_text (raw : string) : option Z :=
  match lstrip raw with
  | String c r =>
      if Ascii.eqb c "-" then option_map Z.opp (int_digits r 0 false)
      else if Ascii.eqb c "+" then int_digits r 0 false
      else int_digits (String c r) 0 false
  | EmptyString => None
  end.

End Py.
Export Py.

(* ================================================================== *)
(** * UTF-8: [str.encode("utf-8")] and [bytes.decode("utf-8")]         *)
(* ================================================================== *)

Module Utf8.

(** States of the decoder: [S0] between characters; [C1], [C2], [C3]
    with that many continuation bytes still to come; [E0], [ED], [F0],
    [F4] right after the lead byte of that value, whose first
    continuation byte has a narrower range (no overlong forms, no
    surrogates, nothing above U+10FFFF). *)
Inductive state : Type := S0 | C1 | C2 | C3 | E0 | ED | F0 | F4.

Definition step (st : state) (c : ascii) : option state :=
  match st with
  | S0 =>
      if code c <? 128 then Some S0
      else if in_range c 194 223 then Some C1
      else if code c =? 224 then Some E0
      else if in_range c 225 236 || in_range c 238 239 then Some C2
      else if code c =? 237 then Some ED
      else if code c =? 240 then Some F0
      else if in_range c 241 243 then Some C3
      else if code c =? 244 then Some F4
      else None
  | C1 => if in_range c 128 191 then Some S0 else None
  | C2 => if in_range c 128 191 then Some C1 else None
  | C3 => if in_range c 128 191 then Some C2 else None
  | E0 => if in_range c 160 191 then Some C1 else None
  | ED => if in_range c 128 159 then Some C1 else None
  | F0 => if in_range c 144 191 then Some C2 else None
  | F4 => if in_range c 128 143 then Some C2 else None
  end.

Fixpoint run (st : state) (s : string) : option state :=
  match s with
  | EmptyString => Some st
  | String c r =>
      match step st c with
      | Some st' => run st' r
      | None => None
      end
  end.

(** The byte sequence is well-formed UTF-8. *)
Definition valid (s : string) : bool :=
  match run S0 s with
  | Some S0 => true
  | _ => false
  end.

(** [b.decode("utf-8")], strict. *)
Definition decode (b : string) : result string :=
  if valid b then Ok b else Raise UnicodeDecodeError.

(** [s.encode("utf-8")], which also is [s.encode()].  A [str] that holds a
    lone surrogate has no UTF-8 form; it is held here in the three-byte
    form that [valid] refuses, and encoding it raises. *)
Definition encode (s : string) : result string :=
  if valid s then Ok s else Raise UnicodeEncodeError.

(** U+FFFD, the replacement character. *)
Definition fffd : string :=
  String (chr 239) (String (chr 191) (String (chr 189) EmptyString)).

(** [b.decode("utf-8", errors="replace")]: every maximal ill-formed run
    becomes one U+FFFD.  [pend] holds the bytes of the character being
    read. *)
Fixpoint decode_replace_from (st : state) (pend : string) (b : string) : string :=
  match b with
  | EmptyString =>
      match st with
      | S0 => EmptyString
      | _ => fffd
      end
  | String c r =>
      match step st c with
      | Some S0 => pend +:+ String c (decode_replace_from S0 EmptyString r)
      | Some st' => decode_replace_from st' (pend +:+ String c EmptyString) r
      | None =>
          match st with
          | S0 => fffd +:+ decode_replace_from S0 EmptyString r
          | _ =>
              fffd +:+
              match step S0 c with
              | Some S0 => String c (decode_replace_from S0 EmptyString r)
              | Some st' => decode_replace_from st' (String c EmptyString) r
              | None => fffd +:+ decode_replace_from S0 EmptyString r
              end
          end
      end
  end.

Definition decode_replace (b : string) : string :=
  decode_replace_from S0 EmptyString b.

(** The UTF-8 bytes of the code point [cp]; a surrogate gets the
    three-byte form. *)
Definition of_code_point (cp : Z) : string :=
  if cp <? 128 then String (chr cp) EmptyString
  else if cp <? 2048 then
    String (chr (192 + cp / 64)) (String (chr (128 + cp mod 64)) EmptyString)
  else if cp <? 65536 then
    String (chr (224 + cp / 4096))
      (String (chr (128 + (cp / 64) mod 64))
         (String (chr (128 + cp mod 64)) EmptyString))
  else
    String (chr (240 + cp / 262144))
      (String (chr (128 + (cp / 4096) mod 64))
         (String (chr (128 + (cp / 64) mod 64))
            (String (chr (128 + cp mod 64)) EmptyString))).

End Utf8.

(* ================================================================== *)
(** * Python dictionaries and JSON values                              *)
(* ================================================================== *)

Module Dict.
Section Dict.
Context {A : Type}.

(** [d.get(k)] *)
Fixpoint get (k : string) (d : list (string * A)) : option A :=
  match d with
  | [] => None
  | (k', v) :: r => if String.eqb k' k then Some v else get k r
  end.

(** [k in d] *)
Definition has (k : string) (d : list (string * A)) : bool :=
  match get k d with
  | Some _ => true
  | None => false
  end.

(** [d[k] = v]: a key already present keeps its place and takes the new
    value, a new key goes to the end. *)
Fixpoint set (k : string) (v : A) (d : list (string * A)) : list (string * A) :=
  match d with
  | [] => [(k, v)]
  | (k', v') :: r =>
      if String.eqb k' k then (k', v) :: r else (k', v') :: set k v r
  end.

(** [d.pop(k, None)], for the dictionary that is left. *)
Fixpoint pop (k : string) (d : list (string * A)) : list (string * A) :=
  match d with
  | [] => []
  | (k', v') :: r => if String.eqb k' k then r else (k', v') :: pop k r
  end.

(** [d.keys()], in insertion order. *)
Definition keys (d : list (string * A)) : list string := map fst d.

(** [dict(pairs)] *)
Definition of_pairs (l : list (string * A)) : list (string * A) :=
  fold_left (fun acc kv => set (fst kv) (snd kv) acc) l [].

End Dict.
End Dict.

Module Json.

#[warnings="-register-all"]
Inductive json : Type :=
| JNull
| JBool (b : bool)
| JNum (z : Z)
| JFloat (lit : string)
| JStr (s : string)
| JArr (l : list json)
| JObj (kvs : list (string * json)).

Definition dquote : ascii := "034"%char.
Definition backslash : ascii := "092"%char.

(** ** [json.dumps(v, separators=(",", ":"), ensure_ascii=False)]

    The emitters take the text [k] that follows what they emit. *)

Definition hex_digit (n : Z) : ascii :=
  if n <? 10 then chr (48 + n) else chr (87 + n).

Definition emit_char (c : ascii) (k : string) : string :=
  if Ascii.eqb c dquote then String backslash (String dquote k)
  else if Ascii.eqb c backslash then String backslash (String backslash k)
  else if code c =? 10 then String backslash (String "n" k)
  else if code c =? 13 then String backslash (String "r" k)
  else if code c =? 9 then String backslash (String "t" k)
  else if code c =? 8 then String backslash (String "b" k)
  else if code c =? 12 then String backslash (String "f" k)
  else if code c <? 32 then
    String backslash (String "u" (String "0" (String "0"
      (String (hex_digit (code c / 16)) (String (hex_digit (code c mod 16)) k)))))
  else String c k.

Fixpoint emit_chars (s : string) (k : string) : string :=
  match s with
  | EmptyString => k
  | String c r => emit_char c (emit_chars r k)
  end.

Definition emit_string (s : string) (k : string) : string :=
  String dquote (emit_chars s (String dquote k)).

(** The items of a list, a comma between neighbours. *)
Fixpoint emit_items (emit : json -> string -> string) (l : list json) (k : string) : string :=
  match l with
  | [] => k
  | [v] => emit v k
  | v :: r => emit v (String "," (emit_items emit r k))
  end.

Fixpoint emit_members (emit : json -> string -> string) (kvs : list (string * json))
  (k : string) : string :=
  match kvs with
  | [] => k
  | [(key, v)] => emit_string key (String ":" (emit v k))
  | (key, v) :: r =>
      emit_string key (String ":" (emit v (String "," (emit_members emit r k))))
  end.

(** A float is written back as the literal it was read from (Python
    writes [repr] of the number). *)
Fixpoint emit (v : json) (k : string) : string :=
  match v with
  | JNull => "null" +:+ k
  | JBool true => "true" +:+ k
  | JBool false => "false" +:+ k
  | JNum z => str_of_int z +:+ k
  | JFloat lit => lit +:+ k
  | JStr s => emit_string s k
  | JArr l => String "[" (emit_items emit l (String "]" k))
  | JObj kvs => String "{" (emit_members emit kvs (String "}" k))
  end.

Definition dumps (v : json) : string := emit v EmptyString.

(** ** [json.loads(s)] *)

Definition is_ws (c : ascii) : bool :=
  (code c =? 32) || (code c =? 9) || (code c =? 10) || (code c =? 13).

Fixpoint skip_ws (s : string) : string :=
  match s with
  | String c r => if is_ws c then skip_ws r else s
  | EmptyString => EmptyString
  end.

Definition hex_val (c : ascii) : option Z :=
  if in_range c 48 57 then Some (code c - 48)
  else if in_range c 97 102 then Some (code c - 87)
  else if in_range c 65 70 then Some (code c - 55)
  else None.

Definition hex4 (a b c d : ascii) : option Z :=
  match hex_val a, hex_val b, hex_val c, hex_val d with
  | Some x, Some y, Some z, Some w => Some (((x * 16 + y) * 16 + z) * 16 + w)
  | _, _, _, _ => None
  end.

(** The character a one-letter escape stands for. *)
Definition unescape (e : ascii) : option ascii :=
  if Ascii.eqb e dquote then Some dquote
  else if Ascii.eqb e backslash then Some backslash
  else if Ascii.eqb e "/" then Some "/"%char
  else if Ascii.eqb e "b" then Some (chr 8)
  else if Ascii.eqb e "f" then Some (chr 12)
  else if Ascii.eqb e "n" then Some (chr 10)
  else if Ascii.eqb e "r" then Some (chr 13)
  else if Ascii.eqb e "t" then Some (chr 9)
  else None.

Definition prepend (p : string) (res : option (string * string)) : option (string * string) :=
  match res with
  | Some (body, rest) => Some (p +:+ body, rest)
  | None => None
  end.

(** The body of a string literal, from just after its opening quote to
    its closing quote (strict mode: a raw control character is an error);
    the decoded text and what follows the closing quote. *)
Fixpoint scan_string (s : string) : option (string * string) :=
  match s with
  | EmptyString => None
  | String c r =>
      if Ascii.eqb c dquote then Some (EmptyString, r)
      else if Ascii.eqb c backslash then
        match r with
        | EmptyString => None
        | String e r1 =>
            if Ascii.eqb e "u" then
              match r1 with
              | String h1 (String h2 (String h3 (String h4 r2))) =>
                  match hex4 h1 h2 h3 h4 with
                  | None => None
                  | Some uni =>
                      let lone := prepend (Utf8.of_code_point uni) (scan_string r2) in
                      if (55296 <=? uni) && (uni <=? 56319) then
                        match r2 with
                        | String b (String u (String g1 (String g2 (String g3 (String g4 r3))))) =>
                            if Ascii.eqb b backslash && Ascii.eqb u "u" then
                              match hex4 g1 g2 g3 g4 with
                              | None => None
                              | Some uni2 =>
                                  if (56320 <=? uni2) && (uni2 <=? 57343) then
                                    prepend
                                      (Utf8.of_code_point
                                         (65536 + ((uni - 55296) * 1024 + (uni2 - 56320))))
                                      (scan_string r3)
                                  else lone
                              end
                            else lone
                        | _ => lone
                        end
                      else lone
                  end
              | _ => None
              end
            else
              match unescape e with
              | Some c' => prepend (String c' EmptyString) (scan_string r1)
              | None => None
              end
        end
      else if code c <? 32 then None
      else prepend (String c EmptyString) (scan_string r)
  end.

Definition digit_of (c : ascii) : option (Decimal.uint -> Decimal.uint) :=
  if Ascii.eqb c "0" then Some Decimal.D0
  else if Ascii.eqb c "1" then Some Decimal.D1
  else if Ascii.eqb c "2" then Some Decimal.D2
  else if Ascii.eqb c "3" then Some Decimal.D3
  else if Ascii.eqb c "4" then Some Decimal.D4
  else if Ascii.eqb c "5" then Some Decimal.D5
  else if Ascii.eqb c "6" then Some Decimal.D6
  else if Ascii.eqb c "7" then Some Decimal.D7
  else if Ascii.eqb c "8" then Some Decimal.D8
  else if Ascii.eqb c "9" then Some Decimal.D9
  else None.

(** The longest run of digits at the head of [s], and what follows it. *)
Fixpoint scan_digits (s : string) : Decimal.uint * string :=
  match s with
  | EmptyString => (Decimal.Nil, EmptyString)
  | String c r =>
      match digit_of c with
      | Some d => let (ds, rest) := scan_digits r in (d ds, rest)
      | None => (Decimal.Nil, s)
      end
  end.

(** A fraction (a dot and digits): what follows it, if there is one. *)
Definition scan_frac (s : string) : option string :=
  match s with
  | String c (String d r) =>
      if Ascii.eqb c "." && is_digit d then Some (snd (scan_digits (String d r))) else None
  | _ => None
  end.

(** An exponent (e or E, an optional sign, digits): what follows it, if
    there is one. *)
Definition scan_exp (s : string) : option string :=
  match s with
  | String e r =>
      if Ascii.eqb e "e" || Ascii.eqb e "E" then
        let r' := match r with
                  | String sg r1 => if Ascii.eqb sg "-" || Ascii.eqb sg "+" then r1 else r
                  | EmptyString => r
                  end in
        match r' with
        | String d _ => if is_digit d then Some (snd (scan_digits r')) else None
        | EmptyString => None
        end
      else None
  | EmptyString => None
  end.

(** A number at the head of [s]: an optional minus sign, then a single
    zero or a run of digits that starts with a non-zero digit, then an
    optional fraction and an optional exponent.  It is an [int] when it
    has neither fraction nor exponent. *)
Definition scan_number (s : string) : option (json * string) :=
  let (neg, s1) := match s with
                   | String c r => if Ascii.eqb c "-" then (true, r) else (false, s)
                   | EmptyString => (false, s)
                   end in
  match s1 with
  | EmptyString => None
  | String c r =>
      let int_part :=
        if Ascii.eqb c "0" then Some (Decimal.D0 Decimal.Nil, r)
        else if is_digit c then Some (scan_digits s1)
        else None in
      match int_part with
      | None => None
      | Some (d, rest) =>
          let frac := scan_frac rest in
          let rest1 := match frac with Some r1 => r1 | None => rest end in
          let exp := scan_exp rest1 in
          let rest2 := match exp with Some r2 => r2 | None => rest1 end in
          match frac, exp with
          | None, None =>
              Some (JNum (Z.of_int (if neg then Decimal.Neg d else Decimal.Pos d)), rest)
          | _, _ =>
              Some (JFloat (take_z (len s - len rest2) s), rest2)
          end
      end
  end.

(** One value at the head of [s] (no leading whitespace), and the rest. *)
Fixpoint parse_value (fuel : nat) (s : string) : option (json * string) :=
  match fuel with
  | O => None
  | S f =>
      match s with
      | EmptyString => None
      | String c r =>
          if Ascii.eqb c dquote then
            match scan_string r with
            | Some (t, rest) => Some (JStr t, rest)
            | None => None
            end
          else if Ascii.eqb c "{" then
            match skip_ws r with
            | String c' r' =>
                if Ascii.eqb c' "}" then Some (JObj [], r')
                else if Ascii.eqb c' dquote then parse_members f r' []
                else None
            | EmptyString => None
            end
          else if Ascii.eqb c "[" then
            match skip_ws r with
            | String c' r' =>
                if Ascii.eqb c' "]" then Some (JArr [], r')
                else parse_elements f (String c' r') []
            | EmptyString => None
            end
          else if String.prefix "null" s then Some (JNull, drop 4 s)
          else if String.prefix "true" s then Some (JBool true, drop 4 s)
          else if String.prefix "false" s then Some (JBool false, drop 5 s)
          else
            match scan_number s with
            | Some x => Some x
            | None =>
                if String.prefix "NaN" s then Some (JFloat "NaN", drop 3 s)
                else if String.prefix "Infinity" s then Some (JFloat "Infinity", drop 8 s)
                else if String.prefix "-Infinity" s then Some (JFloat "-Infinity", drop 9 s)
                else None
            end
      end
  end

(** The members of an object from just after the opening quote of a key;
    [acc] is the dictionary of the members read so far. *)
with parse_members (fuel : nat) (s : string) (acc : list (string * json))
  : option (json * string) :=
  match fuel with
  | O => None
  | S f =>
      match scan_string s with
      | None => None
      | Some (key, r) =>
          match skip_ws r with
          | String c r1 =>
              if Ascii.eqb c ":" then
                match parse_value f (skip_ws r1) with
                | None => None
                | Some (v, r2) =>
                    let acc' := Dict.set key v acc in
                    match skip_ws r2 with
                    | String c' r3 =>
                        if Ascii.eqb c' "}" then Some (JObj acc', r3)
                        else if Ascii.eqb c' "," then
                          match skip_ws r3 with
                          | String q r4 =>
                              if Ascii.eqb q dquote then parse_members f r4 acc' else None
                          | EmptyString => None
                          end
                        else None
                    | EmptyString => None
                    end
                end
              else None
          | EmptyString => None
          end
      end
  end

(** The elements of an array from the first character of an element;
    [acc] holds the elements read so far. *)
with parse_elements (fuel : nat) (s : string) (acc : list json)
  : option (json * string) :=
  match fuel with
  | O => None
  | S f =>
      match parse_value f s with
      | None => None
      | Some (v, r) =>
          match skip_ws r with
          | String c r1 =>
              if Ascii.eqb c "]" then Some (JArr (acc ++ [v]), r1)
              else if Ascii.eqb c "," then parse_elements f (skip_ws r1) (acc ++ [v])
              else None
          | EmptyString => None
          end
      end
  end.

(** [json.loads(s)]: one value, whitespace allowed around it, nothing
    else.  Each nested call of the parser is entered on a character of
    its own, so the length of the text bounds the calls it needs. *)
Definition loads (s : string) : result json :=
  match parse_value (S (String.length s)) (skip_ws s) with
  | Some (v, rest) =>
      match skip_ws rest with
      | EmptyString => Ok v
      | _ => Raise JSONDecodeError
      end
  | None => Raise JSONDecodeError
  end.

(** ** Values of the embedding *)

Fixpoint all_items (P : json -> Prop) (l : list json) : Prop :=
  match l with
  | [] => True
  | v :: r => P v /\ all_items P r
  end.

Fixpoint all_members (P : json -> Prop) (kvs : list (string * json)) : Prop :=
  match kvs with
  | [] => True
  | (k, v) :: r => Utf8.valid k = true /\ P v /\ all_members P r
  end.

(** A value as Python holds it and can encode it: every string is Unicode
    text (well-formed UTF-8 here), the keys of every dictionary are
    pairwise distinct, and no float occurs. *)
Fixpoint wf_json (v : json) : Prop :=
  match v with
  | JNull | JBool _ | JNum _ => True
  | JFloat _ => False
  | JStr s => Utf8.valid s = true
  | JArr l => all_items wf_json l
  | JObj kvs => NoDup (Dict.keys kvs) /\ all_members wf_json kvs
  end.

End Json.
Export Json.

(* ================================================================== *)
(** * SHA-256 ([hashlib.sha256])                                       *)
(* ================================================================== *)

Module Sha256.

Definition w32 (x : Z) : Z := x mod 4294967296.
Definition add32 (x y : Z) : Z := w32 (x + y).
Definition rotr (n x : Z) : Z := w32 (Z.lor (Z.shiftr x n) (Z.shiftl x (32 - n))).
Definition not32 (x : Z) : Z := Z.lxor x 4294967295.

Definition ch (x y z : Z) : Z := Z.lxor (Z.land x y) (Z.land (not32 x) z).
Definition maj (x y z : Z) : Z :=
  Z.lxor (Z.lxor (Z.land x y) (Z.land x z)) (Z.land y z).
Definition bsig0 (x : Z) : Z := Z.lxor (Z.lxor (rotr 2 x) (rotr 13 x)) (rotr 22 x).
Definition bsig1 (x : Z) : Z := Z.lxor (Z.lxor (rotr 6 x) (rotr 11 x)) (rotr 25 x).
Definition ssig0 (x : Z) : Z := Z.lxor (Z.lxor (rotr 7 x) (rotr 18 x)) (Z.shiftr x 3).
Definition ssig1 (x : Z) : Z := Z.lxor (Z.lxor (rotr 17 x) (rotr 19 x)) (Z.shiftr x 10).

(** The round constants: the first 32 bits of the fractional parts of the
    cube roots of the first 64 primes. *)
Definition K : list Z :=
  [1116352408; 1899447441; 3049323471; 3921009573;
   961987163; 1508970993; 2453635748; 2870763221;
   3624381080; 310598401; 607225278; 1426881987;
   1925078388; 2162078206; 2614888103; 3248222580;
   3835390401; 4022224774; 264347078; 604807628;
   770255983; 1249150122; 1555081692; 1996064986;
   2554220882; 2821834349; 2952996808; 3210313671;
   3336571891; 3584528711; 113926993; 338241895;
   666307205; 773529912; 1294757372; 1396182291;
   1695183700; 1986661051; 2177026350; 2456956037;
   2730485921; 2820302411; 3259730800; 3345764771;
   3516065817; 3600352804; 4094571909; 275423344;
   430227734; 506948616; 659060556; 883997877;
   958139571; 1322822218; 1537002063; 1747873779;
   1955562222; 2024104815; 2227730452; 2361852424;
   2428436474; 2756734187; 3204031479; 3329325298].

(** The eight working words. *)
Record regs : Type := Regs { ra : Z; rb : Z; rc : Z; rd : Z; re : Z; rf : Z; rg : Z; rh : Z }.

(** The initial hash value: the first 32 bits of the fractional parts of
    the square roots of the first 8 primes. *)
Definition H0 : regs :=
  Regs 1779033703 3144134277 1013904242 2773480762
       1359893119 2600822924 528734635 1541459225.

(** The integer part of the cube root of [x], found bit by bit from bit
    [n - 1] down, above [acc]. *)
Fixpoint cube_root_bits (n : nat) (x acc : Z) : Z :=
  match n with
  | O => acc
  | S n' =>
      let r := acc + 2 ^ Z.of_nat n' in
      if r * r * r <=? x then cube_root_bits n' x r else cube_root_bits n' x acc
  end.

Definition frac_bits_cbrt (p : Z) : Z := cube_root_bits 36 (p * 2 ^ 96) 0 mod 2 ^ 32.
Definition frac_bits_sqrt (p : Z) : Z := Z.sqrt (p * 2 ^ 64) mod 2 ^ 32.

Definition primes : list Z :=
  [2; 3; 5; 7; 11; 13; 17; 19; 23; 29; 31; 37; 41; 43; 47; 53; 59; 61; 67; 71; 73; 79;
   83; 89; 97; 101; 103; 107; 109; 113; 127; 131; 137; 139; 149; 151; 157; 163; 167;
   173; 179; 181; 191; 193; 197; 199; 211; 223; 227; 229; 233; 239; 241; 251; 257; 263;
   269; 271; 277; 281; 283; 293; 307; 311].

(** Big-endian words of a block of bytes. *)
Fixpoint words (bs : list Z) : list Z :=
  match bs with
  | b0 :: b1 :: b2 :: b3 :: r => (((b0 * 256 + b1) * 256 + b2) * 256 + b3) :: words r
  | _ => []
  end.

(** The message schedule, latest word first: [n] more words after [ws]. *)
Fixpoint schedule (n : nat) (ws : list Z) : list Z :=
  match n with
  | O => ws
  | S n' =>
      let w :=
        add32 (add32 (ssig1 (nth 1 ws 0)) (nth 6 ws 0))
              (add32 (ssig0 (nth 14 ws 0)) (nth 15 ws 0)) in
      schedule n' (w :: ws)
  end.

Definition round (r : regs) (kw : Z * Z) : regs :=
  let t1 := add32 (add32 (add32 (rh r) (bsig1 (re r))) (ch (re r) (rf r) (rg r)))
                  (add32 (fst kw) (snd kw)) in
  let t2 := add32 (bsig0 (ra r)) (maj (ra r) (rb r) (rc r)) in
  Regs (add32 t1 t2) (ra r) (rb r) (rc r) (add32 (rd r) t1) (re r) (rf r) (rg r).

(** One 64-byte block. *)
Definition compress (h : regs) (block : list Z) : regs :=
  let ws := List.rev (schedule 48 (List.rev (words block))) in
  let r := fold_left round (combine K ws) h in
  Regs (add32 (ra h) (ra r)) (add32 (rb h) (rb r)) (add32 (rc h) (rc r))
       (add32 (rd h) (rd r)) (add32 (re h) (re r)) (add32 (rf h) (rf r))
       (add32 (rg h) (rg r)) (add32 (rh h) (rh r)).

(** [h.update(...)] byte by byte: the chaining value, the bytes of the
    block being filled (latest first) and the number of bytes seen. *)
Fixpoint update (h : regs) (buf : list Z) (n : Z) (s : string) : regs * list Z * Z :=
  match s with
  | EmptyString => (h, buf, n)
  | String c r =>
      let buf' := code c :: buf in
      if (n + 1) mod 64 =? 0
      then update (compress h (List.rev buf')) [] (n + 1) r
      else update h buf' (n + 1) r
  end.

Definition be64 (n : Z) : list Z :=
  map (fun i => (n / 256 ^ i) mod 256) [7; 6; 5; 4; 3; 2; 1; 0].

(** The padded tail: a 1 bit, zeros, the length in bits. *)
Definition finish (h : regs) (buf : list Z) (n : Z) : regs :=
  let tail := (List.rev buf ++ [128])%list in
  let used := Z.of_nat (length tail) in
  if used <=? 56
  then compress h (tail ++ repeat 0 (Z.to_nat (56 - used)) ++ be64 (8 * n))%list
  else compress (compress h (tail ++ repeat 0 (Z.to_nat (64 - used)))%list)
                (repeat 0 56%nat ++ be64 (8 * n))%list.

Definition nibble (n : Z) : ascii :=
  if n <? 10 then chr (48 + n) else chr (87 + n).

Definition hex32 (x : Z) (k : string) : string :=
  String (nibble ((x / 268435456) mod 16)) (String (nibble ((x / 16777216) mod 16))
  (String (nibble ((x / 1048576) mod 16)) (String (nibble ((x / 65536) mod 16))
  (String (nibble ((x / 4096) mod 16)) (String (nibble ((x / 256) mod 16))
  (String (nibble ((x / 16) mod 16)) (String (nibble (x mod 16)) k))))))).

(** [hashlib.sha256(data).hexdigest()] *)
Definition hexdigest (data : string) : string :=
  let '(h, buf, n) := update H0 [] 0 data in
  let r := finish h buf n in
  hex32 (ra r) (hex32 (rb r) (hex32 (rc r) (hex32 (rd r)
  (hex32 (re r) (hex32 (rf r) (hex32 (rg r) (hex32 (rh r) EmptyString))))))).

End Sha256.

(* ================================================================== *)
(** * The file, its extended attributes, the network                   *)
(* ================================================================== *)

(** What [urllib.request.urlopen] comes back with. *)
Inductive urlopen_outcome : Type :=
| Response (body : string)  (** a response whose body is read in full *)
| HttpStatus (status : Z)   (** [urllib.error.HTTPError] with this code *)
| Failed.                   (** any other exception: no route, timeout, ... *)

(** What the program does to the outside, in the order it does it. *)
Inductive event : Type :=
| EvGetxattr (name : string)
| EvSetxattr (name value : string)
| EvHash                     (** the file read through and digested *)
| EvUrlopen (url : string)
| EvOpen                     (** the file opened for reading *)
| EvWriteTmp (data : string) (** the temporary sibling written and closed *)
| EvReplace                  (** the temporary sibling renamed over the file *)
| EvStat.

(** One file under [src_path] and what surrounds it. *)
Record world : Type := World {
  file_data : string;              (** the bytes of the file *)
  xattrs : gmap string string;     (** its extended attributes *)
  xattr_writable : bool;           (** whether [setxattr] succeeds on it *)
  tmp_file : option string;        (** the [.tmp.safetensors] sibling *)
  provider : string -> urlopen_outcome;  (** the answer to a GET of a URL *)
  trace : list event               (** what was done, latest first *)
}.

(** An action: a result or an exception, and the world it leaves. *)
Definition M (A : Type) : Type := world -> result A * world.

Definition ret {A} (a : A) : M A := fun w => (Ok a, w).
Definition raise {A} (e : exn) : M A := fun w => (Raise e, w).
Definition bind {A B} (m : M A) (f : A -> M B) : M B :=
  fun w => match m w with
           | (Ok a, w') => f a w'
           | (Raise e, w') => (Raise e, w')
           end.
Definition lift {A} (r : result A) : M A := fun w => (r, w).

Notation "x <- m ;; k" := (bind m (fun x => k))
  (at level 100, m at level 99, right associativity).
Notation "m ;;; k" := (bind m (fun _ => k))
  (at level 100, right associativity).

(** [try: m except Exception: handler] *)
Definition except_exception {A} (m : M A) (handler : M A) : M A :=
  fun w => match m w with
           | (Ok a, w') => (Ok a, w')
           | (Raise _, w') => handler w'
           end.

Definition add_event (e : event) (w : world) : world :=
  World (file_data w) (xattrs w) (xattr_writable w) (tmp_file w) (provider w)
        (e :: trace w).

Definition set_xattrs (x : gmap string string) (w : world) : world :=
  World (file_data w) x (xattr_writable w) (tmp_file w) (provider w) (trace w).

Definition set_tmp (t : option string) (w : world) : world :=
  World (file_data w) (xattrs w) (xattr_writable w) t (provider w) (trace w).

Definition log (e : event) : M unit := fun w => (Ok tt, add_event e w).

(** The bytes of the file, as reading it through gives them. *)
Definition file_contents : M string := fun w => (Ok (file_data w), w).

(** [p.stat().st_size] *)
Definition stat_size : M Z := fun w => (Ok (len (file_data w)), add_event EvStat w).

(** [urllib.request.urlopen(req, timeout=15)] *)
Definition urlopen (url : string) : M urlopen_outcome :=
  fun w => (Ok (provider w url), add_event (EvUrlopen url) w).

(** ** Constants *)

Definition CIVITAI_PFX : string := "civitai.".
Definition XATTR_SHA256 : string := "civitai.sha256sum".
Definition XATTR_FIX : string := "kernkraft235.safetensors.fix-v1".
Definition XATTR_WHERE : string := "com.apple.metadata:kMDItemWhereFroms".
Definition HDR_PREFIX : string := "model.diffusion_model.".
Definition FIX_METADATA : Z := 1.
Definition FIX_KEYS : Z := 2.
Definition CIVITAI_BY_HASH (h : string) : string :=
  "https://civitai.com/api/v1/model-versions/by-hash/" +:+ h.
Definition CIVITAI_MODEL_URL (id : string) : string :=
  "https://civitai.com/models/" +:+ id.
Definition METADATA_KEY : string := "__metadata__".

(** ** Dynamic typing *)

(** [bool(v)]; a float counts as true (it is not interpreted). *)
Definition truthy (v : json) : bool :=
  match v with
  | JNull => false
  | JBool b => b
  | JNum z => negb (z =? 0)
  | JFloat _ => true
  | JStr s => negb (String.eqb s EmptyString)
  | JArr l => match l with [] => false | _ => true end
  | JObj kvs => match kvs with [] => false | _ => true end
  end.

(** [d.get(k, default)]; [None] is [JNull]. *)
Definition py_get (d : json) (k : string) (default : json) : result json :=
  match d with
  | JObj kvs => Ok (match Dict.get k kvs with Some v => v | None => default end)
  | _ => Raise AttributeError
  end.

(** [str(v)], which is also how [str.format] shows [v].  Python shows a
    list or a dictionary in its own notation, which is not modelled: the
    compact JSON text stands for it. *)
Definition py_str (v : json) : string :=
  match v with
  | JNull => "None"
  | JBool true => "True"
  | JBool false => "False"
  | JNum z => str_of_int z
  | JFloat lit => lit
  | JStr s => s
  | _ => Json.dumps v
  end.

(** Equality of strings as a boolean, for [==] on [str]. *)
Definition json_is_str (v : json) (s : string) : bool :=
  match v with
  | JStr t => String.eqb t s
  | _ => false
  end.

(** ** xattr helpers *)

Definition _xattr_get (name : string) : M (option string) :=
  log (EvGetxattr name) ;;;
  fun w => (Ok (xattrs w !! name), w).

Definition _xattr_set (name value : string) : M unit :=
  log (EvSetxattr name value) ;;;
  fun w => if xattr_writable w
           then (Ok tt, set_xattrs (<[name := value]> (xattrs w)) w)
           else (Raise OSError, w).

Definition get_civitai_xattr (field : string) : M (option string) :=
  raw <- _xattr_get (CIVITAI_PFX +:+ field) ;;
  ret (option_map Utf8.decode_replace raw).

Definition get_sha256_xattr : M (option string) :=
  raw <- _xattr_get XATTR_SHA256 ;;
  ret (option_map Utf8.decode_replace raw).

Definition get_fix_xattr : M (option Z) :=
  raw <- _xattr_get XATTR_FIX ;;
  ret (match raw with
       | None => None
       | Some r => int_of_text r
       end).

(** True if any civitai.* data key is already set. *)
Definition civitai_xattr_exists : M bool :=
  raw <- _xattr_get (CIVITAI_PFX +:+ "baseModel") ;;
  ret (match raw with Some _ => true | None => false end).

Definition mark_sha256 (hexdigest : string) : M unit :=
  raw <- lift (Utf8.encode hexdigest) ;;
  _xattr_set XATTR_SHA256 raw.

Definition mark_fix (fix_flags : Z) : M unit :=
  _xattr_set XATTR_FIX (str_of_int fix_flags).

(** CivitAI API field extractors (from API response to xattr value). *)
Definition CIVITAI_FIELD_EXTRACTORS : list (string * (json -> result json)) :=
  [ ("nsfwLevel", fun d => py_get d "nsfwLevel" JNull);
    ("baseModel", fun d => py_get d "baseModel" JNull);
    ("triggerWords", fun d => py_get d "trainedWords" JNull);
    ("name", fun d => rbind (py_get d "model" (JObj [])) (fun m => py_get m "name" JNull));
    ("modelType", fun d => rbind (py_get d "model" (JObj [])) (fun m => py_get m "type" JNull));
    ("air", fun d => py_get d "air" JNull);
    ("modelId", fun d => py_get d "modelId" JNull) ].

Definition CIVITAI_FIELDS : list string := map fst CIVITAI_FIELD_EXTRACTORS.

(** The bytes written for one extracted value. *)
Definition civitai_raw (value : json) : result string :=
  match value with
  | JArr _ | JObj _ => Utf8.encode (Json.dumps value)
  | _ => Utf8.encode (py_str value)
  end.

Fixpoint mark_civitai_fields (fields : list (string * (json -> result json)))
  (data : json) (written : Z) : M Z :=
  match fields with
  | [] => ret written
  | (field, extractor) :: r =>
      value <- lift (extractor data) ;;
      match value with
      | JNull => mark_civitai_fields r data written
      | _ =>
          raw <- lift (civitai_raw value) ;;
          _xattr_set (CIVITAI_PFX +:+ field) raw ;;;
          mark_civitai_fields r data (written + 1)
      end
  end.

(** Write extracted CivitAI fields as individual xattrs.  Returns count
    written. *)
Definition mark_civitai (data : json) : M Z :=
  written <- mark_civitai_fields CIVITAI_FIELD_EXTRACTORS data 0 ;;
  _xattr_set (CIVITAI_PFX +:+ "metadata.version") "1" ;;;
  ret written.

(** [plistlib.dumps([url], fmt=plistlib.FMT_BINARY)].  Of the binary
    property list only the magic number is modelled, followed by the text
    of the URL; nothing below reads this value. *)
Definition plist_dumps_binary (url : string) : string := "bplist00" +:+ url.

Definition mark_where_froms (url : string) : M unit :=
  _xattr_set XATTR_WHERE (plist_dumps_binary url).

(** ** SHA256 *)

Definition sha256_file : M string :=
  log EvHash ;;;
  data <- file_contents ;;
  ret (Sha256.hexdigest data).

(** Get SHA256: from xattr if available, else compute and tag. *)
Definition ensure_sha256 : M string :=
  existing <- get_sha256_xattr ;;
  match existing with
  | Some (String c r) => ret (String c r)
  | _ =>
      digest <- sha256_file ;;
      mark_sha256 digest ;;;
      ret digest
  end.

(** ** CivitAI API *)

(** [None] is [JNull]. *)
Definition fetch_civitai (sha256 : string) : M json :=
  let url := CIVITAI_BY_HASH (upper sha256) in
  resp <- urlopen url ;;
  match resp with
  | Response body =>
      match rbind (Utf8.decode body) Json.loads with
      | Ok v => ret v
      | Raise _ => ret JNull
      end
  | HttpStatus status =>
      if status =? 404 then ret JNull else raise (HTTPError status)
  | Failed => ret JNull
  end.

(** Fetch CivitAI data by hash if xattrs not already present.  Returns
    True if CivitAI data is available (pre-existing or freshly fetched). *)
Definition ensure_civitai_xattrs (sha256 : string) : M bool :=
  present <- civitai_xattr_exists ;;
  if present : bool then ret true
  else
    data <- fetch_civitai sha256 ;;
    match data with
    | JNull => ret false
    | _ =>
        n <- mark_civitai data ;;
        model_id <- lift (py_get data "modelId" JNull) ;;
        match model_id with
        | JNull => ret true
        | _ => mark_where_froms (CIVITAI_MODEL_URL (py_str model_id)) ;;; ret true
        end
    end.

(* ================================================================== *)
(** * safetensors header parsing and fixing                            *)
(* ================================================================== *)

(** [struct.unpack("<Q", raw)[0]]: the bytes of [raw], lowest first. *)
Fixpoint le_value (raw : string) : Z :=
  match raw with
  | EmptyString => 0
  | String c r => code c + 256 * le_value r
  end.

Definition unpack_Q (raw : string) : result Z :=
  if (String.length raw =? 8)%nat then Ok (le_value raw) else Raise StructError.

Fixpoint le_bytes (n : nat) (v : Z) : string :=
  match n with
  | O => EmptyString
  | S n' => String (chr (v mod 256)) (le_bytes n' (v / 256))
  end.

(** [struct.pack("<Q", v)] *)
Definition pack_Q (v : Z) : result string :=
  if (0 <=? v) && (v <? 18446744073709551616) then Ok (le_bytes 8 v)
  else Raise StructError.

(** The sanity bound of the header reader: 100 MB. *)
Definition HEADER_MAX : Z := 100 * 1024 * 1024.

(** Read the JSON header from a safetensors file (no tensor data).
    [None] is [JNull]. *)
Definition read_safetensors_header : M json :=
  except_exception
    (log EvOpen ;;;
     data <- file_contents ;;
     let raw_len := take_z 8 data in
     if (String.length raw_len <? 8)%nat then ret JNull
     else
       header_len <- lift (unpack_Q raw_len) ;;
       if header_len >? HEADER_MAX then ret JNull
       else lift (rbind (Utf8.decode (take_z header_len (drop_z 8 data))) Json.loads))
    (ret JNull).

(** Detect what header fixes are needed.  Returns bitmask. *)
Definition detect_fixes (header : list (string * json)) : Z :=
  let flags := 0 in
  let flags := if Dict.has METADATA_KEY header then Z.lor flags FIX_METADATA else flags in
  let flags := if existsb (fun k => startswith k HDR_PREFIX) (Dict.keys header)
               then Z.lor flags FIX_KEYS else flags in
  flags.

(** [any(k.startswith(HDR_PREFIX) for k in l)] over the items of a list:
    an item that is not a string has no [startswith]. *)
Fixpoint any_startswith (l : list json) : result bool :=
  match l with
  | [] => Ok false
  | JStr s :: r => if startswith s HDR_PREFIX then Ok true else any_startswith r
  | _ :: _ => Raise AttributeError
  end.

(** [detect_fixes] on whatever [json.loads] gave: a dictionary as above;
    on a list or a string the two tests look at items and characters; any
    other value is not iterable. *)
Definition detect_fixes_any (header : json) : result Z :=
  match header with
  | JObj h => Ok (detect_fixes h)
  | JArr l =>
      let flags := if existsb (fun v => json_is_str v METADATA_KEY) l
                   then FIX_METADATA else 0 in
      rbind (any_startswith l)
            (fun b => Ok (if b : bool then Z.lor flags FIX_KEYS else flags))
  | JStr s => Ok (if isin METADATA_KEY s then FIX_METADATA else 0)
  | _ => Raise TypeError
  end.

(** The key a tensor goes under in the fixed header. *)
Definition fixed_key (flags : Z) (k : string) : string :=
  if negb (Z.land flags FIX_KEYS =? 0) && startswith k HDR_PREFIX
  then drop (String.length HDR_PREFIX) k
  else k.

(** The dictionary [new_header] that [build_fixed_header] fills. *)
Definition fixed_header (header : list (string * json)) (flags : Z) : list (string * json) :=
  let header := if negb (Z.land flags FIX_METADATA =? 0)
                then Dict.pop METADATA_KEY header else header in
  fold_left (fun new_header kv => Dict.set (fixed_key flags (fst kv)) (snd kv) new_header)
            header [].

(** Build the fixed header bytes. *)
Definition build_fixed_header (header : list (string * json)) (flags : Z) : result string :=
  Utf8.encode (Json.dumps (JObj (fixed_header header flags))).

(** [build_fixed_header] on whatever [json.loads] gave: a value that is
    not a dictionary has no [pop] with a default and no [items]. *)
Definition build_fixed_header_any (header : json) (flags : Z) : result string :=
  match header with
  | JObj h => build_fixed_header h flags
  | JArr _ =>
      if negb (Z.land flags FIX_METADATA =? 0) then Raise TypeError
      else Raise AttributeError
  | _ => Raise AttributeError
  end.

(** [tmp.replace(p)]: the temporary sibling takes the place of the file;
    it is a new file, which carries no extended attribute. *)
Definition replace_with_tmp : M unit :=
  log EvReplace ;;;
  fun w =>
    match tmp_file w with
    | Some data =>
        (Ok tt, World data ∅ (xattr_writable w) None (provider w) (trace w))
    | None => (Raise OSError, w)
    end.

Definition write_tmp (data : string) : M unit :=
  log (EvWriteTmp data) ;;;
  fun w => (Ok tt, set_tmp (Some data) w).

(** Fix safetensors header in-place if needed.  Sets fix-v1 xattr.
    Re-applies sha256 xattr after overwrite. *)
Definition fix_header_inplace (sha256 : string) : M unit :=
  fix_flags <- get_fix_xattr ;;
  match fix_flags with
  | Some _ => ret tt
  | None =>
      log EvOpen ;;;
      data <- file_contents ;;
      header_len <- lift (unpack_Q (take_z 8 data)) ;;
      text <- lift (Utf8.decode (take_z header_len (drop_z 8 data))) ;;
      header <- lift (Json.loads text) ;;
      flags <- lift (detect_fixes_any header) ;;
      if flags =? 0 then mark_fix 0
      else
        fixed_bytes <- lift (build_fixed_header_any header flags) ;;
        prefix <- lift (pack_Q (len fixed_bytes)) ;;
        write_tmp (prefix +:+ fixed_bytes +:+ drop_z header_len (drop_z 8 data)) ;;;
        replace_with_tmp ;;;
        mark_sha256 sha256 ;;;
        mark_fix flags
  end.

(* ================================================================== *)
(** * Version detection from safetensors keys                          *)
(* ================================================================== *)

Definition is_sep (c : ascii) : bool := Ascii.eqb c "." || Ascii.eqb c "_".

(** The pattern [tb_pattern] from the word [transformer_blocks] on: the
    word, a separator, digits, a separator; the number the digits spell.
    ([\d] is taken on the ASCII digits.) *)
Definition tb_tail (s : string) : option Z :=
  if String.prefix "transformer_blocks" s then
    match drop 18 s with
    | String c r =>
        if is_sep c then
          match Json.scan_digits r with
          | (Decimal.Nil, _) => None
          | (ds, String c' _) => if is_sep c' then Some (Z.of_uint ds) else None
          | (_, EmptyString) => None
          end
        else None
    | EmptyString => None
    end
  else None.

(** [tb_pattern.search(k)], for the number in its group: the leftmost
    place where the pattern matches, at the start of the text or after a
    separator. *)
Fixpoint tb_search_from (at_start : bool) (s : string) : option Z :=
  let here :=
    match (if at_start then tb_tail s else None) with
    | Some n => Some n
    | None =>
        match s with
        | String c r => if is_sep c then tb_tail r else None
        | EmptyString => None
        end
    end in
  match here with
  | Some n => Some n
  | None =>
      match s with
      | String _ r => tb_search_from false r
      | EmptyString => None
      end
  end.

Definition tb_search (k : string) : option Z := tb_search_from true k.

(** The loop over the keys of heuristic 2. *)
Definition scan_blocks (keys : list string) : Z * bool :=
  fold_left
    (fun st k =>
       let max_tb_idx := match tb_search k with
                         | Some n => Z.max (fst st) n
                         | None => fst st
                         end in
       let has_double_stream_mod :=
         if isin "double_stream_modulation" k then true else snd st in
       (max_tb_idx, has_double_stream_mod))
    keys (-1, false).

(** [s.lower()] of a value that has to be a string. *)
Definition py_lower (v : json) : result string :=
  match v with
  | JStr s => Ok (lower s)
  | _ => Raise AttributeError
  end.

(** [shape and shape[-1] == 2048] *)
Definition last_dim_is_2048 (shape : json) : result bool :=
  if truthy shape then
    match shape with
    | JArr l => Ok (match List.last l JNull with JNum 2048 => true | _ => false end)
    | JStr _ => Ok false
    | JObj _ => Raise KeyError
    | _ => Raise TypeError
    end
  else Ok false.

(** The loop over the items of the SDXL check. *)
Fixpoint sdxl_scan (items : list (string * json)) : result (option string) :=
  match items with
  | [] => Ok None
  | (k, v) :: r =>
      if String.eqb k METADATA_KEY then sdxl_scan r
      else
        let k_flat := replace_char "." "_" k in
        if isin "input_blocks_4_1_transformer_blocks_0_attn2_to_k" k_flat
           || isin "input_blocks.4.1.transformer_blocks.0.attn2.to_k" k
        then
          rbind (py_get v "shape" (JArr []))
            (fun shape =>
               rbind (last_dim_is_2048 shape)
                 (fun hit => if hit : bool then Ok (Some "sdxl_base_v0.9") else sdxl_scan r))
        else sdxl_scan r
  end.

(** [set(header.keys()) - {"__metadata__"}], in the order of the header. *)
Definition tensor_keys (header : list (string * json)) : list string :=
  List.filter (fun k => negb (String.eqb k METADATA_KEY)) (Dict.keys header).

(** Detect LoRA model version from safetensors tensor key names.
    Fallback for files without CivitAI data.  The set [keys] is gone
    through in the order of the header. *)
Definition detect_version_from_keys (header : list (string * json)) : result (option string) :=
  let keys := tensor_keys header in
  let key_str := join " " keys in
  let metadata := match Dict.get METADATA_KEY header with
                  | Some m => m
                  | None => JObj []
                  end in
  (* Heuristic 0: __metadata__.modelspec.architecture *)
  rbind
    (match metadata with
     | JObj _ =>
         rbind (py_get metadata "modelspec.architecture" (JStr ""))
           (fun arch =>
              if truthy arch then
                rbind (py_lower arch)
                  (fun arch_lower =>
                     if isin "flux" arch_lower then Ok None
                     else if isin "sdxl" arch_lower then Ok (Some "sdxl_base_v0.9")
                     else if isin "z_image" arch_lower || isin "zimagetturbo" arch_lower
                     then Ok (Some "z_image")
                     else if isin "qwen" arch_lower then Ok (Some "qwen_image")
                     else Ok None)
              else Ok None)
     | _ => Ok None
     end)
    (fun early =>
       match early with
       | Some version => Ok (Some version)
       | None =>
           (* Heuristic 1: single_blocks check *)
           if isin "single_blocks.39.linear1" key_str
              || isin "single_blocks_39_linear1" key_str
              || isin "single_transformer_blocks.39." key_str
              || isin "single_transformer_blocks_39_" key_str
           then Ok (Some "flux2")
           else if isin "single_blocks.23.linear1" key_str
                   || isin "single_blocks_23_linear1" key_str
                   || isin "single_transformer_blocks.23." key_str
                   || isin "single_transformer_blocks_23_" key_str
           then Ok (Some "flux2_9b")
           else if isin "single_blocks.19.linear1" key_str
                   || isin "single_blocks_19_linear1" key_str
                   || isin "single_transformer_blocks.19." key_str
                   || isin "single_transformer_blocks_19_" key_str
           then Ok (Some "flux2_4b")
           else
             (* Heuristic 2: transformer_blocks range counting *)
             let '(max_tb_idx, has_double_stream_mod) := scan_blocks keys in
             rbind
               (if (max_tb_idx >=? 0) || has_double_stream_mod then
                  rbind
                    (if has_double_stream_mod then Ok true
                     else
                       rbind (py_get metadata "modelspec.architecture" (JStr ""))
                         (fun a => rbind (py_lower a) (fun al => Ok (isin "flux" al))))
                    (fun is_flux_family =>
                       if (is_flux_family : bool) || (max_tb_idx >=? 19) then
                         if max_tb_idx >=? 38 then Ok (Some "flux2")
                         else if max_tb_idx >=? 24 then Ok (Some "flux2")
                         else if max_tb_idx >=? 20 then Ok (Some "flux2_9b")
                         else Ok (Some "flux2_4b")
                       else if max_tb_idx >=? 59 then Ok (Some "qwen_image")
                       else Ok None)
                else Ok None)
               (fun by_blocks =>
                  match by_blocks with
                  | Some version => Ok (Some version)
                  | None =>
                      (* Z-Image *)
                      if isin "layers.29.feed_forward.w3." key_str
                         || isin "layers_29_feed_forward_w3" key_str
                      then Ok (Some "z_image")
                      (* Qwen Image *)
                      else if isin "transformer_blocks.59.txt_mlp." key_str
                              || isin "transformer_blocks_59_txt_mlp" key_str
                              || isin "transformer_blocks.37.attn." key_str
                              || isin "transformer_blocks_37_attn_" key_str
                      then Ok (Some "qwen_image")
                      (* SDXL *)
                      else sdxl_scan header
                  end)
       end).

(* ================================================================== *)
(** * Registry look-up, pre-flight checks, the pipeline                *)
(* ================================================================== *)

(** [v1 == v2] where [v2] is a string. *)
Definition eq_str (v : json) (s : string) : bool := json_is_str v s.

(** Check if this LoRA is already registered.  Returns the existing name
    if duplicate, None ([JNull]) otherwise.  [sha256] is [None] or a
    string. *)
Fixpoint is_duplicate (entries : list json) (ckpt_filename : string)
  (sha256 : option string) : result json :=
  match entries with
  | [] => Ok JNull
  | entry :: r =>
      rbind (py_get entry "file" JNull)
        (fun file =>
           if eq_str file ckpt_filename then py_get entry "name" (JStr ckpt_filename)
           else
             rbind (py_get entry "civitai" (JObj []))
               (fun civitai =>
                  match sha256 with
                  | Some (String c s) =>
                      rbind (py_get civitai "sha256" JNull)
                        (fun h =>
                           if eq_str h (String c s)
                           then py_get entry "name" (JStr ckpt_filename)
                           else is_duplicate r ckpt_filename sha256)
                  | _ => is_duplicate r ckpt_filename sha256
                  end))
  end.

(** What pre-flight answers: [(True, "")] or [(False, reason)]. *)
Inductive verdict : Type :=
| Pass
| TooLarge
| NotALora (model_type : string)
| DuplicateSha256 (existing : json)
| DuplicateId (name : json).

Definition verdict_ok (v : verdict) : bool :=
  match v with
  | Pass => true
  | _ => false
  end.

(** The loop of the duplicate check by CivitAI model version ID. *)
Fixpoint id_scan (entries : list json) (civitai_id : string) : result verdict :=
  match entries with
  | [] => Ok Pass
  | entry :: r =>
      rbind (py_get entry "civitai" (JObj []))
        (fun civitai =>
           rbind (py_get civitai "id" (JStr ""))
             (fun id =>
                if String.eqb (py_str id) civitai_id
                then rbind (py_get entry "name" (JStr "?")) (fun n => Ok (DuplicateId n))
                else id_scan r civitai_id))
  end.

(** [bool(s)] for a value that is [None] or a string. *)
Definition given (s : option string) : bool :=
  match s with
  | Some (String _ _) => true
  | _ => false
  end.

(** Run pre-flight checks. *)
Definition preflight (entries : list json) (size_limit_mb : Z) : M verdict :=
  (* Size check *)
  file_size <- stat_size ;;
  let limit_bytes := size_limit_mb * 1024 * 1024 in
  if (size_limit_mb >? 0) && (file_size >? limit_bytes) then ret TooLarge
  else
    (* Is it a LoRA? *)
    model_type <- get_civitai_xattr "modelType" ;;
    if given model_type && negb (String.eqb (upper (default "" model_type)) "LORA")
    then ret (NotALora (default "" model_type))
    else
      (* Duplicate check by SHA256 *)
      sha256 <- get_sha256_xattr ;;
      existing <- (if given sha256 then lift (is_duplicate entries "" sha256)
                   else ret JNull) ;;
      if truthy existing then ret (DuplicateSha256 existing)
      else
        (* Duplicate check by CivitAI model version ID *)
        civitai_id <- get_civitai_xattr "id" ;;
        if given civitai_id
        then lift (id_scan entries (default "" civitai_id))
        else ret Pass.

(** ** Pipeline stages *)

(** Stage 1-2: Compute SHA256, fetch CivitAI data.  Returns the SHA256
    hex digest. *)
Definition stage_sha256_and_civitai (skip_civitai : bool) : M string :=
  sha256 <- ensure_sha256 ;;
  (if negb skip_civitai then
     present <- civitai_xattr_exists ;;
     if present : bool then ret tt
     else (has_data <- ensure_civitai_xattrs sha256 ;; ret tt)
   else ret tt) ;;;
  ret sha256.

(** Stage 3: Fix safetensors header in-place. *)
Definition stage_header_fix (sha256 : string) : M unit :=
  fix_header_inplace sha256.

(** How [process_file] leaves its stages 1 to 4: it returns, or it goes
    on to version resolution and the converter (stages 5 to 8, which are
    the work of the external tool and are not part of this model). *)
Inductive outcome : Type :=
| Returned (ok : bool)
| Skipped (why : verdict)   (** [return False] after the pre-flight message *)
| ToConversion.

(** Process a single safetensors file, up to the end of the pre-flight
    checks. *)
Definition process_file (entries : list json) (size_limit_mb : Z)
  (skip_fix skip_civitai skip_convert fix_only tag_only : bool) : M outcome :=
  (* Stage 1-2: SHA256 + CivitAI *)
  sha256 <- stage_sha256_and_civitai skip_civitai ;;
  (* Stage 3: Header fix *)
  (if negb skip_fix && negb tag_only then stage_header_fix sha256 else ret tt) ;;;
  (* Early exit for partial pipeline modes *)
  if tag_only then ret (Returned true)
  else if fix_only then ret (Returned true)
  else if skip_convert then ret (Returned true)
  else
    (* Stage 4: Pre-flight checks *)
    v <- preflight entries size_limit_mb ;;
    if verdict_ok v then ret ToConversion else ret (Skipped v).

(** A world before the program has touched it: nothing traced. *)
Definition initial_world (data : string) (x : gmap string string)
  (net : string -> urlopen_outcome) : world :=
  World data x true None net [].

(** Running an action: its result and the world it leaves. *)
Definition result_of {A} (m : M A) (w : world) : result A := fst (m w).
Definition world_after {A} (m : M A) (w : world) : world := snd (m w).

(** The events of [w'] that came after those of [w], earliest first. *)
Definition events_since (w w' : world) : list event :=
  List.rev (firstn (length (trace w') - length (trace w)) (trace w')).

(* ================================================================== *)
(** * Measures and sample data used in the statements                  *)
(* ================================================================== *)

(** The number of parser calls a value takes. *)
Fixpoint jsize (v : json) : nat :=
  match v with
  | JArr l => S (fold_right (fun x n => S (jsize x + n)) O l)
  | JObj kvs => S (fold_right (fun kv n => S (jsize (snd kv) + n)) O kvs)
  | _ => 1
  end.

(** The text that may follow a number: it does not go on with a digit, a
    fraction or an exponent. *)
Definition number_end (k : string) : bool :=
  match k with
  | EmptyString => true
  | String c _ =>
      negb (is_digit c || Ascii.eqb c "." || Ascii.eqb c "e" || Ascii.eqb c "E")
  end.

(** All characters are ASCII. *)
Fixpoint is_ascii (s : string) : bool :=
  match s with
  | EmptyString => true
  | String c r => (code c <? 128) && is_ascii r
  end.

(** The key of a tensor once the removable prefix is stripped. *)
Definition strip_prefix (k : string) : string :=
  if startswith k HDR_PREFIX then drop (String.length HDR_PREFIX) k else k.

(** The bytes of a safetensors file: length prefix, header, payload. *)
Definition safetensors_file (header_bytes payload : string) : string :=
  le_bytes 8 (len header_bytes) +:+ header_bytes +:+ payload.

(** The header a fix is meant to leave: the metadata entry dropped, every
    key stripped of the removable prefix, values and order kept. *)
Definition renamed (h : list (string * json)) : list (string * json) :=
  map (fun kv => (strip_prefix (fst kv), snd kv)) (Dict.pop METADATA_KEY h).

(** The metadata block carries no architecture hint that names a family:
    there is no block, or it is a dictionary whose
    [modelspec.architecture] is missing or is a string in which none of
    the five family names occurs. *)
Definition no_family_hint (header : list (string * json)) : Prop :=
  match Dict.get METADATA_KEY header with
  | None => True
  | Some (JObj md) =>
      match Dict.get "modelspec.architecture" md with
      | None => True
      | Some (JStr a) =>
          isin "flux" (lower a) = false /\ isin "sdxl" (lower a) = false
          /\ isin "z_image" (lower a) = false /\ isin "zimagetturbo" (lower a) = false
          /\ isin "qwen" (lower a) = false
      | Some _ => False
      end
  | Some _ => False
  end.

(** A tensor descriptor, for the sample headers. *)
Definition sample_descriptor (lo hi : Z) : json :=
  JObj [("dtype", JStr "F16"); ("shape", JArr [JNum 4; JNum 4]);
        ("data_offsets", JArr [JNum lo; JNum hi])].

(** A header whose only tensor sits in block 59 of [transformer_blocks]. *)
Definition header_block_59 : list (string * json) :=
  [("transformer_blocks.59.attn.to_q.weight", sample_descriptor 0 32)].

(** A header with a key that carries the removable prefix twice. *)
Definition header_double_prefix : list (string * json) :=
  [("model.diffusion_model.model.diffusion_model.w", sample_descriptor 0 32)].

Definition header_single_prefix : list (string * json) :=
  [("model.diffusion_model.w", sample_descriptor 0 32)].

(** A header in which a stripped name meets a name that is already there. *)
Definition header_collision : list (string * json) :=
  [("__metadata__", JObj [("format", JStr "pt")]);
   ("a", sample_descriptor 0 32);
   ("model.diffusion_model.a", sample_descriptor 32 64)].

(** A well-formed header with a metadata block and one prefixed key. *)
Definition header_sample : list (string * json) :=
  [("__metadata__", JObj [("format", JStr "pt")]);
   ("model.diffusion_model.a", sample_descriptor 0 32);
   ("b", sample_descriptor 32 64)].

Definition header_clean : list (string * json) :=
  [("a", sample_descriptor 0 32); ("b", sample_descriptor 32 64)].

(** [wf_json], decided. *)
Fixpoint distinct (l : list string) : bool :=
  match l with
  | [] => true
  | k :: r => negb (existsb (String.eqb k) r) && distinct r
  end.

Fixpoint wf_jsonb (v : json) : bool :=
  match v with
  | JNull | JBool _ | JNum _ => true
  | JFloat _ => false
  | JStr s => Utf8.valid s
  | JArr l => forallb wf_jsonb l
  | JObj kvs =>
      distinct (Dict.keys kvs)
      && forallb (fun kv => Utf8.valid (fst kv) && wf_jsonb (snd kv)) kvs
  end.

(** The world a completed rewrite leaves: the file rebuilt around the new
    header bytes [fb], the two tags on the new file, six events. *)
Definition rewritten (w : world) (sha fb payload : string) (flags : Z) : world :=
  World (safetensors_file fb payload)
        (<[XATTR_FIX := str_of_int flags]> (<[XATTR_SHA256 := sha]> ∅))
        true None (provider w)
        (EvSetxattr XATTR_FIX (str_of_int flags)
         :: EvSetxattr XATTR_SHA256 sha
         :: EvReplace
         :: EvWriteTmp (safetensors_file fb payload)
         :: EvOpen
         :: EvGetxattr XATTR_FIX
         :: trace w).

(** The fix-state tag is not set, or does not read as a number. *)
Definition unchecked (w : world) : Prop :=
  match xattrs w !! XATTR_FIX with
  | None => None
  | Some r => int_of_text r
  end = None.

(** Old and new entries side by side: the value is kept; a prefixed key
    loses the prefix, any other key is kept. *)
Definition entry_renamed (old new : string * json) : Prop :=
  snd new = snd old
  /\ if startswith (fst old) HDR_PREFIX
     then fst old = HDR_PREFIX +:+ fst new
     else fst new = fst old.

(** The number of entries whose key changed. *)
Definition changed_keys (old new : list (string * json)) : nat :=
  length (List.filter (fun p => negb (String.eqb (fst (fst p)) (fst (snd p))))
                      (combine old new)).

(** The number of keys that carry the removable prefix. *)
Definition prefixed_keys (h : list (string * json)) : nat :=
  length (List.filter (fun k => startswith k HDR_PREFIX) (Dict.keys h)).

(** ** Sample files and worlds *)

Definition no_network (url : string) : urlopen_outcome := Failed.

Definition sample_file : string :=
  safetensors_file (Json.dumps (JObj header_sample)) "0123456789abcdef".

Definition sample_world : world := initial_world sample_file ∅ no_network.

Definition collision_world : world :=
  initial_world (safetensors_file (Json.dumps (JObj header_collision)) "0123456789abcdef")
                ∅ no_network.

Definition clean_world : world :=
  initial_world (safetensors_file (Json.dumps (JObj header_clean)) "0123456789abcdef")
                ∅ no_network.

(** A file whose length field says one byte more than the bound of the
    reader, and which holds an empty dictionary. *)
Definition oversized_world : world :=
  initial_world (le_bytes 8 (HEADER_MAX + 1) +:+ "{}") ∅ no_network.

(** The value of a run of digits read after [acc]. *)
Fixpoint uint_value (d : Decimal.uint) (acc : Z) : Z :=
  match d with
  | Decimal.Nil => acc
  | Decimal.D0 d => uint_value d (10 * acc)
  | Decimal.D1 d => uint_value d (10 * acc + 1)
  | Decimal.D2 d => uint_value d (10 * acc + 2)
  | Decimal.D3 d => uint_value d (10 * acc + 3)
  | Decimal.D4 d => uint_value d (10 * acc + 4)
  | Decimal.D5 d => uint_value d (10 * acc + 5)
  | Decimal.D6 d => uint_value d (10 * acc + 6)
  | Decimal.D7 d => uint_value d (10 * acc + 7)
  | Decimal.D8 d => uint_value d (10 * acc + 8)
  | Decimal.D9 d => uint_value d (10 * acc + 9)
  end.

(** The world the fixer leaves when it finds nothing to fix. *)
Definition marked_clean (w : world) : world :=
  set_xattrs (<[XATTR_FIX := str_of_int 0]> (xattrs w))
    (add_event (EvSetxattr XATTR_FIX (str_of_int 0))
       (add_event EvOpen (add_event (EvGetxattr XATTR_FIX) w))).

(** The fixer returns after reading the fix-state tag: the file is not
    opened, no byte and no tag changes. *)
Definition returns_at_once (sha : string) (w : world) : Prop :=
  exists w', fix_header_inplace sha w = (Ok tt, w')
    /\ file_data w' = file_data w /\ xattrs w' = xattrs w /\ tmp_file w' = tmp_file w
    /\ events_since w w' = [EvGetxattr XATTR_FIX].

Definition sample_sha : string := Sha256.hexdigest sample_file.

(** The world [ensure_sha256] leaves when it has to compute the digest. *)
Definition hashed (w : world) : world :=
  let d := Sha256.hexdigest (file_data w) in
  set_xattrs (<[XATTR_SHA256 := d]> (xattrs w))
    (add_event (EvSetxattr XATTR_SHA256 d)
       (add_event EvHash (add_event (EvGetxattr XATTR_SHA256) w))).

(** A provider that answers every request with status 500. *)
Definition server_error (url : string) : urlopen_outcome := HttpStatus 500.

Definition server_error_world : world := initial_world sample_file ∅ server_error.

(** A provider that answers 404, and one whose answer is not JSON. *)
Definition not_found (url : string) : urlopen_outcome := HttpStatus 404.
Definition garbled (url : string) : urlopen_outcome := Response "<html>".

(** [s] written [2 ^ n] times. *)
Fixpoint doubled (n : nat) (s : string) : string :=
  match n with
  | O => s
  | S n' => doubled n' (s +:+ s)
  end.

(** A payload of one mebibyte, and a file with the sample header in front
    of it: larger than a size limit of 1 MB. *)
Definition big_payload : string := doubled 20 "0".

Definition big_world : world :=
  initial_world (safetensors_file (Json.dumps (JObj header_sample)) big_payload)
                ∅ no_network.

(** ** CivitAI data collection *)

(** Fields to include in the JSON civitai sub-object (slim set). *)
Definition _CIVITAI_JSON_FIELDS : list string := ["nsfwLevel"; "baseModel"; "name"; "air"].

Fixpoint collect_fields (fields : list string) (data : list (string * json))
  : M (list (string * json)) :=
  match fields with
  | [] => ret data
  | field :: r =>
      val <- get_civitai_xattr field ;;
      match val with
      | None => collect_fields r data
      | Some v =>
          match Json.loads v with
          | Ok parsed => collect_fields r (Dict.set field parsed data)
          | Raise _ => collect_fields r (Dict.set field (JStr v) data)
          end
      end
  end.

(** Collect CivitAI xattr data into a slim dict for embedding in JSON.
    [None] is returned for an empty dictionary. *)
Definition collect_civitai_data : M (option (list (string * json))) :=
  data <- collect_fields _CIVITAI_JSON_FIELDS [] ;;
  sha256 <- get_sha256_xattr ;;
  let data := if given sha256 then Dict.set "sha256" (JStr (default "" sha256)) data
              else data in
  ret (match data with [] => None | _ => Some data end).

(** The tag that the duplicate check by external id reads. *)
Definition XATTR_ID : string := CIVITAI_PFX +:+ "id".

(** The provider gave no record: not found, no answer, or an answer that
    does not decode. *)
Definition no_record (o : urlopen_outcome) : Prop :=
  match o with
  | Response body => exists e, rbind (Utf8.decode body) Json.loads = Raise e
  | HttpStatus status => status = 404
  | Failed => True
  end.

(** The file carries no external-id tag. *)
Definition no_id_tag (w : world) : Prop := xattrs w !! XATTR_ID = None.

(** An action keeps a property of the world, however it ends. *)
Definition keeps {A} (P : world -> Prop) (m : M A) : Prop :=
  forall w, P w -> P (snd (m w)).

(** An action started where [P] holds answers within [Q], if it answers. *)
Definition answers {A} (P : world -> Prop) (Q : A -> Prop) (m : M A) : Prop :=
  forall w, P w -> match fst (m w) with Ok a => Q a | Raise _ => True end.

(** A verdict other than a match of external ids. *)
Definition not_by_id (v : verdict) : Prop :=
  match v with
  | DuplicateId _ => False
  | _ => True
  end.

Definition not_skipped_by_id (o : outcome) : Prop :=
  match o with
  | Skipped v => not_by_id v
  | _ => True
  end.

(** Stage 7: the entry that is appended to the registered entries. *)
Definition registered_entry (ckpt_sha256 name version ckpt_filename prefix : string)
  (is_loha : bool) (civitai_data : option (list (string * json))) : json :=
  let entry :=
    [ ("sha256", JStr ckpt_sha256); ("name", JStr name); ("version", JStr version);
      ("file", JStr ckpt_filename); ("prefix", JStr prefix);
      ("is_lo_ha", JBool is_loha) ] in
  match civitai_data with
  | Some (kv :: r) => JObj (Dict.set "civitai" (JObj (kv :: r)) entry)
  | _ => JObj entry
  end.

(** An entry that the pipeline registered for some tagged file. *)
Definition pipeline_entry (entry : json) : Prop :=
  exists ckpt_sha256 name version ckpt_filename prefix is_loha w civitai_data,
    result_of collect_civitai_data w = Ok civitai_data
    /\ entry = registered_entry ckpt_sha256 name version ckpt_filename prefix
                 is_loha civitai_data.

(** A world whose only tags are the external id and the digest. *)
Definition id_tagged_world (id : string) : world :=
  initial_world sample_file (<[XATTR_ID := id]> (<[XATTR_SHA256 := sample_sha]> ∅))
                no_network.

(** The world stages 1 and 2 leave for an untagged file when the provider
    has no record: the digest computed and tagged, the provider asked. *)
Definition looked_up (w : world) : world :=
  add_event (EvUrlopen (CIVITAI_BY_HASH (upper (Sha256.hexdigest (file_data w)))))
    (add_event (EvGetxattr (CIVITAI_PFX +:+ "baseModel"))
       (add_event (EvGetxattr (CIVITAI_PFX +:+ "baseModel")) (hashed w))).

(** Worlds whose provider answers 404, and something that is not JSON. *)
Definition not_found_world : world := initial_world sample_file ∅ not_found.
Definition garbled_world : world := initial_world sample_file ∅ garbled.

(** A header text whose only key is the escape of a lone surrogate, and
    the header it decodes to: the key is U+D800, which UTF-8 does not
    encode (the three bytes stand for the code point). *)
Definition surrogate_text : string :=
  String "{" (String dquote ("\ud800" +:+ String dquote ":{}}")).

Definition header_lone_surrogate : list (string * json) :=
  [(String (chr 237) (String (chr 160) (String (chr 128) "")), JObj [])].

(* ================================================================== *)
(** * Notions used by the proofs                                       *)
(* ================================================================== *)

(** A run of digits that does not start with a zero. *)
Definition head_nonzero (d : Decimal.uint) : Prop :=
  match d with
  | Decimal.Nil | Decimal.D0 _ => False
  | _ => True
  end.

(** A printed integer starts with a digit or a minus sign. *)
Definition number_start (c : ascii) : bool := is_digit c || Ascii.eqb c "-".

(** A character that can start a value: no whitespace, no closing bracket. *)
Definition value_start (c : ascii) : bool :=
  negb (Json.is_ws c) && negb (Ascii.eqb c "]").

(** The fuel the items of a list take. *)
Definition need_items (l : list json) : nat :=
  fold_right (fun x n => S (jsize x + n)) O l.
Definition need_members (kvs : list (string * json)) : nat :=
  fold_right (fun kv n => S (jsize (snd kv) + n)) O kvs.

Definition set_all (kvs acc : list (string * json)) : list (string * json) :=
  fold_left (fun acc kv => Dict.set (fst kv) (snd kv) acc) kvs acc.

(** The text of the members of an object after the opening quote of the
    first key. *)
Definition members_tail (kvs : list (string * json)) (k : string) : string :=
  match Json.emit_members Json.emit kvs (String "}" k) with
  | String _ r => r
  | EmptyString => EmptyString
  end.

(** The labels of the indexed flux2 variants. *)
Definition flux2_variant (v : string) : Prop :=
  v = "flux2" \/ v = "flux2_9b" \/ v = "flux2_4b".

(* ================================================================== *)
(** * Further notions: what a run leaves alone                         *)
(* ================================================================== *)

(** The file, its tags and the temporary sibling are as they were. *)
Definition untouched (w w' : world) : Prop :=
  file_data w' = file_data w /\ xattrs w' = xattrs w /\ tmp_file w' = tmp_file w.

(** From [w] to [w'] only events that [allowed] admits took place. *)
Definition only_events (allowed : event -> bool) (w w' : world) : Prop :=
  exists l, trace w' = (l ++ trace w)%list /\ forallb allowed l = true.

(** Events that ask and change nothing: a stat, the read of a tag. *)
Definition is_query (e : event) : bool :=
  match e with
  | EvStat | EvGetxattr _ => true
  | _ => false
  end.

(** Events of a run that only tags: no open, no temporary file, no
    replace, no stat. *)
Definition is_tagging (e : event) : bool :=
  match e with
  | EvGetxattr _ | EvSetxattr _ _ | EvHash | EvUrlopen _ => true
  | _ => false
  end.

Definition not_stat (e : event) : bool :=
  match e with
  | EvStat => false
  | _ => true
  end.

Definition any_event (e : event) : bool := true.

(** A file tagged as a checkpoint, not a LoRA. *)
Definition checkpoint_world : world :=
  initial_world sample_file (<[CIVITAI_PFX +:+ "modelType" := "Checkpoint"]> ∅) no_network.

(** A file whose header bytes are not JSON. *)
Definition garbled_file_world : world :=
  initial_world (safetensors_file "not a header" "0123456789abcdef") ∅ no_network.

(** The sample file where [setxattr] fails. *)
Definition unwritable_world : world :=
  World sample_file ∅ false None no_network [].

(** ** Tags of the provider's record *)

(** The text [mark_civitai] writes for an extracted value. *)
Definition tag_text (v : json) : string :=
  match v with
  | JArr _ | JObj _ => Json.dumps v
  | _ => py_str v
  end.

Definition is_none (v : json) : bool :=
  match v with
  | JNull => true
  | _ => false
  end.

(** What the extractors of [fields] give on [data], where they succeed. *)
Definition extracted (fields : list (string * (json -> result json))) (data : json)
  : list json :=
  flat_map (fun fe => match snd fe data with Ok v => [v] | Raise _ => [] end) fields.

(** The record has no [model], or its [model] is an object. *)
Definition model_is_object (d : list (string * json)) : Prop :=
  match Dict.get "model" d with
  | None | Some (JObj _) => True
  | Some _ => False
  end.

(** A record as the provider gives it for a LoRA. *)
Definition sample_record : list (string * json) :=
  [("id", JNum 7); ("modelId", JNum 42); ("baseModel", JStr "Pony");
   ("trainedWords", JArr [JStr "one"; JStr "two"]);
   ("model", JObj [("name", JStr "Sample"); ("type", JStr "LORA"); ("nsfw", JBool false)]);
   ("nsfwLevel", JNum 1)].

(** The tag [name] holds [v] (or is absent), the file holds [fd], the
    temporary sibling is [t]. *)
Definition tag_is (name : string) (v : option string) (fd : string) (t : option string)
  (w : world) : Prop :=
  xattrs w !! name = v /\ file_data w = fd /\ tmp_file w = t.

(** The names of the tags that the look-up at the provider may write. *)
Definition civitai_written (name : string) : bool :=
  existsb (String.eqb name)
    (map (fun f => CIVITAI_PFX +:+ f) (CIVITAI_FIELDS ++ ["metadata.version"])%list)
  || String.eqb name XATTR_WHERE.

(** A provider that answers every request with [body]. *)
Definition answering (body : string) (url : string) : urlopen_outcome := Response body.

Definition record_world (d : list (string * json)) : world :=
  initial_world sample_file ∅ (answering (Json.dumps (JObj d))).

(** A record without a base model. *)
Definition bare_record : list (string * json) :=
  [("id", JNum 7); ("modelId", JNum 42); ("model", JObj [("name", JStr "Sample")])].

(** ** Version resolution *)

(** CivitAI baseModel to Draw Things version string. *)
Definition CIVITAI_TO_DT_VERSION : list (string * string) :=
  [ ("ZImageTurbo", "z_image");
    ("Flux.2 Klein 9B", "flux2_9b");
    ("Flux.2 Klein 4B", "flux2_4b");
    ("Pony", "sdxl_base_v0.9");
    ("Illustrious", "sdxl_base_v0.9");
    ("SDXL 1.0", "sdxl_base_v0.9");
    ("Qwen", "qwen_image") ].

(** Known DT version strings for interactive prompts. *)
Definition DT_VERSIONS : list string :=
  [ "z_image"; "flux2_9b"; "flux2_4b"; "flux2"; "qwen_image";
    "sdxl_base_v0.9"; "sd3"; "sd3_large"; "pixart"; "auraflow";
    "flux1"; "v1"; "v2" ].

(** [detect_version_from_keys] on whatever the reader gave: a value that
    is not a dictionary has no [keys]. *)
Definition detect_version_any (header : json) : result (option string) :=
  match header with
  | JObj h => detect_version_from_keys h
  | _ => Raise AttributeError
  end.

(** Resolve DT version.  Priority: CLI override, CivitAI baseModel xattr,
    safetensors key-pattern detection; [None] leaves it to the prompt.
    [header] is what the reader gave ([JNull] for None). *)
Definition resolve_version (header : json) (cli_version : option string)
  (non_interactive : bool) : M (option string) :=
  if given cli_version then ret cli_version
  else
    base_model <- get_civitai_xattr "baseModel" ;;
    match (if given base_model
           then Dict.get (default "" base_model) CIVITAI_TO_DT_VERSION
           else None) with
    | Some version => ret (Some version)
    | None =>
        if truthy header then
          detected <- lift (detect_version_any header) ;;
          if given detected then ret detected else ret None
        else ret None
    end.

(** The answer of a classifier is among the known versions. *)
Definition known_label (r : result (option string)) : Prop :=
  match r with
  | Ok (Some v) => In v DT_VERSIONS /\ v <> EmptyString
  | _ => True
  end.

(** A file tagged with a base model, whose header says nothing. *)
Definition pony_world : world :=
  initial_world sample_file (<[CIVITAI_PFX +:+ "baseModel" := "Pony"]> ∅) no_network.

(** ** The registry *)

(** [entry] was registered under [name] for the converted file [file],
    with the collected data [civitai_data]. *)
Definition registered (name file : string) (civitai_data : option (list (string * json)))
  (entry : json) : Prop :=
  exists ckpt_sha256 version prefix is_loha,
    entry = registered_entry ckpt_sha256 name version file prefix is_loha civitai_data.

(** An entry registered under a name that is not empty. *)
Definition named_entry (entry : json) : Prop :=
  exists name file civitai_data,
    name <> EmptyString /\ registered name file civitai_data entry.

(** An entry registered for a source file whose digest tag read [d]. *)
Definition registered_for (d : string) (entry : json) : Prop :=
  exists name file w civitai_data,
    registered name file civitai_data entry
    /\ result_of collect_civitai_data w = Ok civitai_data
    /\ option_map Utf8.decode_replace (xattrs w !! XATTR_SHA256) = Some d.

(** The sample file with its digest tagged, and an entry registered for
    it. *)
Definition hashed_world : world :=
  initial_world sample_file (<[XATTR_SHA256 := sample_sha]> ∅) no_network.

Definition sample_entry : json :=
  registered_entry "00" "Sample" "flux2" "sample_f16.ckpt" "" false
    (Some [("sha256", JStr sample_sha)]).

(** ** Propagating tags to the converted file *)

(** The test of [propagate_xattrs] on the name of a tag. *)
Definition wanted (name : string) : bool :=
  startswith (Utf8.decode_replace name) CIVITAI_PFX || String.eqb name XATTR_WHERE.

(** The loop of [propagate_xattrs] over [names], the names that
    [_xattr_list(src)] gave: [src] holds the tags of the source, [dst]
    those of the target, [dst_writable] tells whether [setxattr] on the
    target succeeds (its OSError is passed over). *)
Fixpoint propagate_loop (names : list string) (src dst : gmap string string)
  (dst_writable : bool) (copied : Z) : gmap string string * Z :=
  match names with
  | [] => (dst, copied)
  | name :: r =>
      if wanted name then
        match src !! name with
        | Some val =>
            if dst_writable
            then propagate_loop r src (<[name := val]> dst) dst_writable (copied + 1)
            else propagate_loop r src dst dst_writable copied
        | None => propagate_loop r src dst dst_writable copied
        end
      else propagate_loop r src dst dst_writable copied
  end.

(** Copy all civitai.* and kMDItemWhereFroms xattrs from src to dst.
    Returns the tags of the target and the count. *)
Definition propagate_xattrs (names : list string) (src dst : gmap string string)
  (dst_writable : bool) : gmap string string * Z :=
  propagate_loop names src dst dst_writable 0.

(** ** The registry file *)



(** ** The name of the converted file *)

(** [s.replace(old, new)] for an [old] that is not empty: the
    occurrences of [old] from left to right, none overlapping another.
    [skip] counts the characters of an occurrence still to pass over. *)
Fixpoint replace_from (old new : string) (skip : nat) (s : string) : string :=
  match s with
  | EmptyString => EmptyString
  | String c r =>
      match skip with
      | S k => replace_from old new k r
      | O =>
          if String.prefix old s
          then new +:+ replace_from old new (String.length old - 1) r
          else String c (replace_from old new O r)
      end
  end.

Definition replace (old new s : string) : string := replace_from old new O s.

(** [re.sub(r"_+", "_", s)]; [prev] tells whether the last character was
    an underscore. *)
Fixpoint collapse_from (prev : bool) (s : string) : string :=
  match s with
  | EmptyString => EmptyString
  | String c r =>
      if Ascii.eqb c "_"
      then if prev then collapse_from true r else String c (collapse_from true r)
      else String c (collapse_from false r)
  end.

Definition collapse_underscores (s : string) : string := collapse_from false s.

(** Clean up .ckpt filename: collapse consecutive _, remove _lora. *)
Definition clean_name (name : string) : string :=
  collapse_underscores (replace "_lora_" "_" name).

(* ================================================================== *)
(** * Theorems                                                         *)
(* ================================================================== *)

(** ** SHA-256 against the standard *)

Lemma round_constants : Sha256.K = map Sha256.frac_bits_cbrt Sha256.primes.
Proof. vm_compute. reflexivity. Qed.

Lemma initial_hash_value :
  [Sha256.ra Sha256.H0; Sha256.rb Sha256.H0; Sha256.rc Sha256.H0; Sha256.rd Sha256.H0;
   Sha256.re Sha256.H0; Sha256.rf Sha256.H0; Sha256.rg Sha256.H0; Sha256.rh Sha256.H0]
  = map Sha256.frac_bits_sqrt (firstn 8 Sha256.primes).
Proof. vm_compute. reflexivity. Qed.

(** The test vectors of the standard: the empty message, one block, two
    blocks. *)
Lemma hexdigest_empty :
  Sha256.hexdigest ""
  = "e3b0c44298fc1c149afbf4c8996fb92427ae41e4649b934ca495991b7852b855".
Proof. vm_compute. reflexivity. Qed.

Lemma hexdigest_abc :
  Sha256.hexdigest "abc"
  = "ba7816bf8f01cfea414140de5dae2223b00361a396177a9cb410ff61f20015ad".
Proof. vm_compute. reflexivity. Qed.

Lemma hexdigest_two_blocks :
  Sha256.hexdigest "abcdbcdecdefdefgefghfghighijhijkijkljklmklmnlmnomnopnopq"
  = "248d6a61d20638b8e5c026930c3e6039a33ce45964ff2167f6ecedd419db06c1".
Proof. vm_compute. reflexivity. Qed.

(** ** The JSON printer and parser: reading back what was printed *)

Lemma app_cons (x : ascii) (a b : string) : String x a +:+ b = String x (a +:+ b).
Proof. reflexivity. Qed.

Lemma app_nil_l_s (b : string) : EmptyString +:+ b = b.
Proof. reflexivity. Qed.

Lemma app_nil_r_s (a : string) : a +:+ EmptyString = a.
Proof. induction a as [|x a IH]; [reflexivity | now rewrite app_cons, IH]. Qed.

Lemma app_assoc_s (a b c : string) : (a +:+ b) +:+ c = a +:+ (b +:+ c).
Proof.
  induction a as [|x a IH]; [reflexivity|].
  now rewrite !app_cons, IH.
Qed.

Lemma length_app_s (a b : string) :
  String.length (a +:+ b) = (String.length a + String.length b)%nat.
Proof.
  induction a as [|x a IH]; [reflexivity|].
  rewrite app_cons. simpl. now rewrite IH.
Qed.

Lemma len_nonneg s : 0 <= len s.
Proof. unfold len. lia. Qed.

Lemma len_app (a b : string) : len (a +:+ b) = len a + len b.
Proof. unfold len. rewrite length_app_s. lia. Qed.

Lemma len_cons (x : ascii) (a : string) : len (String x a) = 1 + len a.
Proof. unfold len. simpl String.length. lia. Qed.

Lemma take_z_app (a b : string) : take_z (len a) (a +:+ b) = a.
Proof.
  induction a as [|x a IH].
  - rewrite app_nil_l_s. destruct b; reflexivity.
  - rewrite app_cons, len_cons. simpl.
    pose proof (len_nonneg a).
    destruct (1 + len a <=? 0) eqn:E; [lia|].
    f_equal. replace (1 + len a - 1) with (len a) by lia. exact IH.
Qed.

Lemma drop_z_app (a b : string) : drop_z (len a) (a +:+ b) = b.
Proof.
  induction a as [|x a IH].
  - rewrite app_nil_l_s. destruct b; reflexivity.
  - rewrite app_cons, len_cons. simpl.
    pose proof (len_nonneg a).
    destruct (1 + len a <=? 0) eqn:E; [lia|].
    replace (1 + len a - 1) with (len a) by lia. exact IH.
Qed.

Lemma prefix_app (p s : string) : String.prefix p (p +:+ s) = true.
Proof.
  induction p as [|x p IH].
  - now destruct s.
  - rewrite app_cons. simpl. destruct (ascii_dec x x); [exact IH | congruence].
Qed.

Lemma prefix_split (p s : string) :
  String.prefix p s = true -> s = p +:+ drop (String.length p) s.
Proof.
  revert s; induction p as [|x p IH]; intros s H.
  - reflexivity.
  - destruct s as [|y s]; [discriminate|]. simpl in H.
    destruct (ascii_dec x y); [|discriminate]. subst.
    rewrite app_cons. simpl. f_equal. now apply IH.
Qed.

Lemma drop_app (p s : string) : drop (String.length p) (p +:+ s) = s.
Proof. induction p as [|x p IH]; [reflexivity|]. rewrite app_cons. simpl. exact IH. Qed.

(** ** Strings of a JSON text *)

Lemma scan_emit_char (c : ascii) (rest : string) :
  Json.scan_string (Json.emit_char c rest)
  = Json.prepend (String c EmptyString) (Json.scan_string rest).
Proof.
  destruct c as [[] [] [] [] [] [] [] []]; reflexivity.
Qed.

Lemma scan_emit_chars (s k : string) :
  Json.scan_string (Json.emit_chars s (String Json.dquote k)) = Some (s, k).
Proof.
  induction s as [|c s IH].
  - reflexivity.
  - simpl Json.emit_chars. rewrite scan_emit_char, IH. reflexivity.
Qed.

Lemma run_emit_char (c : ascii) (st : Utf8.state) (rest : string) :
  Utf8.run st (Json.emit_char c rest)
  = match Utf8.step st c with
    | Some st' => Utf8.run st' rest
    | None => None
    end.
Proof.
  destruct c as [[] [] [] [] [] [] [] []]; destruct st; reflexivity.
Qed.

Lemma run_emit_chars (s : string) (st : Utf8.state) (k : string) :
  Utf8.run st (Json.emit_chars s k)
  = match Utf8.run st s with
    | Some st' => Utf8.run st' k
    | None => None
    end.
Proof.
  revert st; induction s as [|c s IH]; intros st.
  - reflexivity.
  - simpl Json.emit_chars. rewrite run_emit_char. simpl Utf8.run.
    destruct (Utf8.step st c); [apply IH | reflexivity].
Qed.

(** ** Numbers of a JSON text *)

Lemma digit_of_is_digit (c : ascii) :
  Json.digit_of c = None <-> is_digit c = false.
Proof.
  destruct c as [[] [] [] [] [] [] [] []]; vm_compute; split; congruence.
Qed.

Lemma number_end_digit (k : string) :
  number_end k = true ->
  match k with
  | EmptyString => True
  | String c _ => Json.digit_of c = None
  end.
Proof.
  destruct k as [|c k]; [trivial|]. unfold number_end. intros H.
  apply digit_of_is_digit. destruct (is_digit c); [discriminate | reflexivity].
Qed.

Lemma scan_digits_uint (d : Decimal.uint) (k : string) :
  match k with
  | EmptyString => True
  | String c _ => Json.digit_of c = None
  end ->
  Json.scan_digits (NilEmpty.string_of_uint d +:+ k) = (d, k).
Proof.
  intros Hk. induction d; simpl NilEmpty.string_of_uint;
    rewrite ?app_cons, ?app_nil_l_s;
    try (simpl Json.scan_digits; rewrite IHd; reflexivity).
  destruct k as [|c k]; [reflexivity|]. simpl. now rewrite Hk.
Qed.

Lemma scan_frac_end (k : string) : number_end k = true -> Json.scan_frac k = None.
Proof.
  destruct k as [|c [|d k]]; try reflexivity.
  unfold number_end, Json.scan_frac. intros H.
  destruct (Ascii.eqb c "."); [|reflexivity].
  rewrite orb_true_r in H. simpl in H. discriminate.
Qed.

Lemma scan_exp_end (k : string) : number_end k = true -> Json.scan_exp k = None.
Proof.
  destruct k as [|c k]; [reflexivity|].
  unfold number_end, Json.scan_exp. intros H.
  destruct (Ascii.eqb c "e"), (Ascii.eqb c "E"); try reflexivity;
    rewrite ?orb_true_r in H; simpl in H; discriminate.
Qed.

(** The head of a printed natural number is a digit other than zero. *)
Lemma to_uint_head (p : positive) :
  Pos.to_uint p <> Decimal.Nil /\ forall d, Pos.to_uint p <> Decimal.D0 d.
Proof.
  split; [apply DecimalPos.Unsigned.to_uint_nonnil|].
  intros d Hd.
  assert (Hn : Decimal.unorm (Pos.to_uint p) = Pos.to_uint p).
  { rewrite <- (DecimalPos.Unsigned.to_of (Pos.to_uint p)).
    rewrite DecimalPos.Unsigned.of_to. reflexivity. }
  pose proof (DecimalPos.Unsigned.to_uint_nonzero p) as Hz.
  unfold Decimal.unorm in Hn.
  destruct (Decimal.nzhead (Pos.to_uint p)) eqn:E.
  - congruence.
  - rewrite <- Hn in Hd. inversion Hd; subst. now apply (DecimalFacts.nzhead_nonzero _ _ E).
  - congruence.
  - congruence.
  - congruence.
  - congruence.
  - congruence.
  - congruence.
  - congruence.
  - congruence.
  - congruence.
Qed.

Lemma scan_number_tail (neg : bool) (d : Decimal.uint) (k : string) (s : string) :
  number_end k = true ->
  match Json.scan_frac k, Json.scan_exp
                            (match Json.scan_frac k with Some r1 => r1 | None => k end) with
  | None, None =>
      Some (JNum (Z.of_int (if neg then Decimal.Neg d else Decimal.Pos d)), k)
  | _, _ =>
      Some (JFloat (take_z (len s - len (match Json.scan_exp
                            (match Json.scan_frac k with Some r1 => r1 | None => k end) with
                            | Some r2 => r2
                            | None => match Json.scan_frac k with Some r1 => r1 | None => k end
                            end)) s),
            match Json.scan_exp
                            (match Json.scan_frac k with Some r1 => r1 | None => k end) with
                            | Some r2 => r2
                            | None => match Json.scan_frac k with Some r1 => r1 | None => k end
                            end)
  end = Some (JNum (Z.of_int (if neg then Decimal.Neg d else Decimal.Pos d)), k).
Proof.
  intros H. rewrite (scan_frac_end k H), (scan_exp_end k H). reflexivity.
Qed.

Lemma scan_number_pos (d : Decimal.uint) (k : string) :
  head_nonzero d -> number_end k = true ->
  Json.scan_number (NilEmpty.string_of_uint d +:+ k)
  = Some (JNum (Z.of_int (Decimal.Pos d)), k).
Proof.
  intros Hd Hk.
  pose proof (scan_digits_uint d k (number_end_digit k Hk)) as Hs.
  destruct d; try contradiction;
    simpl NilEmpty.string_of_uint in *; rewrite app_cons in *;
    unfold Json.scan_number;
    cbv beta iota zeta delta [Ascii.eqb Bool.eqb is_digit in_range code N_of_ascii
                               N_of_digits Z.of_N andb Z.leb Z.compare N.add N.mul
                               Pos.add Pos.mul Pos.compare Pos.compare_cont Pos.succ];
    rewrite Hs; apply (scan_number_tail false); exact Hk.
Qed.

Lemma scan_number_neg (d : Decimal.uint) (k : string) :
  head_nonzero d -> number_end k = true ->
  Json.scan_number (String "-" (NilEmpty.string_of_uint d +:+ k))
  = Some (JNum (Z.of_int (Decimal.Neg d)), k).
Proof.
  intros Hd Hk.
  pose proof (scan_digits_uint d k (number_end_digit k Hk)) as Hs.
  destruct d; try contradiction;
    simpl NilEmpty.string_of_uint in *; rewrite app_cons in *;
    unfold Json.scan_number;
    cbv beta iota zeta delta [Ascii.eqb Bool.eqb is_digit in_range code N_of_ascii
                               N_of_digits Z.of_N andb Z.leb Z.compare N.add N.mul
                               Pos.add Pos.mul Pos.compare Pos.compare_cont Pos.succ];
    rewrite Hs; apply (scan_number_tail true); exact Hk.
Qed.

Lemma to_uint_head_nonzero (p : positive) : head_nonzero (Pos.to_uint p).
Proof.
  destruct (to_uint_head p) as [H1 H2].
  destruct (Pos.to_uint p) eqn:E; simpl; auto. now apply (H2 u).
Qed.

Lemma string_of_uint_nonnil (d : Decimal.uint) :
  d <> Decimal.Nil -> NilZero.string_of_uint d = NilEmpty.string_of_uint d.
Proof. destruct d; [congruence | reflexivity ..]. Qed.

(** The three shapes of a printed integer. *)
Lemma str_of_int_cases (z : Z) :
  (z = 0 /\ str_of_int z = "0")
  \/ (exists p, z = Zpos p /\ str_of_int z = NilEmpty.string_of_uint (Pos.to_uint p))
  \/ (exists p, z = Zneg p
                /\ str_of_int z = String "-" (NilEmpty.string_of_uint (Pos.to_uint p))).
Proof.
  destruct z as [|p|p].
  - left. split; reflexivity.
  - right; left. exists p. split; [reflexivity|].
    unfold str_of_int. simpl. apply string_of_uint_nonnil, to_uint_head.
  - right; right. exists p. split; [reflexivity|].
    unfold str_of_int. simpl. f_equal. apply string_of_uint_nonnil, to_uint_head.
Qed.

Lemma scan_number_str_of_int (z : Z) (k : string) :
  number_end k = true ->
  Json.scan_number (str_of_int z +:+ k) = Some (JNum z, k).
Proof.
  intros Hk.
  destruct (str_of_int_cases z) as [[-> ->] | [(p & -> & ->) | (p & -> & ->)]].
  - rewrite app_cons, app_nil_l_s. unfold Json.scan_number.
    cbv beta iota zeta delta [Ascii.eqb Bool.eqb].
    apply (scan_number_tail false); exact Hk.
  - rewrite scan_number_pos by (auto using to_uint_head_nonzero).
    do 3 f_equal. apply (DecimalZ.of_to (Zpos p)).
  - rewrite app_cons, scan_number_neg by (auto using to_uint_head_nonzero).
    do 3 f_equal. apply (DecimalZ.of_to (Zneg p)).
Qed.

Lemma uint_head_char (d : Decimal.uint) (k : string) :
  d <> Decimal.Nil ->
  exists c r, NilEmpty.string_of_uint d +:+ k = String c r /\ number_start c = true.
Proof.
  intros Hd. destruct d; [congruence | ..];
    simpl NilEmpty.string_of_uint; rewrite app_cons; eauto.
Qed.

Lemma str_of_int_head (z : Z) (k : string) :
  exists c r, str_of_int z +:+ k = String c r /\ number_start c = true.
Proof.
  destruct (str_of_int_cases z) as [[-> ->] | [(p & -> & ->) | (p & -> & ->)]].
  - rewrite app_cons. eauto.
  - apply uint_head_char, to_uint_head.
  - rewrite app_cons. eauto.
Qed.

Lemma parse_value_number (f : nat) (c : ascii) (r : string) :
  number_start c = true ->
  Json.parse_value (S f) (String c r)
  = match Json.scan_number (String c r) with
    | Some x => Some x
    | None =>
        if String.prefix "-Infinity" (String c r)
        then Some (JFloat "-Infinity", drop 9 (String c r))
        else None
    end.
Proof.
  intros H.
  destruct c as [[] [] [] [] [] [] [] []]; try discriminate H; reflexivity.
Qed.

Lemma parse_value_str_of_int (f : nat) (z : Z) (k : string) :
  number_end k = true ->
  Json.parse_value (S f) (str_of_int z +:+ k) = Some (JNum z, k).
Proof.
  intros Hk. pose proof (scan_number_str_of_int z k Hk) as Hs.
  destruct (str_of_int_head z k) as (c & r & E & Hc).
  rewrite E in *. rewrite (parse_value_number f c r Hc), Hs. reflexivity.
Qed.

Lemma uint_is_ascii (d : Decimal.uint) : is_ascii (NilEmpty.string_of_uint d) = true.
Proof. induction d; simpl; auto. Qed.

Lemma str_of_int_is_ascii (z : Z) : is_ascii (str_of_int z) = true.
Proof.
  destruct (str_of_int_cases z) as [[-> ->] | [(p & -> & ->) | (p & -> & ->)]];
    [reflexivity | apply uint_is_ascii | simpl; apply uint_is_ascii].
Qed.

Lemma run_ascii (s k : string) :
  is_ascii s = true -> Utf8.run Utf8.S0 (s +:+ k) = Utf8.run Utf8.S0 k.
Proof.
  induction s as [|c s IH]; intros H; [reflexivity|].
  simpl in H. apply andb_true_iff in H as [Hc Hs].
  rewrite app_cons. simpl. rewrite Hc. auto.
Qed.

Lemma valid_ascii (s : string) : is_ascii s = true -> Utf8.valid s = true.
Proof.
  intros H. unfold Utf8.valid. rewrite <- (app_nil_r_s s), run_ascii by exact H.
  reflexivity.
Qed.

(** ** Values of a JSON text *)

Lemma number_start_value_start (c : ascii) :
  number_start c = true -> value_start c = true.
Proof.
  destruct c as [[] [] [] [] [] [] [] []]; vm_compute; congruence.
Qed.

Lemma emit_head (v : json) (k : string) :
  wf_json v -> exists c r, Json.emit v k = String c r /\ value_start c = true.
Proof.
  destruct v as [| [] | z | lit | s | l | kvs]; simpl; intros H.
  - rewrite app_cons. eauto.
  - rewrite app_cons. eauto.
  - rewrite app_cons. eauto.
  - destruct (str_of_int_head z k) as (c & r & E & Hc).
    exists c, r. split; [exact E | now apply number_start_value_start].
  - contradiction.
  - unfold Json.emit_string. eauto.
  - eauto.
  - eauto.
Qed.

Lemma skip_ws_start (c : ascii) (r : string) :
  value_start c = true -> Json.skip_ws (String c r) = String c r.
Proof.
  unfold value_start. intros H. simpl.
  destruct (Json.is_ws c); [discriminate | reflexivity].
Qed.

Lemma skip_ws_emit (v : json) (k : string) :
  wf_json v -> Json.skip_ws (Json.emit v k) = Json.emit v k.
Proof.
  intros H. destruct (emit_head v k H) as (c & r & -> & Hc).
  now apply skip_ws_start.
Qed.

Lemma parse_elements_eq (f : nat) (s : string) (acc : list json) :
  Json.parse_elements (S f) s acc
  = match Json.parse_value f s with
    | None => None
    | Some (v, r) =>
        match Json.skip_ws r with
        | String c r1 =>
            if Ascii.eqb c "]" then Some (JArr (acc ++ [v]), r1)
            else if Ascii.eqb c "," then Json.parse_elements f (Json.skip_ws r1) (acc ++ [v])
            else None
        | EmptyString => None
        end
    end.
Proof. reflexivity. Qed.

Lemma parse_members_eq (f : nat) (s : string) (acc : list (string * json)) :
  Json.parse_members (S f) s acc
  = match Json.scan_string s with
    | None => None
    | Some (key, r) =>
        match Json.skip_ws r with
        | String c r1 =>
            if Ascii.eqb c ":" then
              match Json.parse_value f (Json.skip_ws r1) with
              | None => None
              | Some (v, r2) =>
                  match Json.skip_ws r2 with
                  | String c' r3 =>
                      if Ascii.eqb c' "}" then Some (JObj (Dict.set key v acc), r3)
                      else if Ascii.eqb c' "," then
                        match Json.skip_ws r3 with
                        | String q r4 =>
                            if Ascii.eqb q Json.dquote
                            then Json.parse_members f r4 (Dict.set key v acc)
                            else None
                        | EmptyString => None
                        end
                      else None
                  | EmptyString => None
                  end
              end
            else None
        | EmptyString => None
        end
    end.
Proof. reflexivity. Qed.

Lemma skip_ws_nows (c : ascii) (r : string) :
  Json.is_ws c = false -> Json.skip_ws (String c r) = String c r.
Proof. intros H. simpl. now rewrite H. Qed.

Lemma emit_items_cons2 (v v2 : json) (l : list json) (k : string) :
  Json.emit_items Json.emit (v :: v2 :: l) k
  = Json.emit v (String "," (Json.emit_items Json.emit (v2 :: l) k)).
Proof. reflexivity. Qed.

Lemma emit_members_cons2 (key : string) (v : json) (kv2 : string * json)
  (kvs : list (string * json)) (k : string) :
  Json.emit_members Json.emit ((key, v) :: kv2 :: kvs) k
  = Json.emit_string key
      (String ":" (Json.emit v (String "," (Json.emit_members Json.emit (kv2 :: kvs) k)))).
Proof. destruct kv2. reflexivity. Qed.

Lemma emit_items_head (v : json) (l : list json) (k : string) :
  wf_json v ->
  exists c r, Json.emit_items Json.emit (v :: l) k = String c r /\ value_start c = true.
Proof.
  intros H. destruct l; [simpl | rewrite emit_items_cons2]; now apply emit_head.
Qed.

Lemma emit_members_head (kv : string * json) (kvs : list (string * json)) (k : string) :
  Json.emit_members Json.emit (kv :: kvs) (String "}" k)
  = String Json.dquote (members_tail (kv :: kvs) k).
Proof. unfold members_tail. destruct kv, kvs as [|[? ?] ?]; reflexivity. Qed.

Section ParseEmit.
Variable n : nat.
Hypothesis IH : forall v, (jsize v <= n)%nat -> wf_json v ->
  forall f k, (jsize v <= f)%nat -> number_end k = true ->
  Json.parse_value f (Json.emit v k) = Some (v, k).

Lemma parse_elements_emit (l : list json) :
  l <> [] -> (need_items l <= n)%nat -> Json.all_items wf_json l ->
  forall f acc k, (need_items l <= f)%nat ->
  Json.parse_elements f (Json.emit_items Json.emit l (String "]" k)) acc
  = Some (JArr (acc ++ l), k).
Proof.
  induction l as [|v l IHl]; [congruence|].
  intros _ Hn [Hv Hl] f acc k Hf.
  simpl need_items in *.
  destruct f as [|f]; [lia|].
  rewrite parse_elements_eq.
  destruct l as [|v2 l].
  - simpl Json.emit_items.
    rewrite IH by (reflexivity || lia || assumption).
    rewrite skip_ws_nows by reflexivity. reflexivity.
  - rewrite emit_items_cons2.
    rewrite IH by (reflexivity || lia || assumption).
    rewrite skip_ws_nows by reflexivity.
    cbv beta iota. change (Ascii.eqb "," "]") with false.
    change (Ascii.eqb "," ",") with true. cbv beta iota.
    destruct Hl as [Hv2 Hl].
    destruct (emit_items_head v2 l (String "]" k) Hv2) as (c & r & E & Hc).
    rewrite E, (skip_ws_start c r Hc), <- E.
    rewrite IHl by (congruence || (simpl need_items in *; lia) || (split; assumption)).
    now rewrite <- app_assoc.
Qed.

Lemma parse_members_emit (kvs : list (string * json)) :
  kvs <> [] -> (need_members kvs <= n)%nat -> Json.all_members wf_json kvs ->
  forall f acc k, (need_members kvs <= f)%nat ->
  Json.parse_members f (members_tail kvs k) acc = Some (JObj (set_all kvs acc), k).
Proof.
  induction kvs as [|[key v] kvs IHk]; [congruence|].
  intros _ Hn (Hkey & Hv & Hr) f acc k Hf.
  simpl need_members in *.
  destruct f as [|f]; [lia|].
  rewrite parse_members_eq.
  destruct kvs as [|kv2 kvs].
  - unfold members_tail. simpl Json.emit_members. unfold Json.emit_string.
    rewrite scan_emit_chars.
    rewrite skip_ws_nows by reflexivity.
    cbv beta iota. change (Ascii.eqb ":" ":") with true. cbv beta iota.
    rewrite skip_ws_emit by assumption.
    rewrite IH by (reflexivity || lia || assumption).
    rewrite skip_ws_nows by reflexivity. reflexivity.
  - unfold members_tail at 1.
    rewrite emit_members_cons2.
    unfold Json.emit_string at 1.
    rewrite scan_emit_chars.
    rewrite skip_ws_nows by reflexivity.
    cbv beta iota. change (Ascii.eqb ":" ":") with true. cbv beta iota.
    rewrite skip_ws_emit by assumption.
    rewrite IH by (reflexivity || lia || assumption).
    rewrite skip_ws_nows by reflexivity.
    cbv beta iota. change (Ascii.eqb "," "}") with false.
    change (Ascii.eqb "," ",") with true. cbv beta iota.
    rewrite emit_members_head.
    rewrite skip_ws_nows by reflexivity.
    cbv beta iota. change (Ascii.eqb Json.dquote Json.dquote) with true. cbv beta iota.
    rewrite IHk by (congruence || (simpl need_members in *; lia) || assumption).
    reflexivity.
Qed.

End ParseEmit.

Lemma parse_value_eq_obj (f : nat) (r : string) :
  Json.parse_value (S f) (String "{" r)
  = match Json.skip_ws r with
    | String c' r' =>
        if Ascii.eqb c' "}" then Some (JObj [], r')
        else if Ascii.eqb c' Json.dquote then Json.parse_members f r' []
        else None
    | EmptyString => None
    end.
Proof. reflexivity. Qed.

Lemma parse_value_eq_arr (f : nat) (r : string) :
  Json.parse_value (S f) (String "[" r)
  = match Json.skip_ws r with
    | String c' r' =>
        if Ascii.eqb c' "]" then Some (JArr [], r')
        else Json.parse_elements f (String c' r') []
    | EmptyString => None
    end.
Proof. reflexivity. Qed.

(** ** Dictionaries *)

Lemma dict_get_set_same {A} (k : string) (v : A) (d : list (string * A)) :
  Dict.get k (Dict.set k v d) = Some v.
Proof.
  induction d as [|[k' v'] d IHd]; simpl.
  - now rewrite String.eqb_refl.
  - destruct (String.eqb k' k) eqn:E; simpl; rewrite E; auto.
Qed.

Lemma dict_set_fresh {A} (k : string) (v : A) (d : list (string * A)) :
  ~ In k (Dict.keys d) -> Dict.set k v d = (d ++ [(k, v)])%list.
Proof.
  induction d as [|[k' v'] d IHd]; simpl; intros H; [reflexivity|].
  destruct (String.eqb_spec k' k) as [->|Hne]; [tauto|].
  f_equal. apply IHd. tauto.
Qed.

Lemma dict_keys_app {A} (d1 d2 : list (string * A)) :
  Dict.keys (d1 ++ d2)%list = (Dict.keys d1 ++ Dict.keys d2)%list.
Proof. unfold Dict.keys. apply map_app. Qed.

Lemma set_all_nodup (kvs acc : list (string * json)) :
  NoDup (Dict.keys (acc ++ kvs)%list) -> set_all kvs acc = (acc ++ kvs)%list.
Proof.
  revert acc; induction kvs as [|[k v] kvs IHk]; intros acc H; simpl.
  - now rewrite app_nil_r.
  - unfold set_all in *. simpl.
    assert (Hk : ~ In k (Dict.keys acc)).
    { rewrite dict_keys_app in H. apply NoDup_app in H as (_ & H & _).
      intros Hin. apply list_elem_of_In in Hin. apply (H k Hin).
      simpl. left. }
    rewrite (dict_set_fresh k v acc Hk).
    rewrite IHk; rewrite <- app_assoc; [reflexivity | exact H].
Qed.

(** ** Printing, then parsing *)

Lemma parse_emit (n : nat) :
  forall v, (jsize v <= n)%nat -> wf_json v ->
  forall f k, (jsize v <= f)%nat -> number_end k = true ->
  Json.parse_value f (Json.emit v k) = Some (v, k).
Proof.
  induction n as [|n IHn]; intros v Hn Hwf f k Hf Hk.
  { destruct v; simpl in Hn; lia. }
  destruct f as [|f]; [destruct v; simpl in Hf; lia|].
  destruct v as [| [] | z | lit | s | l | kvs]; simpl Json.emit.
  - destruct k; reflexivity.
  - destruct k; reflexivity.
  - destruct k; reflexivity.
  - now apply parse_value_str_of_int.
  - destruct Hwf.
  - unfold Json.emit_string. simpl. now rewrite scan_emit_chars.
  - rewrite parse_value_eq_arr. simpl in Hn, Hf, Hwf.
    destruct l as [|v l].
    + reflexivity.
    + destruct Hwf as [Hv Hl].
      destruct (emit_items_head v l (String "]" k) Hv) as (c & r & E & Hc).
      rewrite E, (skip_ws_start c r Hc).
      assert (Hc' : Ascii.eqb c "]" = false).
      { unfold value_start in Hc. apply andb_true_iff in Hc as [_ Hc].
        now destruct (Ascii.eqb c "]"). }
      rewrite Hc', <- E.
      apply (parse_elements_emit n IHn (v :: l));
        [congruence | unfold need_items; lia | split; assumption | unfold need_items; lia].
  - rewrite parse_value_eq_obj. simpl in Hn, Hf, Hwf.
    destruct Hwf as [Hnd Hall].
    destruct kvs as [|kv kvs].
    + reflexivity.
    + rewrite emit_members_head.
      rewrite skip_ws_nows by reflexivity.
      cbv beta iota. change (Ascii.eqb Json.dquote "}") with false.
      change (Ascii.eqb Json.dquote Json.dquote) with true. cbv beta iota.
      rewrite (parse_members_emit n IHn (kv :: kvs));
        [| congruence | unfold need_members; lia | assumption | unfold need_members; lia].
      now rewrite set_all_nodup.
Qed.

(** ** Induction over values, through lists and dictionaries *)

Lemma json_ind' (P : json -> Prop) :
  P JNull -> (forall b, P (JBool b)) -> (forall z, P (JNum z)) ->
  (forall lit, P (JFloat lit)) -> (forall s, P (JStr s)) ->
  (forall l, Forall P l -> P (JArr l)) ->
  (forall kvs, Forall (fun kv => P (snd kv)) kvs -> P (JObj kvs)) ->
  forall v, P v.
Proof.
  intros Hnull Hbool Hnum Hfloat Hstr Harr Hobj.
  fix IH 1. intros [| b | z | lit | s | l | kvs].
  - exact Hnull.
  - apply Hbool.
  - apply Hnum.
  - apply Hfloat.
  - apply Hstr.
  - apply Harr. induction l as [|x l IHl]; constructor; [apply IH | exact IHl].
  - apply Hobj. induction kvs as [|[k x] kvs IHk]; constructor; [apply IH | exact IHk].
Qed.

Lemma length_emit_char (c : ascii) (k : string) :
  (S (String.length k) <= String.length (Json.emit_char c k))%nat.
Proof.
  unfold Json.emit_char.
  repeat match goal with
         | |- context [if ?b then _ else _] => destruct b
         end; simpl; lia.
Qed.

Lemma length_emit_chars (s k : string) :
  (String.length k <= String.length (Json.emit_chars s k))%nat.
Proof.
  induction s as [|c s IHs]; simpl; [lia|].
  pose proof (length_emit_char c (Json.emit_chars s k)). lia.
Qed.

Lemma length_str_of_int (z : Z) : (1 <= String.length (str_of_int z))%nat.
Proof.
  destruct (str_of_int_head z EmptyString) as (c & r & E & _).
  rewrite app_nil_r_s in E. rewrite E. simpl. lia.
Qed.

Lemma length_emit_items (l : list json) :
  Forall (fun v => wf_json v ->
            forall k, (jsize v + String.length k <= String.length (Json.emit v k))%nat) l ->
  Json.all_items wf_json l -> l <> [] ->
  forall k, (need_items l + String.length k
             <= S (String.length (Json.emit_items Json.emit l k)))%nat.
Proof.
  induction 1 as [|v l Hv _ IHl]; [congruence|].
  intros [Hwf Hl] _ k. destruct l as [|v2 l].
  - simpl. specialize (Hv Hwf k). lia.
  - rewrite emit_items_cons2. simpl need_items.
    specialize (Hv Hwf (String "," (Json.emit_items Json.emit (v2 :: l) k))).
    specialize (IHl Hl ltac:(congruence) k). simpl in *. lia.
Qed.

Lemma length_emit_members (kvs : list (string * json)) :
  Forall (fun kv => wf_json (snd kv) ->
            forall k, (jsize (snd kv) + String.length k
                       <= String.length (Json.emit (snd kv) k))%nat) kvs ->
  Json.all_members wf_json kvs -> kvs <> [] ->
  forall k, (need_members kvs + String.length k
             <= S (String.length (Json.emit_members Json.emit kvs k)))%nat.
Proof.
  induction 1 as [|[key v] kvs Hv _ IHk]; [congruence|].
  intros (_ & Hwf & Hr) _ k. destruct kvs as [|kv2 kvs].
  - simpl. specialize (Hv Hwf k). simpl in Hv.
    pose proof (length_emit_chars key (String Json.dquote (String ":" (Json.emit v k)))).
    simpl in *. lia.
  - rewrite emit_members_cons2. simpl need_members.
    specialize (Hv Hwf (String "," (Json.emit_members Json.emit (kv2 :: kvs) k))).
    specialize (IHk Hr ltac:(congruence) k). unfold Json.emit_string.
    pose proof (length_emit_chars key (String Json.dquote (String ":"
      (Json.emit v (String "," (Json.emit_members Json.emit (kv2 :: kvs) k)))))).
    simpl in *. lia.
Qed.

Lemma length_emit (v : json) :
  wf_json v ->
  forall k, (jsize v + String.length k <= String.length (Json.emit v k))%nat.
Proof.
  induction v as [| b | z | lit | s | l IHl | kvs IHk] using json_ind'; intros Hwf k.
  - simpl. rewrite length_app_s. simpl. lia.
  - destruct b; simpl; rewrite length_app_s; simpl; lia.
  - simpl. rewrite length_app_s. pose proof (length_str_of_int z). lia.
  - destruct Hwf.
  - simpl. pose proof (length_emit_chars s (String Json.dquote k)). simpl in *. lia.
  - destruct l as [|v l]; [simpl; lia|].
    pose proof (length_emit_items (v :: l) IHl Hwf ltac:(congruence) (String "]" k)) as H.
    change (jsize (JArr (v :: l))) with (S (need_items (v :: l))).
    change (Json.emit (JArr (v :: l)) k)
      with (String "[" (Json.emit_items Json.emit (v :: l) (String "]" k))).
    simpl String.length in *. lia.
  - destruct Hwf as [_ Hwf]. destruct kvs as [|kv kvs]; [simpl; lia|].
    pose proof (length_emit_members (kv :: kvs) IHk Hwf ltac:(congruence) (String "}" k)) as H.
    change (jsize (JObj (kv :: kvs))) with (S (need_members (kv :: kvs))).
    change (Json.emit (JObj (kv :: kvs)) k)
      with (String "{" (Json.emit_members Json.emit (kv :: kvs) (String "}" k))).
    simpl String.length in *. lia.
Qed.

(** [json.loads(json.dumps(v))] is [v]. *)
Lemma loads_dumps (v : json) : wf_json v -> Json.loads (Json.dumps v) = Ok v.
Proof.
  intros Hwf. unfold Json.loads, Json.dumps.
  rewrite skip_ws_emit by assumption.
  rewrite (parse_emit (jsize v)); try reflexivity; try assumption; try lia.
  pose proof (length_emit v Hwf EmptyString). simpl in *. lia.
Qed.

(** ** The printed text is well-formed UTF-8 *)

Lemma valid_run (s : string) : Utf8.valid s = true <-> Utf8.run Utf8.S0 s = Some Utf8.S0.
Proof.
  unfold Utf8.valid. destruct (Utf8.run Utf8.S0 s) as [[]|]; split; congruence.
Qed.

Lemma run_emit_string (s k : string) :
  Utf8.valid s = true ->
  Utf8.run Utf8.S0 (Json.emit_string s k) = Utf8.run Utf8.S0 k.
Proof.
  intros H. apply valid_run in H. unfold Json.emit_string.
  change (Utf8.run Utf8.S0 (String Json.dquote ?x)) with (Utf8.run Utf8.S0 x).
  rewrite run_emit_chars, H. reflexivity.
Qed.

Lemma run_emit_items (l : list json) :
  Forall (fun v => wf_json v ->
            forall k, Utf8.run Utf8.S0 (Json.emit v k) = Utf8.run Utf8.S0 k) l ->
  Json.all_items wf_json l ->
  forall k, Utf8.run Utf8.S0 (Json.emit_items Json.emit l k) = Utf8.run Utf8.S0 k.
Proof.
  induction 1 as [|v l Hv _ IHl]; [reflexivity|].
  intros [Hwf Hl] k. destruct l as [|v2 l].
  - simpl. now apply Hv.
  - rewrite emit_items_cons2, Hv by assumption.
    change (Utf8.run Utf8.S0 (String "," ?x)) with (Utf8.run Utf8.S0 x).
    now apply IHl.
Qed.

Lemma run_emit_members (kvs : list (string * json)) :
  Forall (fun kv => wf_json (snd kv) ->
            forall k, Utf8.run Utf8.S0 (Json.emit (snd kv) k) = Utf8.run Utf8.S0 k) kvs ->
  Json.all_members wf_json kvs ->
  forall k, Utf8.run Utf8.S0 (Json.emit_members Json.emit kvs k) = Utf8.run Utf8.S0 k.
Proof.
  induction 1 as [|[key v] kvs Hv _ IHk]; [reflexivity|].
  intros (Hkey & Hwf & Hr) k. destruct kvs as [|kv2 kvs].
  - change (Json.emit_members Json.emit [(key, v)] k)
      with (Json.emit_string key (String ":" (Json.emit v k))).
    rewrite run_emit_string by assumption.
    change (Utf8.run Utf8.S0 (String ":" ?x)) with (Utf8.run Utf8.S0 x).
    now apply Hv.
  - rewrite emit_members_cons2, run_emit_string by assumption.
    change (Utf8.run Utf8.S0 (String ":" ?x)) with (Utf8.run Utf8.S0 x).
    rewrite Hv by assumption.
    change (Utf8.run Utf8.S0 (String "," ?x)) with (Utf8.run Utf8.S0 x).
    now apply IHk.
Qed.

Lemma run_emit (v : json) :
  wf_json v -> forall k, Utf8.run Utf8.S0 (Json.emit v k) = Utf8.run Utf8.S0 k.
Proof.
  induction v as [| b | z | lit | s | l IHl | kvs IHk] using json_ind'; intros Hwf k.
  - simpl. now apply run_ascii.
  - destruct b; simpl; now apply run_ascii.
  - simpl. apply run_ascii, str_of_int_is_ascii.
  - destruct Hwf.
  - simpl. now apply run_emit_string.
  - simpl.
    change (Utf8.run Utf8.S0 (String "[" ?x)) with (Utf8.run Utf8.S0 x).
    now rewrite run_emit_items.
  - destruct Hwf as [_ Hwf]. simpl.
    change (Utf8.run Utf8.S0 (String "{" ?x)) with (Utf8.run Utf8.S0 x).
    now rewrite run_emit_members.
Qed.

Lemma valid_dumps (v : json) : wf_json v -> Utf8.valid (Json.dumps v) = true.
Proof.
  intros H. apply valid_run. unfold Json.dumps. now rewrite run_emit.
Qed.

(** The bytes of a value, decoded and parsed, give the value back. *)
Lemma decode_loads_dumps (v : json) :
  wf_json v ->
  Utf8.encode (Json.dumps v) = Ok (Json.dumps v)
  /\ rbind (Utf8.decode (Json.dumps v)) Json.loads = Ok v.
Proof.
  intros H. unfold Utf8.encode, Utf8.decode. rewrite (valid_dumps v H).
  split; [reflexivity | simpl; now apply loads_dumps].
Qed.

(** ** Dictionaries, the header builder, the classifier *)

(** ** Dictionaries, continued *)

Lemma dict_has_in {A} (k : string) (d : list (string * A)) :
  Dict.has k d = true <-> In k (Dict.keys d).
Proof.
  unfold Dict.has. induction d as [|[k' v] d IHd]; simpl.
  - split; [discriminate | tauto].
  - destruct (String.eqb_spec k' k) as [->|Hne].
    + split; auto.
    + rewrite IHd. split; [tauto | intros [?|?]; [congruence | assumption]].
Qed.

Lemma dict_has_not_in {A} (k : string) (d : list (string * A)) :
  Dict.has k d = false <-> ~ In k (Dict.keys d).
Proof.
  rewrite <- dict_has_in. destruct (Dict.has k d); split; congruence.
Qed.

Lemma dict_pop_absent {A} (k : string) (d : list (string * A)) :
  ~ In k (Dict.keys d) -> Dict.pop k d = d.
Proof.
  induction d as [|[k' v] d IHd]; simpl; intros H; [reflexivity|].
  destruct (String.eqb_spec k' k) as [->|Hne]; [tauto|].
  f_equal. apply IHd. tauto.
Qed.

Lemma dict_pop_keys {A} (k x : string) (d : list (string * A)) :
  In x (Dict.keys (Dict.pop k d)) -> In x (Dict.keys d).
Proof.
  induction d as [|[k' v] d IHd]; simpl; [tauto|].
  destruct (String.eqb k' k); simpl; tauto.
Qed.

Lemma dict_pop_in {A} (k : string) (kv : string * A) (d : list (string * A)) :
  In kv (Dict.pop k d) -> In kv d.
Proof.
  induction d as [|[k' v] d IHd]; simpl; [tauto|].
  destruct (String.eqb k' k); simpl; tauto.
Qed.

Lemma dict_pop_nodup {A} (k : string) (d : list (string * A)) :
  NoDup (Dict.keys d) -> NoDup (Dict.keys (Dict.pop k d)) /\ ~ In k (Dict.keys (Dict.pop k d)).
Proof.
  induction d as [|[k' v] d IHd]; simpl; intros H.
  - split; [constructor | tauto].
  - apply NoDup_cons in H as [Hk' Hd]. rewrite list_elem_of_In in Hk'.
    destruct (String.eqb_spec k' k) as [->|Hne].
    + split; assumption.
    + destruct (IHd Hd) as [H1 H2]. simpl. split.
      * apply NoDup_cons. split; [|assumption].
        rewrite list_elem_of_In. intros Hin. apply Hk'. eapply dict_pop_keys, Hin.
      * intros [?|?]; [congruence | tauto].
Qed.

Lemma dict_set_keys {A} (k x : string) (v : A) (d : list (string * A)) :
  In x (Dict.keys (Dict.set k v d)) <-> x = k \/ In x (Dict.keys d).
Proof.
  induction d as [|[k' v'] d IHd]; simpl.
  - split; intros [?|?]; auto; tauto.
  - destruct (String.eqb_spec k' k) as [->|Hne]; simpl.
    + split; [tauto | intros [->|[?|?]]; auto].
    + rewrite IHd. split; [tauto | intros [->|[?|?]]; auto].
Qed.

Lemma dict_set_nodup {A} (k : string) (v : A) (d : list (string * A)) :
  NoDup (Dict.keys d) -> NoDup (Dict.keys (Dict.set k v d)).
Proof.
  induction d as [|[k' v'] d IHd]; simpl; intros H.
  - apply NoDup_cons. split; [apply not_elem_of_nil | constructor].
  - apply NoDup_cons in H as [Hk' Hd].
    destruct (String.eqb_spec k' k) as [->|Hne]; simpl.
    + apply NoDup_cons. split; assumption.
    + apply NoDup_cons. split; [|auto].
      rewrite list_elem_of_In in *. rewrite dict_set_keys. intros [?|?]; [congruence | tauto].
Qed.

Lemma set_all_keys (kvs acc : list (string * json)) (x : string) :
  In x (Dict.keys (set_all kvs acc)) -> In x (Dict.keys acc) \/ In x (Dict.keys kvs).
Proof.
  revert acc; induction kvs as [|[k v] kvs IHk]; intros acc H; simpl in *; [tauto|].
  apply IHk in H as [H|H]; [|tauto].
  apply dict_set_keys in H as [->|H]; simpl; tauto.
Qed.

Lemma set_all_nodup_keys (kvs acc : list (string * json)) :
  NoDup (Dict.keys acc) -> NoDup (Dict.keys (set_all kvs acc)).
Proof.
  revert acc; induction kvs as [|[k v] kvs IHk]; intros acc H; simpl; [assumption|].
  apply IHk. now apply dict_set_nodup.
Qed.

Lemma dict_set_members (P : json -> Prop) (k : string) (v : json) (d : list (string * json)) :
  Utf8.valid k = true -> P v -> Json.all_members P d -> Json.all_members P (Dict.set k v d).
Proof.
  intros Hk Hv. induction d as [|[k' v'] d IHd]; simpl.
  - tauto.
  - intros (H1 & H2 & H3). destruct (String.eqb k' k); simpl; tauto.
Qed.

Lemma set_all_members (P : json -> Prop) (kvs acc : list (string * json)) :
  Json.all_members P kvs -> Json.all_members P acc -> Json.all_members P (set_all kvs acc).
Proof.
  revert acc; induction kvs as [|[k v] kvs IHk]; intros acc H Ha; simpl; [assumption|].
  destruct H as (H1 & H2 & H3). apply IHk; [assumption|]. now apply dict_set_members.
Qed.

Lemma all_members_in (P : json -> Prop) (kvs : list (string * json)) :
  Json.all_members P kvs <-> forall kv, In kv kvs -> Utf8.valid (fst kv) = true /\ P (snd kv).
Proof.
  induction kvs as [|[k v] kvs IHk]; simpl.
  - split; [tauto | trivial].
  - rewrite IHk. split.
    + intros (H1 & H2 & H3) kv [<-|Hin]; simpl; auto.
    + intros H. split; [|split].
      * apply (H (k, v)). now left.
      * apply (H (k, v)). now left.
      * intros kv Hin. apply H. now right.
Qed.

(** ** The header builder *)

Lemma detect_fixes_val (h : list (string * json)) :
  detect_fixes h
  = (if Dict.has METADATA_KEY h then 1 else 0)
    + (if existsb (fun k => startswith k HDR_PREFIX) (Dict.keys h) then 2 else 0).
Proof.
  unfold detect_fixes.
  destruct (Dict.has METADATA_KEY h), (existsb _ (Dict.keys h)); reflexivity.
Qed.

Lemma existsb_false {A} (f : A -> bool) (l : list A) :
  existsb f l = false <-> forall x, In x l -> f x = false.
Proof.
  induction l as [|a l IHl]; simpl.
  - split; [tauto | reflexivity].
  - rewrite orb_false_iff, IHl. split.
    + intros [H1 H2] x [<-|Hin]; auto.
    + intros H. split; [apply H; now left | intros x Hin; apply H; now right].
Qed.

Lemma detect_fixes_zero (h : list (string * json)) :
  detect_fixes h = 0
  <-> ~ In METADATA_KEY (Dict.keys h)
      /\ forall k, In k (Dict.keys h) -> startswith k HDR_PREFIX = false.
Proof.
  rewrite detect_fixes_val, <- dict_has_not_in, <- existsb_false.
  destruct (Dict.has METADATA_KEY h), (existsb _ (Dict.keys h));
    split; try (intros [? ?]); try intro; try discriminate; auto.
Qed.

Lemma strip_prefix_id (k : string) : startswith k HDR_PREFIX = false -> strip_prefix k = k.
Proof. unfold strip_prefix. now intros ->. Qed.

Lemma fold_set_ext (f g : string -> string) (l acc : list (string * json)) :
  (forall kv, In kv l -> f (fst kv) = g (fst kv)) ->
  fold_left (fun a kv => Dict.set (f (fst kv)) (snd kv) a) l acc
  = fold_left (fun a kv => Dict.set (g (fst kv)) (snd kv) a) l acc.
Proof.
  revert acc; induction l as [|kv l IHl]; intros acc H; simpl; [reflexivity|].
  rewrite (H kv) by now left. apply IHl. intros kv' Hin. apply H. now right.
Qed.

Lemma fold_set_map (f : string -> string) (l acc : list (string * json)) :
  fold_left (fun a kv => Dict.set (f (fst kv)) (snd kv) a) l acc
  = set_all (map (fun kv => (f (fst kv), snd kv)) l) acc.
Proof.
  revert acc; induction l as [|kv l IHl]; intros acc; simpl; [reflexivity|]. apply IHl.
Qed.

(** With the flags that detection gives, the builder drops the metadata
    entry and strips every key. *)
Lemma fixed_header_detect (h : list (string * json)) :
  fixed_header h (detect_fixes h) = set_all (renamed h) [].
Proof.
  unfold fixed_header, renamed. rewrite <- fold_set_map.
  assert (Hpop : (if negb (Z.land (detect_fixes h) FIX_METADATA =? 0)
                  then Dict.pop METADATA_KEY h else h) = Dict.pop METADATA_KEY h).
  { rewrite detect_fixes_val.
    destruct (Dict.has METADATA_KEY h) eqn:E,
             (existsb (fun k => startswith k HDR_PREFIX) (Dict.keys h));
      try reflexivity;
      simpl; symmetry; apply dict_pop_absent; now apply dict_has_not_in. }
  rewrite Hpop. apply fold_set_ext. intros [k v] Hin. simpl.
  unfold fixed_key, strip_prefix. rewrite detect_fixes_val.
  destruct (existsb (fun k => startswith k HDR_PREFIX) (Dict.keys h)) eqn:E.
  - destruct (Dict.has METADATA_KEY h); reflexivity.
  - assert (Hk : startswith k HDR_PREFIX = false).
    { destruct (startswith k HDR_PREFIX) eqn:Ek; [|reflexivity].
      assert (existsb (fun k => startswith k HDR_PREFIX) (Dict.keys h) = true); [|congruence].
      apply existsb_exists. exists k. split; [|assumption].
      apply dict_pop_in in Hin. apply (in_map fst) in Hin. exact Hin. }
    rewrite Hk. destruct (Dict.has METADATA_KEY h); reflexivity.
Qed.

Lemma map_pair_id (h : list (string * json)) :
  map (fun kv : string * json => (fst kv, snd kv)) h = h.
Proof. induction h as [|[k v] h IHh]; simpl; [reflexivity | now rewrite IHh]. Qed.

Lemma fixed_header_zero (h : list (string * json)) :
  NoDup (Dict.keys h) -> fixed_header h 0 = h.
Proof.
  intros H. unfold fixed_header.
  change (if negb (Z.land 0 FIX_METADATA =? 0) then Dict.pop METADATA_KEY h else h) with h.
  rewrite (fold_set_ext (fixed_key 0) (fun k => k) h []) by reflexivity.
  rewrite (fold_set_map (fun k => k)), map_pair_id.
  now rewrite set_all_nodup.
Qed.

Lemma valid_strip_prefix (k : string) : Utf8.valid k = true -> Utf8.valid (strip_prefix k) = true.
Proof.
  unfold strip_prefix, startswith. intros H.
  destruct (String.prefix HDR_PREFIX k) eqn:E; [|assumption].
  apply prefix_split in E. rewrite E in H.
  apply valid_run in H. rewrite run_ascii in H by reflexivity. now apply valid_run.
Qed.

Lemma renamed_members (h : list (string * json)) :
  Json.all_members wf_json h -> Json.all_members wf_json (renamed h).
Proof.
  rewrite !all_members_in. intros H kv Hin. unfold renamed in Hin.
  apply in_map_iff in Hin as ([k v] & <- & Hin). simpl.
  apply dict_pop_in in Hin. destruct (H _ Hin) as [H1 H2]. simpl in *.
  split; [now apply valid_strip_prefix | assumption].
Qed.

Lemma wf_fixed_header (h : list (string * json)) :
  wf_json (JObj h) -> wf_json (JObj (fixed_header h (detect_fixes h))).
Proof.
  intros [Hnd Hall]. rewrite fixed_header_detect. split.
  - apply set_all_nodup_keys. constructor.
  - apply set_all_members; [now apply renamed_members | exact I].
Qed.

Lemma renamed_keys (h : list (string * json)) (x : string) :
  NoDup (Dict.keys h) ->
  In x (Dict.keys (renamed h)) ->
  exists k, In k (Dict.keys h) /\ k <> METADATA_KEY /\ x = strip_prefix k.
Proof.
  intros Hnd Hin. unfold renamed, Dict.keys in Hin. rewrite map_map in Hin.
  apply in_map_iff in Hin as ([k v] & <- & Hin). simpl.
  exists k. split; [|split; [|reflexivity]].
  - apply dict_pop_in in Hin. now apply (in_map fst) in Hin.
  - intros ->. destruct (dict_pop_nodup METADATA_KEY h Hnd) as [_ Hno].
    apply Hno. now apply (in_map fst) in Hin.
Qed.

(** ** Deciding well-formedness *)

Lemma distinct_nodup (l : list string) : distinct l = true -> NoDup l.
Proof.
  induction l as [|k l IHl]; simpl; intros H; [constructor|].
  apply andb_true_iff in H as [H1 H2]. apply NoDup_cons. split; [|auto].
  rewrite list_elem_of_In. intros Hin.
  assert (existsb (String.eqb k) l = true); [|now rewrite H in H1].
  apply existsb_exists. exists k. split; [assumption | apply String.eqb_refl].
Qed.

Lemma wf_jsonb_sound (v : json) : wf_jsonb v = true -> wf_json v.
Proof.
  induction v as [| b | z | lit | s | l IHl | kvs IHk] using json_ind'; simpl; intros H;
    try exact I; try discriminate; try assumption.
  - induction IHl as [|v l Hv _ IH]; simpl in *; [exact I|].
    apply andb_true_iff in H as [H1 H2]. split; auto.
  - apply andb_true_iff in H as [Hd H]. split; [now apply distinct_nodup|].
    clear Hd. induction IHk as [|[k v] kvs Hv _ IH]; simpl in *; [exact I|].
    apply andb_true_iff in H as [H1 H2]. apply andb_true_iff in H1 as [H1 H3].
    repeat split; auto.
Qed.

(** ** The header builder and the decoder *)

(** C5, amended: for a header mapping without the reserved [__metadata__]
    key whose strings are Unicode text that UTF-8 encodes and which holds
    no float, the bytes that [build_fixed_header] gives with flags 0
    decode and parse back to the same mapping: the same keys in the same
    order with the same values. *)
Theorem header_round_trip (m : list (string * json)) :
  wf_json (JObj m) -> Dict.has METADATA_KEY m = false ->
  exists b, build_fixed_header m 0 = Ok b
            /\ rbind (Utf8.decode b) Json.loads = Ok (JObj m).
Proof.
  intros Hwf _. unfold build_fixed_header.
  rewrite (fixed_header_zero m) by apply Hwf.
  destruct (decode_loads_dumps (JObj m) Hwf) as [He Hd].
  exists (Json.dumps (JObj m)). split; assumption.
Qed.

(** C5 at the clean sample header. *)
Lemma header_round_trip_witness :
  exists b, build_fixed_header header_clean 0 = Ok b
            /\ rbind (Utf8.decode b) Json.loads = Ok (JObj header_clean).
Proof.
  apply (header_round_trip header_clean).
  - apply wf_jsonb_sound. reflexivity.
  - reflexivity.
Defined.

(** C8, amended: when no key keeps the prefix after losing it once, and
    no key is the prefix followed by [__metadata__], the bytes built for a
    header that needs a fix decode to a header on which detection finds
    nothing. *)
Theorem detect_after_fix_is_zero (h : list (string * json)) :
  wf_json (JObj h) -> detect_fixes h <> 0 ->
  (forall k, In k (Dict.keys h) -> k <> METADATA_KEY ->
             strip_prefix k <> METADATA_KEY
             /\ startswith (strip_prefix k) HDR_PREFIX = false) ->
  exists b h', build_fixed_header h (detect_fixes h) = Ok b
               /\ rbind (Utf8.decode b) Json.loads = Ok (JObj h')
               /\ detect_fixes h' = 0.
Proof.
  intros Hwf _ Hkeys.
  pose proof (wf_fixed_header h Hwf) as Hwf'.
  destruct (decode_loads_dumps _ Hwf') as [He Hd].
  exists (Json.dumps (JObj (fixed_header h (detect_fixes h)))),
         (fixed_header h (detect_fixes h)).
  split; [exact He|]. split; [exact Hd|].
  apply detect_fixes_zero. rewrite fixed_header_detect.
  destruct Hwf as [Hnd _].
  split.
  - intros Hin. apply set_all_keys in Hin as [[]|Hin].
    apply (renamed_keys h _ Hnd) in Hin as (k & Hk & Hne & E).
    destruct (Hkeys k Hk Hne) as [H1 _]. congruence.
  - intros x Hin. apply set_all_keys in Hin as [[]|Hin].
    apply (renamed_keys h _ Hnd) in Hin as (k & Hk & Hne & ->).
    now destruct (Hkeys k Hk Hne).
Qed.

(** ** C1: the classifier on large block indices *)

Lemma classifier_large_index (header : list (string * json)) :
  no_family_hint header ->
  19 <= fst (scan_blocks (tensor_keys header)) ->
  exists v, detect_version_from_keys header = Ok (Some v) /\ flux2_variant v.
Proof.
  intros Hhint Hmax. unfold detect_version_from_keys, no_family_hint in *.
  set (keys := tensor_keys header) in *.
  set (key_str := join " " keys).
  assert (H0 : forall md,
             match Dict.get METADATA_KEY header with Some m => m | None => JObj [] end = md ->
             exists kvs, md = JObj kvs
               /\ rbind (py_get md "modelspec.architecture" (JStr ""))
                    (fun arch =>
                       if truthy arch then
                         rbind (py_lower arch)
                           (fun arch_lower =>
                              if isin "flux" arch_lower then Ok None
                              else if isin "sdxl" arch_lower then Ok (Some "sdxl_base_v0.9")
                              else if isin "z_image" arch_lower || isin "zimagetturbo" arch_lower
                                   then Ok (Some "z_image")
                              else if isin "qwen" arch_lower then Ok (Some "qwen_image")
                              else Ok None)
                       else Ok None) = Ok None
               /\ rbind (py_get md "modelspec.architecture" (JStr ""))
                    (fun a => rbind (py_lower a) (fun al => Ok (isin "flux" al))) = Ok false).
  { intros md <-.
    destruct (Dict.get METADATA_KEY header) as [[| | | | | |md]|]; try contradiction.
    - exists md. split; [reflexivity|]. simpl py_get.
      destruct (Dict.get "modelspec.architecture" md) as [[| | | |a| |]|]; try contradiction.
      + destruct Hhint as (F1 & F2 & F3 & F4 & F5). simpl.
        rewrite F1, F2, F3, F4, F5. simpl. destruct (negb (a =? "")%string); auto.
      + simpl. auto.
    - exists []. simpl. auto. }
  destruct (H0 _ eq_refl) as (kvs & Emd & Harch & Hflux). clear H0.
  set (metadata := match Dict.get METADATA_KEY header with Some m => m | None => JObj [] end) in *.
  clearbody metadata. subst metadata. rewrite Harch. simpl rbind at 1.
  repeat match goal with
         | |- context [if ?b then Ok (Some "flux2") else _] =>
             destruct b; [eexists; split; [reflexivity | unfold flux2_variant; auto]|]
         | |- context [if ?b then Ok (Some "flux2_9b") else _] =>
             destruct b; [eexists; split; [reflexivity | unfold flux2_variant; auto]|]
         | |- context [if ?b then Ok (Some "flux2_4b") else _] =>
             destruct b; [eexists; split; [reflexivity | unfold flux2_variant; auto]|]
         end.
  destruct (scan_blocks keys) as [m d]. simpl in Hmax.
  assert (E0 : (m >=? 0) = true) by lia. assert (E19 : (m >=? 19) = true) by lia.
  cbv beta iota zeta. rewrite E0.
  change (true || d) with true. cbv beta iota.
  cbv beta iota zeta delta [rbind py_get] in Hflux |- *.
  destruct d; [|rewrite Hflux]; cbv beta iota; cbn [orb]; rewrite ?E19;
    destruct (m >=? 38), (m >=? 24), (m >=? 20);
    (eexists; split; [reflexivity | unfold flux2_variant; auto]).
Qed.

(** C1 at its own input: block 59, nothing else. *)
Theorem classifier_block_59_is_flux2 :
  fst (scan_blocks (tensor_keys header_block_59)) = 59
  /\ snd (scan_blocks (tensor_keys header_block_59)) = false
  /\ Dict.get METADATA_KEY header_block_59 = None
  /\ detect_version_from_keys header_block_59 = Ok (Some "flux2").
Proof. repeat split; reflexivity. Qed.

(** ** Files, tags and the runs of the fixer *)

(** ** The length prefix *)

Lemma code_chr (z : Z) : 0 <= z < 256 -> code (chr z) = z.
Proof.
  intros H. unfold code, chr. rewrite N_ascii_embedding by lia. lia.
Qed.

Lemma code_range (c : ascii) : 0 <= code c < 256.
Proof.
  unfold code. pose proof (N_ascii_bounded c). lia.
Qed.

Lemma length_le_bytes (k : nat) (v : Z) : String.length (le_bytes k v) = k.
Proof. revert v; induction k as [|k IHk]; intros v; simpl; [reflexivity | now rewrite IHk]. Qed.

Lemma le_value_le_bytes (k : nat) (v : Z) :
  le_value (le_bytes k v) = v mod 256 ^ Z.of_nat k.
Proof.
  revert v; induction k as [|k IHk]; intros v.
  - simpl. now rewrite Z.mod_1_r.
  - simpl le_bytes. simpl le_value. rewrite IHk, code_chr by (apply Z.mod_pos_bound; lia).
    rewrite Nat2Z.inj_succ, Z.pow_succ_r by lia.
    rewrite Z.rem_mul_r by lia. reflexivity.
Qed.

Lemma unpack_pack (v : Z) (rest : string) :
  0 <= v < 18446744073709551616 ->
  unpack_Q (take_z 8 (le_bytes 8 v +:+ rest)) = Ok v.
Proof.
  intros H.
  assert (E : take_z 8 (le_bytes 8 v +:+ rest) = le_bytes 8 v).
  { rewrite <- (take_z_app (le_bytes 8 v) rest) at 2.
    unfold len. now rewrite length_le_bytes. }
  rewrite E. unfold unpack_Q. rewrite length_le_bytes. simpl Nat.eqb. cbv iota.
  rewrite le_value_le_bytes. f_equal. apply Z.mod_small. simpl Z.of_nat. lia.
Qed.

Lemma drop_prefix (v : Z) (rest : string) : drop_z 8 (le_bytes 8 v +:+ rest) = rest.
Proof.
  rewrite <- (drop_z_app (le_bytes 8 v) rest) at 2.
  unfold len. now rewrite length_le_bytes.
Qed.

(** Reading a well-formed file gives its three parts back. *)
Lemma file_parts (hb payload : string) :
  len hb < 18446744073709551616 ->
  unpack_Q (take_z 8 (safetensors_file hb payload)) = Ok (len hb)
  /\ take_z (len hb) (drop_z 8 (safetensors_file hb payload)) = hb
  /\ drop_z (len hb) (drop_z 8 (safetensors_file hb payload)) = payload.
Proof.
  intros H. unfold safetensors_file. pose proof (len_nonneg hb).
  rewrite unpack_pack, drop_prefix by lia.
  rewrite take_z_app, drop_z_app. auto.
Qed.

(** ** Events *)

Lemma events_since_app (w w' : world) (l : list event) :
  trace w' = (l ++ trace w)%list -> events_since w w' = List.rev l.
Proof.
  intros E. unfold events_since. rewrite E, length_app.
  replace (length l + length (trace w) - length (trace w))%nat with (length l) by lia.
  now rewrite firstn_app, Nat.sub_diag, firstn_all, app_nil_r.
Qed.

(** ** Running the actions *)

Arguments Sha256.hexdigest : simpl never.
Arguments Json.loads : simpl never.
Arguments Json.dumps : simpl never.
Arguments Utf8.valid : simpl never.
Arguments Utf8.decode_replace : simpl never.
Arguments take_z : simpl never.
Arguments drop_z : simpl never.
Arguments le_bytes : simpl never.
Arguments int_of_text : simpl never.
Arguments str_of_int : simpl never.
Arguments upper : simpl never.
Arguments detect_fixes : simpl never.
Arguments build_fixed_header : simpl never.
Arguments unpack_Q : simpl never.
Arguments pack_Q : simpl never.
Arguments len : simpl never.

Lemma bind_ok {A B} (m : M A) (f : A -> M B) (w w' : world) (a : A) :
  m w = (Ok a, w') -> bind m f w = f a w'.
Proof. unfold bind. now intros ->. Qed.

Lemma bind_raise {A B} (m : M A) (f : A -> M B) (w w' : world) (e : exn) :
  m w = (Raise e, w') -> bind m f w = (Raise e, w').
Proof. unfold bind. now intros ->. Qed.

Lemma run_get_fix_xattr (w : world) :
  get_fix_xattr w
  = (Ok (match xattrs w !! XATTR_FIX with
         | None => None
         | Some r => int_of_text r
         end), add_event (EvGetxattr XATTR_FIX) w).
Proof. reflexivity. Qed.

Lemma run_get_sha256_xattr (w : world) :
  get_sha256_xattr w
  = (Ok (option_map Utf8.decode_replace (xattrs w !! XATTR_SHA256)),
     add_event (EvGetxattr XATTR_SHA256) w).
Proof. reflexivity. Qed.

Lemma run_get_civitai_xattr (field : string) (w : world) :
  get_civitai_xattr field w
  = (Ok (option_map Utf8.decode_replace (xattrs w !! (CIVITAI_PFX +:+ field))),
     add_event (EvGetxattr (CIVITAI_PFX +:+ field)) w).
Proof. reflexivity. Qed.

Lemma run_xattr_set (name value : string) (w : world) :
  _xattr_set name value w
  = if xattr_writable w
    then (Ok tt, set_xattrs (<[name := value]> (xattrs w)) (add_event (EvSetxattr name value) w))
    else (Raise OSError, add_event (EvSetxattr name value) w).
Proof. unfold _xattr_set, bind, log. simpl. destruct (xattr_writable w); reflexivity. Qed.

Lemma run_mark_fix (flags : Z) (w : world) :
  mark_fix flags w = _xattr_set XATTR_FIX (str_of_int flags) w.
Proof. reflexivity. Qed.

Lemma run_mark_sha256 (d : string) (w : world) :
  Utf8.valid d = true -> mark_sha256 d w = _xattr_set XATTR_SHA256 d w.
Proof. intros H. unfold mark_sha256, Utf8.encode, lift, bind. now rewrite H. Qed.

(** C7, first half: a set tag ends the call at once. *)
Lemma fix_header_cached (sha : string) (w : world) (n : Z) :
  result_of get_fix_xattr w = Ok (Some n) ->
  fix_header_inplace sha w = (Ok tt, add_event (EvGetxattr XATTR_FIX) w).
Proof.
  unfold result_of. rewrite run_get_fix_xattr. simpl. intros H.
  unfold fix_header_inplace. erewrite bind_ok by apply run_get_fix_xattr.
  injection H as ->. reflexivity.
Qed.

(** What the fixer does to a file it has not yet checked, whose header
    decodes to the dictionary [h]. *)
Lemma fix_header_run (sha : string) (w : world) (hb payload : string)
  (h : list (string * json)) :
  unchecked w ->
  file_data w = safetensors_file hb payload ->
  len hb < 18446744073709551616 ->
  rbind (Utf8.decode hb) Json.loads = Ok (JObj h) ->
  fix_header_inplace sha w
  = let w1 := add_event EvOpen (add_event (EvGetxattr XATTR_FIX) w) in
    if detect_fixes h =? 0 then mark_fix 0 w1
    else
      match build_fixed_header h (detect_fixes h) with
      | Raise e => (Raise e, w1)
      | Ok fb =>
          match pack_Q (len fb) with
          | Raise e => (Raise e, w1)
          | Ok p =>
              (write_tmp (p +:+ fb +:+ payload) ;;;
               replace_with_tmp ;;;
               mark_sha256 sha ;;;
               mark_fix (detect_fixes h)) w1
          end
      end.
Proof.
  intros Hun Hfile Hlen Hdec. unfold unchecked in Hun.
  unfold fix_header_inplace. erewrite bind_ok by apply run_get_fix_xattr.
  rewrite Hun. cbv zeta.
  erewrite bind_ok by reflexivity.
  erewrite bind_ok by reflexivity.
  change (file_data (add_event EvOpen (add_event (EvGetxattr XATTR_FIX) w)))
    with (file_data w).
  rewrite Hfile.
  destruct (file_parts hb payload Hlen) as (E1 & E2 & E3).
  unfold lift at 1. erewrite bind_ok by (rewrite E1; reflexivity).
  rewrite E2, E3.
  destruct (Utf8.decode hb) as [text|e] eqn:Etext; [|discriminate Hdec].
  simpl in Hdec.
  unfold lift at 1. erewrite bind_ok by reflexivity.
  unfold lift at 1. erewrite bind_ok by (rewrite Hdec; reflexivity).
  unfold lift at 1. erewrite bind_ok by reflexivity.
  destruct (detect_fixes h =? 0); [reflexivity|].
  change (build_fixed_header_any (JObj h) (detect_fixes h))
    with (build_fixed_header h (detect_fixes h)).
  destruct (build_fixed_header h (detect_fixes h)) as [fb|e].
  - unfold lift at 1. erewrite bind_ok by reflexivity.
    destruct (pack_Q (len fb)) as [p|e].
    + unfold lift at 1. erewrite bind_ok by reflexivity. reflexivity.
    + unfold lift at 1. erewrite bind_raise by reflexivity. reflexivity.
  - unfold lift at 1. erewrite bind_raise by reflexivity. reflexivity.
Qed.

Lemma fix_header_completed (sha : string) (w w' : world) (hb payload : string)
  (h : list (string * json)) :
  unchecked w ->
  file_data w = safetensors_file hb payload ->
  len hb < 18446744073709551616 ->
  rbind (Utf8.decode hb) Json.loads = Ok (JObj h) ->
  detect_fixes h <> 0 ->
  fix_header_inplace sha w = (Ok tt, w') ->
  exists fb, build_fixed_header h (detect_fixes h) = Ok fb
             /\ len fb < 18446744073709551616
             /\ Utf8.valid sha = true
             /\ w' = rewritten w sha fb payload (detect_fixes h).
Proof.
  intros Hun Hfile Hlen Hdec Hflags.
  rewrite (fix_header_run sha w hb payload h Hun Hfile Hlen Hdec). cbv zeta.
  destruct (Z.eqb_spec (detect_fixes h) 0) as [|_]; [contradiction|].
  destruct (build_fixed_header h (detect_fixes h)) as [fb|e]; [|discriminate].
  unfold pack_Q.
  destruct ((0 <=? len fb) && (len fb <? 18446744073709551616)) eqn:Ep; [|discriminate].
  apply andb_true_iff in Ep as [_ Ep]. apply Z.ltb_lt in Ep.
  unfold write_tmp, replace_with_tmp, mark_sha256, mark_fix, _xattr_set, bind, log, lift,
    Utf8.encode.
  simpl. destruct (Utf8.valid sha); [|discriminate]. simpl.
  destruct (xattr_writable w) eqn:Ew; [|discriminate]. simpl.
  intros H. injection H as <-. exists fb. repeat split. exact Ep.
Qed.

Lemma fix_header_clean_run (sha : string) (w : world) (hb payload : string)
  (h : list (string * json)) :
  unchecked w ->
  file_data w = safetensors_file hb payload ->
  len hb < 18446744073709551616 ->
  rbind (Utf8.decode hb) Json.loads = Ok (JObj h) ->
  detect_fixes h = 0 ->
  fix_header_inplace sha w
  = mark_fix 0 (add_event EvOpen (add_event (EvGetxattr XATTR_FIX) w)).
Proof.
  intros Hun Hfile Hlen Hdec Hflags.
  rewrite (fix_header_run sha w hb payload h Hun Hfile Hlen Hdec). cbv zeta.
  now rewrite Hflags.
Qed.

(** ** C4: what a rewrite leaves *)

Lemma strip_prefix_changes (k : string) :
  startswith k HDR_PREFIX = true ->
  k = HDR_PREFIX +:+ strip_prefix k /\ strip_prefix k <> k.
Proof.
  intros H. unfold strip_prefix. rewrite H. unfold startswith in H.
  apply prefix_split in H. split; [exact H|].
  intros E. rewrite E in H. apply (f_equal String.length) in H.
  rewrite length_app_s in H. simpl in H. lia.
Qed.

Lemma nodup_map_pop (f : string -> string) (h : list (string * json)) (k : string) :
  NoDup (map f (Dict.keys h)) -> NoDup (map f (Dict.keys (Dict.pop k h))).
Proof.
  induction h as [|[k' v] h IHh]; simpl; intros H; [constructor|].
  apply NoDup_cons in H as [H1 H2].
  destruct (String.eqb k' k); [assumption|]. simpl.
  apply NoDup_cons. split; [|auto].
  rewrite list_elem_of_In in *. intros Hin. apply H1.
  apply in_map_iff in Hin as (x & Ex & Hx). apply in_map_iff. exists x.
  split; [assumption | eapply dict_pop_keys, Hx].
Qed.

Lemma renamed_keys_eq (h : list (string * json)) :
  Dict.keys (renamed h) = map strip_prefix (Dict.keys (Dict.pop METADATA_KEY h)).
Proof. unfold renamed, Dict.keys. now rewrite !map_map. Qed.

Lemma renamed_entries (l : list (string * json)) :
  Forall2 entry_renamed l (map (fun kv => (strip_prefix (fst kv), snd kv)) l).
Proof.
  induction l as [|[k v] l IHl]; simpl; constructor; [|assumption].
  split; [reflexivity|]. simpl.
  destruct (startswith k HDR_PREFIX) eqn:E.
  - now apply strip_prefix_changes.
  - now apply strip_prefix_id.
Qed.

Lemma changed_keys_renamed (l : list (string * json)) :
  changed_keys l (map (fun kv => (strip_prefix (fst kv), snd kv)) l) = prefixed_keys l.
Proof.
  unfold changed_keys, prefixed_keys. induction l as [|[k v] l IHl]; simpl; [reflexivity|].
  destruct (startswith k HDR_PREFIX) eqn:E.
  - destruct (strip_prefix_changes k E) as [_ Hne].
    destruct (String.eqb_spec k (strip_prefix k)) as [Heq|_]; [congruence|].
    simpl. now rewrite IHl.
  - rewrite (strip_prefix_id k E), String.eqb_refl. simpl. exact IHl.
Qed.

(** ** The rewrite *)

Lemma nodup_map_inj (f : string -> string) (l : list string) (a b : string) :
  NoDup (map f l) -> In a l -> In b l -> f a = f b -> a = b.
Proof.
  induction l as [|x l IHl]; simpl; [tauto|]. intros H Ha Hb E.
  apply NoDup_cons in H as [H1 H2]. rewrite list_elem_of_In in H1.
  destruct Ha as [->|Ha], Hb as [->|Hb]; auto.
  - exfalso. apply H1. rewrite E. now apply in_map.
  - exfalso. apply H1. rewrite <- E. now apply in_map.
Qed.

Lemma prefixed_keys_pop (h : list (string * json)) (k : string) :
  startswith k HDR_PREFIX = false -> prefixed_keys (Dict.pop k h) = prefixed_keys h.
Proof.
  intros Hk. unfold prefixed_keys. induction h as [|[k' v] h IHh]; simpl; [reflexivity|].
  destruct (String.eqb_spec k' k) as [->|Hne].
  - now rewrite Hk.
  - simpl. destruct (startswith k' HDR_PREFIX); simpl; now rewrite IHh.
Qed.

(** C4, amended: the rewrite drops the metadata entry, strips the prefix
    from the keys that carry it and from no other, keeps values, order
    and payload, provided no stripped name meets another key. *)
Theorem fix_header_rewrite_correct (sha : string) (w w' : world) (hb payload : string)
  (h : list (string * json)) (K : nat) :
  unchecked w ->
  file_data w = safetensors_file hb payload ->
  len hb < 18446744073709551616 ->
  rbind (Utf8.decode hb) Json.loads = Ok (JObj h) ->
  wf_json (JObj h) ->
  Dict.has METADATA_KEY h = true ->
  prefixed_keys h = K ->
  NoDup (map strip_prefix (Dict.keys h)) ->
  fix_header_inplace sha w = (Ok tt, w') ->
  exists hb',
    file_data w' = safetensors_file hb' payload
    /\ len hb' < 18446744073709551616
    /\ rbind (Utf8.decode hb') Json.loads = Ok (JObj (renamed h))
    /\ Dict.has METADATA_KEY (renamed h) = false
    /\ Forall2 entry_renamed (Dict.pop METADATA_KEY h) (renamed h)
    /\ changed_keys (Dict.pop METADATA_KEY h) (renamed h) = K
    /\ drop_z (len hb') (drop_z 8 (file_data w'))
       = drop_z (len hb) (drop_z 8 (file_data w)).
Proof.
  intros Hun Hfile Hlen Hdec Hwf Hmeta HK Hnd Hrun.
  assert (Hflags : detect_fixes h <> 0).
  { rewrite detect_fixes_val, Hmeta.
    destruct (existsb _ (Dict.keys h)); discriminate. }
  destruct (fix_header_completed sha w w' hb payload h Hun Hfile Hlen Hdec Hflags Hrun)
    as (fb & Hb & Hfb & _ & ->).
  assert (Hfixed : fixed_header h (detect_fixes h) = renamed h).
  { rewrite fixed_header_detect. rewrite set_all_nodup; [reflexivity|].
    simpl. rewrite renamed_keys_eq. now apply nodup_map_pop. }
  pose proof (wf_fixed_header h Hwf) as Hwf'. rewrite Hfixed in Hwf'.
  destruct (decode_loads_dumps _ Hwf') as [He Hd].
  unfold build_fixed_header in Hb. rewrite Hfixed, He in Hb. injection Hb as <-.
  exists (Json.dumps (JObj (renamed h))).
  split; [reflexivity|]. split; [assumption|]. split; [assumption|].
  split; [|split; [|split]].
  - apply dict_has_not_in. rewrite renamed_keys_eq. intros Hin.
    apply in_map_iff in Hin as (k & Ek & Hk).
    destruct Hwf as [Hndk _].
    destruct (dict_pop_nodup METADATA_KEY h Hndk) as [_ Hno].
    assert (k = METADATA_KEY); [|subst k; contradiction].
    apply (nodup_map_inj strip_prefix (Dict.keys h)); auto.
    + eapply dict_pop_keys, Hk.
    + now apply dict_has_in.
  - apply renamed_entries.
  - unfold renamed. rewrite changed_keys_renamed, prefixed_keys_pop; [assumption | reflexivity].
  - simpl file_data. rewrite Hfile.
    destruct (file_parts hb payload Hlen) as (_ & _ & ->).
    destruct (file_parts (Json.dumps (JObj (renamed h))) payload Hfb) as (_ & _ & ->).
    reflexivity.
Qed.

(** ** Reading back a printed integer *)

Lemma int_digits_digit (c : ascii) (r : string) (acc : Z) (b : bool) :
  is_digit c = true ->
  Py.int_digits (String c r) acc b = Py.int_digits r (10 * acc + (code c - 48)) true.
Proof. intros H. simpl. now rewrite H. Qed.

Lemma int_digits_uint (d : Decimal.uint) (acc : Z) (b : bool) :
  (d = Decimal.Nil -> b = true) ->
  Py.int_digits (NilEmpty.string_of_uint d) acc b = Some (uint_value d acc).
Proof.
  revert acc b; induction d; intros acc b Hb; simpl NilEmpty.string_of_uint;
    [rewrite Hb by reflexivity; reflexivity | ..];
    (rewrite int_digits_digit by reflexivity; rewrite IHd by reflexivity;
     simpl uint_value; do 2 f_equal; vm_compute (code _ - 48); lia).
Qed.

Lemma int_digits_uint_start (d : Decimal.uint) :
  d <> Decimal.Nil ->
  Py.int_digits (NilEmpty.string_of_uint d) 0 false = Some (uint_value d 0).
Proof. intros H. apply int_digits_uint. congruence. Qed.

Lemma uint_value_acc (d : Decimal.uint) (acc : positive) :
  uint_value d (Zpos acc) = Zpos (Pos.of_uint_acc d acc).
Proof.
  revert acc; induction d; intros acc; simpl; try reflexivity;
    rewrite <- IHd; f_equal; lia.
Qed.

Lemma uint_value_of_uint (d : Decimal.uint) : uint_value d 0 = Z.of_N (Pos.of_uint d).
Proof.
  induction d; simpl; try reflexivity; try exact IHd;
    apply (uint_value_acc d).
Qed.

Lemma uint_value_to_uint (p : positive) : uint_value (Pos.to_uint p) 0 = Zpos p.
Proof.
  rewrite uint_value_of_uint, DecimalPos.Unsigned.of_to. reflexivity.
Qed.

Lemma int_of_text_str_of_int (z : Z) : int_of_text (str_of_int z) = Some z.
Proof.
  destruct (str_of_int_cases z) as [[-> ->] | [(p & -> & ->) | (p & -> & ->)]].
  - reflexivity.
  - destruct (uint_head_char (Pos.to_uint p) EmptyString) as (c & r & E & Hc);
      [apply to_uint_head|].
    rewrite app_nil_r_s in E. unfold int_of_text.
    assert (Hl : Py.lstrip (NilEmpty.string_of_uint (Pos.to_uint p))
                 = NilEmpty.string_of_uint (Pos.to_uint p)).
    { rewrite E. simpl.
      destruct c as [[] [] [] [] [] [] [] []]; try discriminate Hc; reflexivity. }
    rewrite Hl.
    pose proof (int_digits_uint_start (Pos.to_uint p) (proj1 (to_uint_head p))) as Hd.
    rewrite uint_value_to_uint in Hd.
    pose proof (to_uint_head_nonzero p) as Hnz.
    destruct (Pos.to_uint p) eqn:Eu; try contradiction;
      simpl NilEmpty.string_of_uint in *; cbv iota;
      change (Ascii.eqb ?x "-") with false; change (Ascii.eqb ?x "+") with false;
      cbv iota; exact Hd.
  - unfold int_of_text. simpl Py.lstrip. cbv iota.
    change (Ascii.eqb "-" "-") with true. cbv iota.
    rewrite (int_digits_uint_start (Pos.to_uint p) (proj1 (to_uint_head p))).
    rewrite uint_value_to_uint. reflexivity.
Qed.

(** ** Idempotence of the fixer; the content-hash tag *)

(** ** The three ways the fixer completes *)

Lemma fix_header_outcomes (sha : string) (w w' : world) :
  fix_header_inplace sha w = (Ok tt, w') ->
  (exists n, result_of get_fix_xattr w = Ok (Some n)
             /\ w' = add_event (EvGetxattr XATTR_FIX) w)
  \/ (unchecked w /\ w' = marked_clean w)
  \/ (unchecked w /\ exists fb payload flags,
        flags <> 0 /\ Utf8.valid sha = true /\ w' = rewritten w sha fb payload flags).
Proof.
  unfold fix_header_inplace. erewrite bind_ok by apply run_get_fix_xattr.
  unfold result_of. rewrite run_get_fix_xattr. simpl fst.
  destruct (match xattrs w !! XATTR_FIX with
            | Some r => int_of_text r
            | None => None
            end) as [n|] eqn:Efix.
  { intros H. injection H as <-. left. eauto. }
  intros H. right.
  assert (Hun : unchecked w) by exact Efix.
  erewrite bind_ok in H by reflexivity.
  erewrite bind_ok in H by reflexivity.
  change (file_data (add_event EvOpen (add_event (EvGetxattr XATTR_FIX) w)))
    with (file_data w) in H.
  unfold lift, bind in H.
  destruct (unpack_Q (take_z 8 (file_data w))) as [hl|]; [|discriminate].
  destruct (Utf8.decode (take_z hl (drop_z 8 (file_data w)))) as [text|]; [|discriminate].
  destruct (Json.loads text) as [header|]; [|discriminate].
  destruct (detect_fixes_any header) as [flags|]; [|discriminate].
  destruct (flags =? 0) eqn:Eflags.
  - left. split; [assumption|].
    rewrite run_mark_fix, run_xattr_set in H.
    change (xattr_writable (add_event EvOpen (add_event (EvGetxattr XATTR_FIX) w)))
      with (xattr_writable w) in H.
    destruct (xattr_writable w); [|discriminate].
    injection H as <-. reflexivity.
  - right. split; [assumption|].
    assert (Hflags : flags <> 0) by (intros ->; discriminate).
    destruct (build_fixed_header_any header flags) as [fb|]; [|discriminate].
    unfold pack_Q in H.
    destruct ((0 <=? len fb) && (len fb <? 18446744073709551616)); [|discriminate].
    unfold write_tmp, replace_with_tmp, mark_sha256, mark_fix, _xattr_set, bind, log, lift,
      Utf8.encode in H.
    simpl in H. destruct (Utf8.valid sha); [|discriminate]. simpl in H.
    destruct (xattr_writable w) eqn:Ew; [|discriminate]. simpl in H.
    injection H as <-.
    exists fb, (drop_z hl (drop_z 8 (file_data w))), flags. repeat split. assumption.
Qed.

(** ** C7: the fix-state tag makes the fixer idempotent *)

Lemma cached_returns_at_once (sha : string) (w : world) (n : Z) :
  result_of get_fix_xattr w = Ok (Some n) -> returns_at_once sha w.
Proof.
  intros H. exists (add_event (EvGetxattr XATTR_FIX) w).
  split; [now apply (fix_header_cached sha w n)|].
  repeat split. now apply (events_since_app w _ [EvGetxattr XATTR_FIX]).
Qed.

Lemma get_fix_after_mark (w : world) (x : gmap string string) (flags : Z) :
  xattrs w = <[XATTR_FIX := str_of_int flags]> x ->
  result_of get_fix_xattr w = Ok (Some flags).
Proof.
  intros E. unfold result_of. rewrite run_get_fix_xattr. simpl.
  now rewrite E, lookup_insert_eq, int_of_text_str_of_int.
Qed.

(** C7: a file whose fix-state tag is set is left as it is, and a second
    call after a completed first call finds the tag set. *)
Theorem fix_header_idempotent (sha : string) (w : world) :
  (forall flags, xattrs w !! XATTR_FIX = Some (str_of_int flags) -> returns_at_once sha w)
  /\ (forall w1, fix_header_inplace sha w = (Ok tt, w1) -> returns_at_once sha w1).
Proof.
  split.
  - intros flags H. apply (cached_returns_at_once sha w flags).
    unfold result_of. rewrite run_get_fix_xattr. simpl.
    now rewrite H, int_of_text_str_of_int.
  - intros w1 H.
    destruct (fix_header_outcomes sha w w1 H)
      as [(n & Hn & ->) | [(_ & ->) | (_ & fb & payload & flags & _ & _ & ->)]].
    + now apply (cached_returns_at_once sha _ n).
    + apply (cached_returns_at_once sha _ 0). now eapply get_fix_after_mark.
    + apply (cached_returns_at_once sha _ flags). now eapply get_fix_after_mark.
Qed.

(** C7 after a first call on the sample file. *)
Lemma fix_header_idempotent_witness :
  returns_at_once sample_sha (world_after (fix_header_inplace sample_sha) sample_world).
Proof.
  apply (proj2 (fix_header_idempotent sample_sha sample_world)).
  vm_compute. reflexivity.
Defined.

(** ** C6: the content-hash tag *)

Lemma decode_replace_from_ascii (s : string) :
  is_ascii s = true -> Utf8.decode_replace_from Utf8.S0 EmptyString s = s.
Proof.
  induction s as [|c s IHs]; [reflexivity|]. simpl is_ascii.
  intros H. apply andb_true_iff in H as [Hc Hs].
  simpl. rewrite Hc. rewrite IHs by assumption. reflexivity.
Qed.

Lemma decode_replace_ascii (s : string) : is_ascii s = true -> Utf8.decode_replace s = s.
Proof. apply decode_replace_from_ascii. Qed.

Lemma nibble_ascii (n : Z) : 0 <= n < 16 -> (code (Sha256.nibble n) <? 128) = true.
Proof.
  intros H. unfold Sha256.nibble. destruct (n <? 10); rewrite code_chr; lia.
Qed.

Lemma hex32_ascii (x : Z) (k : string) :
  is_ascii (Sha256.hex32 x k) = is_ascii k.
Proof.
  unfold Sha256.hex32. simpl is_ascii.
  rewrite !nibble_ascii by (apply Z.mod_pos_bound; lia). reflexivity.
Qed.

Lemma hexdigest_ascii (data : string) : is_ascii (Sha256.hexdigest data) = true.
Proof.
  unfold Sha256.hexdigest. destruct (Sha256.update Sha256.H0 [] 0 data) as [[h buf] n].
  now rewrite !hex32_ascii.
Qed.

Lemma hexdigest_nonempty (data : string) :
  exists c r, Sha256.hexdigest data = String c r.
Proof.
  unfold Sha256.hexdigest. destruct (Sha256.update Sha256.H0 [] 0 data) as [[h buf] n].
  unfold Sha256.hex32 at 1. eauto.
Qed.

Lemma hexdigest_valid (data : string) : Utf8.valid (Sha256.hexdigest data) = true.
Proof. apply valid_ascii, hexdigest_ascii. Qed.

Lemma ensure_sha256_computes (w w1 : world) (d : string) :
  given (option_map Utf8.decode_replace (xattrs w !! XATTR_SHA256)) = false ->
  ensure_sha256 w = (Ok d, w1) ->
  d = Sha256.hexdigest (file_data w) /\ w1 = hashed w.
Proof.
  intros Hg. unfold ensure_sha256. erewrite bind_ok by apply run_get_sha256_xattr.
  destruct (option_map Utf8.decode_replace (xattrs w !! XATTR_SHA256)) as [[|c r]|];
    try discriminate Hg;
    (unfold sha256_file, mark_sha256, _xattr_set, bind, log, lift, ret, Utf8.encode;
     simpl; rewrite hexdigest_valid; simpl;
     destruct (xattr_writable w); [|discriminate];
     intros H; injection H as <- <-; split; reflexivity).
Qed.

Lemma ensure_sha256_cached (w : world) (raw : string) (c : ascii) (r : string) :
  xattrs w !! XATTR_SHA256 = Some raw ->
  Utf8.decode_replace raw = String c r ->
  ensure_sha256 w = (Ok (String c r), add_event (EvGetxattr XATTR_SHA256) w).
Proof.
  intros H E. unfold ensure_sha256. erewrite bind_ok by apply run_get_sha256_xattr.
  rewrite H. simpl. rewrite E. reflexivity.
Qed.

Lemma ensure_sha256_after (w : world) (data : string) :
  xattrs w !! XATTR_SHA256 = Some (Sha256.hexdigest data) ->
  ensure_sha256 w = (Ok (Sha256.hexdigest data), add_event (EvGetxattr XATTR_SHA256) w).
Proof.
  intros H. destruct (hexdigest_nonempty data) as (c & r & E).
  rewrite E in *. apply (ensure_sha256_cached w (String c r)); [assumption|].
  rewrite <- E. apply decode_replace_ascii, hexdigest_ascii.
Qed.

(** C6: the tag holds the digest of the bytes the file had when it was
    first hashed; the fixer writes that digest back after the replace and
    before the fix-state tag, and nothing hashes the file again. *)
Theorem sha256_tag_pinned (w w1 w2 : world) (d : string) :
  given (option_map Utf8.decode_replace (xattrs w !! XATTR_SHA256)) = false ->
  ensure_sha256 w = (Ok d, w1) ->
  fix_header_inplace d w1 = (Ok tt, w2) ->
  d = Sha256.hexdigest (file_data w)
  /\ events_since w w1 = [EvGetxattr XATTR_SHA256; EvHash; EvSetxattr XATTR_SHA256 d]
  /\ xattrs w1 !! XATTR_SHA256 = Some d
  /\ xattrs w2 !! XATTR_SHA256 = Some d
  /\ ~ In EvHash (events_since w1 w2)
  /\ (In EvReplace (events_since w1 w2) ->
      exists tmp flags,
        events_since w1 w2
        = [EvGetxattr XATTR_FIX; EvOpen; EvWriteTmp tmp; EvReplace;
           EvSetxattr XATTR_SHA256 d; EvSetxattr XATTR_FIX (str_of_int flags)])
  /\ ensure_sha256 w2 = (Ok d, add_event (EvGetxattr XATTR_SHA256) w2).
Proof.
  intros Hg He Hf.
  destruct (ensure_sha256_computes w w1 d Hg He) as [-> ->].
  set (d := Sha256.hexdigest (file_data w)) in *.
  assert (H1 : xattrs (hashed w) !! XATTR_SHA256 = Some d)
    by (unfold hashed; simpl; apply lookup_insert_eq).
  split; [reflexivity|].
  split; [now apply (events_since_app w _
                       [EvSetxattr XATTR_SHA256 d; EvHash; EvGetxattr XATTR_SHA256])|].
  split; [exact H1|].
  destruct (fix_header_outcomes d (hashed w) w2 Hf)
    as [(n & Hn & ->) | [(_ & ->) | (_ & fb & payload & flags & _ & _ & ->)]].
  - rewrite (events_since_app (hashed w) _ [EvGetxattr XATTR_FIX]) by reflexivity.
    split; [exact H1|]. split; [simpl; intuition discriminate|].
    split; [simpl; intuition discriminate|].
    now apply ensure_sha256_after.
  - rewrite (events_since_app (hashed w) _
               [EvSetxattr XATTR_FIX (str_of_int 0); EvOpen; EvGetxattr XATTR_FIX])
      by reflexivity.
    assert (H2 : xattrs (marked_clean (hashed w)) !! XATTR_SHA256 = Some d).
    { unfold marked_clean. simpl. rewrite lookup_insert_ne by discriminate.
      apply lookup_insert_eq. }
    split; [exact H2|]. split; [simpl; intuition discriminate|].
    split; [simpl; intuition discriminate|].
    now apply ensure_sha256_after.
  - rewrite (events_since_app (hashed w) _
               [EvSetxattr XATTR_FIX (str_of_int flags); EvSetxattr XATTR_SHA256 d;
                EvReplace; EvWriteTmp (safetensors_file fb payload); EvOpen;
                EvGetxattr XATTR_FIX]) by reflexivity.
    assert (H2 : xattrs (rewritten (hashed w) d fb payload flags) !! XATTR_SHA256 = Some d).
    { unfold rewritten. simpl. rewrite lookup_insert_ne by discriminate.
      apply lookup_insert_eq. }
    split; [exact H2|]. split; [simpl; intuition discriminate|].
    split; [intros _; simpl; eauto|].
    now apply ensure_sha256_after.
Qed.

(** ** The length field; the metadata provider *)

(** ** C9: the sanity bound on the length field *)

Lemma read_header_rejects_long (w : world) (n : Z) :
  unpack_Q (take_z 8 (file_data w)) = Ok n -> n > HEADER_MAX ->
  read_safetensors_header w = (Ok JNull, add_event EvOpen w).
Proof.
  intros Hn Hbig. unfold read_safetensors_header, except_exception.
  erewrite bind_ok by reflexivity.
  erewrite bind_ok by reflexivity.
  change (file_data (add_event EvOpen w)) with (file_data w). cbv zeta.
  destruct ((String.length (take_z 8 (file_data w)) <? 8)%nat); [reflexivity|].
  unfold lift at 1. erewrite bind_ok by (rewrite Hn; reflexivity).
  destruct (Z.gtb_spec n HEADER_MAX); [reflexivity | lia].
Qed.

(** C9 at a failing input: the reader refuses the file, the fixer reads
    on, parses what it finds and marks the file clean. *)
Theorem fixer_has_no_length_bound :
  unpack_Q (take_z 8 (file_data oversized_world)) = Ok (HEADER_MAX + 1)
  /\ result_of read_safetensors_header oversized_world = Ok JNull
  /\ result_of (fix_header_inplace sample_sha) oversized_world = Ok tt
  /\ events_since oversized_world
       (world_after (fix_header_inplace sample_sha) oversized_world)
     = [EvGetxattr XATTR_FIX; EvOpen; EvSetxattr XATTR_FIX "0"]
  /\ xattrs (world_after (fix_header_inplace sample_sha) oversized_world) !! XATTR_FIX
     = Some "0".
Proof. repeat split; vm_compute; reflexivity. Qed.

(** ** C3: failures of the metadata provider *)

Lemma fetch_civitai_run (sha : string) (w : world) :
  fetch_civitai sha w
  = (match provider w (CIVITAI_BY_HASH (upper sha)) with
     | Response body =>
         match rbind (Utf8.decode body) Json.loads with
         | Ok v => Ok v
         | Raise _ => Ok JNull
         end
     | HttpStatus status => if status =? 404 then Ok JNull else Raise (HTTPError status)
     | Failed => Ok JNull
     end, add_event (EvUrlopen (CIVITAI_BY_HASH (upper sha))) w).
Proof.
  unfold fetch_civitai. cbv zeta. erewrite bind_ok by reflexivity.
  destruct (provider w (CIVITAI_BY_HASH (upper sha))) as [body|status|]; try reflexivity.
  - destruct (rbind (Utf8.decode body) Json.loads); reflexivity.
  - destruct (status =? 404); reflexivity.
Qed.

(** A provider without a record makes the look-up come back empty. *)
Lemma fetch_civitai_no_record (sha : string) (w : world) :
  no_record (provider w (CIVITAI_BY_HASH (upper sha))) ->
  fetch_civitai sha w = (Ok JNull, add_event (EvUrlopen (CIVITAI_BY_HASH (upper sha))) w).
Proof.
  intros Hno. rewrite fetch_civitai_run.
  destruct (provider w (CIVITAI_BY_HASH (upper sha))) as [body|status|]; simpl in Hno.
  - destruct Hno as [e ->]. reflexivity.
  - subst status. reflexivity.
  - reflexivity.
Qed.

Lemma run_civitai_xattr_exists (w : world) :
  civitai_xattr_exists w
  = (Ok (match xattrs w !! (CIVITAI_PFX +:+ "baseModel") with
         | Some _ => true
         | None => false
         end), add_event (EvGetxattr (CIVITAI_PFX +:+ "baseModel")) w).
Proof. reflexivity. Qed.

Lemma ensure_civitai_absent (sha : string) (w : world) :
  xattrs w !! (CIVITAI_PFX +:+ "baseModel") = None ->
  no_record (provider w (CIVITAI_BY_HASH (upper sha))) ->
  ensure_civitai_xattrs sha w
  = (Ok false, add_event (EvUrlopen (CIVITAI_BY_HASH (upper sha)))
                 (add_event (EvGetxattr (CIVITAI_PFX +:+ "baseModel")) w)).
Proof.
  intros Hbase Hno. unfold ensure_civitai_xattrs.
  erewrite bind_ok by apply run_civitai_xattr_exists.
  rewrite Hbase. cbv iota.
  erewrite bind_ok by (apply fetch_civitai_no_record; exact Hno). reflexivity.
Qed.

(** C3, amended: a 404, a transport failure and an undecodable answer
    give an absent record; any other HTTP status is raised to the caller. *)
Theorem provider_failures (sha : string) (w : world) :
  let url := CIVITAI_BY_HASH (upper sha) in
  (no_record (provider w url) ->
     fetch_civitai sha w = (Ok JNull, add_event (EvUrlopen url) w)
     /\ (xattrs w !! (CIVITAI_PFX +:+ "baseModel") = None ->
         result_of (ensure_civitai_xattrs sha) w = Ok false
         /\ xattrs (world_after (ensure_civitai_xattrs sha) w) = xattrs w))
  /\ (forall status, provider w url = HttpStatus status -> status <> 404 ->
        result_of (fetch_civitai sha) w = Raise (HTTPError status)
        /\ (xattrs w !! (CIVITAI_PFX +:+ "baseModel") = None ->
            result_of (ensure_civitai_xattrs sha) w = Raise (HTTPError status))).
Proof.
  intros url. split.
  - intros Hno. split; [now apply fetch_civitai_no_record|]. intros Hbase.
    unfold result_of, world_after.
    rewrite (ensure_civitai_absent sha w Hbase Hno). split; reflexivity.
  - intros status Hs Hne.
    assert (E : (status =? 404) = false) by (apply Z.eqb_neq; assumption).
    assert (Hf : forall w0, provider w0 = provider w ->
                 fetch_civitai sha w0
                 = (Raise (HTTPError status), add_event (EvUrlopen url) w0)).
    { intros w0 E0. rewrite fetch_civitai_run, E0. fold url. now rewrite Hs, E. }
    split.
    + unfold result_of. now rewrite Hf.
    + intros Hbase. unfold ensure_civitai_xattrs, result_of.
      erewrite bind_ok by apply run_civitai_xattr_exists.
      rewrite Hbase. cbv iota.
      erewrite bind_raise by (apply Hf; reflexivity). reflexivity.
Qed.

(** C3 at a provider that answers 500: the error reaches the caller of
    the look-up, of [ensure_civitai_xattrs] and of [process_file]. *)
Lemma server_error_is_raised :
  provider server_error_world (CIVITAI_BY_HASH (upper sample_sha)) = HttpStatus 500
  /\ result_of (fetch_civitai sample_sha) server_error_world = Raise (HTTPError 500)
  /\ result_of (ensure_civitai_xattrs sample_sha) server_error_world = Raise (HTTPError 500)
  /\ result_of (process_file [] 1200 false false false false false) server_error_world
     = Raise (HTTPError 500).
Proof. repeat split; vm_compute; reflexivity. Qed.

(** ** The size check *)

(** ** C2: where the size check stands in the pipeline *)

Lemma preflight_too_large (entries : list json) (limit : Z) (w : world) :
  limit > 0 -> len (file_data w) > limit * 1024 * 1024 ->
  preflight entries limit w = (Ok TooLarge, add_event EvStat w).
Proof.
  intros Hl Hs. unfold preflight. erewrite bind_ok by reflexivity. cbv zeta.
  destruct (Z.gtb_spec limit 0); [|lia].
  destruct (Z.gtb_spec (len (file_data w)) (limit * 1024 * 1024)); [|lia].
  reflexivity.
Qed.

Lemma process_file_too_large (entries : list json) (limit : Z)
  (skip_fix skip_civitai : bool) (w w0 w1 : world) (sha : string) :
  stage_sha256_and_civitai skip_civitai w = (Ok sha, w0) ->
  (if negb skip_fix then stage_header_fix sha else ret tt) w0 = (Ok tt, w1) ->
  limit > 0 -> len (file_data w1) > limit * 1024 * 1024 ->
  process_file entries limit skip_fix skip_civitai false false false w
  = (Ok (Skipped TooLarge), add_event EvStat w1).
Proof.
  intros H1 H2 Hl Hs. unfold process_file.
  erewrite bind_ok by exact H1.
  rewrite andb_true_r.
  erewrite bind_ok by exact H2.
  cbv iota.
  erewrite bind_ok by (apply preflight_too_large; assumption).
  reflexivity.
Qed.

(** C2, amended: in a full run the file is hashed, looked up and fixed
    first; a file that is then larger than the limit is turned away by
    the size check alone, which changes nothing. *)
Theorem oversized_rejected_at_preflight (entries : list json) (limit : Z)
  (skip_fix skip_civitai : bool) (w w0 w1 : world) (sha : string) :
  stage_sha256_and_civitai skip_civitai w = (Ok sha, w0) ->
  (if negb skip_fix then stage_header_fix sha else ret tt) w0 = (Ok tt, w1) ->
  limit > 0 -> len (file_data w1) > limit * 1024 * 1024 ->
  process_file entries limit skip_fix skip_civitai false false false w
  = (Ok (Skipped TooLarge), add_event EvStat w1)
  /\ file_data (add_event EvStat w1) = file_data w1
  /\ xattrs (add_event EvStat w1) = xattrs w1
  /\ events_since w1 (add_event EvStat w1) = [EvStat].
Proof.
  intros H1 H2 Hl Hs. split; [now apply (process_file_too_large _ _ _ _ w w0 w1 sha)|].
  repeat split. now apply (events_since_app w1 _ [EvStat]).
Qed.

Lemma ensure_sha256_runs (w : world) :
  given (option_map Utf8.decode_replace (xattrs w !! XATTR_SHA256)) = false ->
  xattr_writable w = true ->
  ensure_sha256 w = (Ok (Sha256.hexdigest (file_data w)), hashed w).
Proof.
  intros Hg Hw. unfold ensure_sha256. erewrite bind_ok by apply run_get_sha256_xattr.
  destruct (option_map Utf8.decode_replace (xattrs w !! XATTR_SHA256)) as [[|c r]|];
    try discriminate Hg;
    (unfold sha256_file, mark_sha256, _xattr_set, bind, log, lift, ret, Utf8.encode;
     simpl; rewrite hexdigest_valid; simpl; rewrite Hw; reflexivity).
Qed.

Lemma stage_1_2_runs (w : world) :
  given (option_map Utf8.decode_replace (xattrs w !! XATTR_SHA256)) = false ->
  xattr_writable w = true ->
  xattrs w !! (CIVITAI_PFX +:+ "baseModel") = None ->
  no_record (provider w (CIVITAI_BY_HASH (upper (Sha256.hexdigest (file_data w))))) ->
  stage_sha256_and_civitai false w
  = (Ok (Sha256.hexdigest (file_data w)),
     add_event (EvUrlopen (CIVITAI_BY_HASH (upper (Sha256.hexdigest (file_data w)))))
       (add_event (EvGetxattr (CIVITAI_PFX +:+ "baseModel"))
          (add_event (EvGetxattr (CIVITAI_PFX +:+ "baseModel")) (hashed w)))).
Proof.
  intros Hg Hw Hbase Hno. unfold stage_sha256_and_civitai.
  erewrite bind_ok by (apply ensure_sha256_runs; assumption).
  simpl negb. cbv iota.
  assert (Hb : xattrs (hashed w) !! (CIVITAI_PFX +:+ "baseModel") = None).
  { unfold hashed. simpl. rewrite lookup_insert_ne by discriminate. exact Hbase. }
  pose proof (ensure_civitai_absent (Sha256.hexdigest (file_data w))
    (add_event (EvGetxattr (CIVITAI_PFX +:+ "baseModel")) (hashed w)) Hb Hno) as Hc.
  assert (Hstep : (present <- civitai_xattr_exists ;;
                   if present : bool then ret tt
                   else (has_data <- ensure_civitai_xattrs (Sha256.hexdigest (file_data w)) ;;
                         ret tt)) (hashed w)
                  = (Ok tt,
                     add_event (EvUrlopen (CIVITAI_BY_HASH (upper (Sha256.hexdigest (file_data w)))))
                       (add_event (EvGetxattr (CIVITAI_PFX +:+ "baseModel"))
                          (add_event (EvGetxattr (CIVITAI_PFX +:+ "baseModel")) (hashed w))))).
  { erewrite bind_ok by apply run_civitai_xattr_exists.
    rewrite Hb. cbv iota. erewrite bind_ok by exact Hc. reflexivity. }
  erewrite bind_ok by exact Hstep. reflexivity.
Qed.

Lemma fix_header_rewrites (sha : string) (w : world) (hb payload : string)
  (h : list (string * json)) (fb : string) :
  unchecked w ->
  file_data w = safetensors_file hb payload ->
  len hb < 18446744073709551616 ->
  rbind (Utf8.decode hb) Json.loads = Ok (JObj h) ->
  detect_fixes h <> 0 ->
  build_fixed_header h (detect_fixes h) = Ok fb ->
  len fb < 18446744073709551616 ->
  xattr_writable w = true ->
  Utf8.valid sha = true ->
  fix_header_inplace sha w = (Ok tt, rewritten w sha fb payload (detect_fixes h)).
Proof.
  intros Hun Hfile Hlen Hdec Hflags Hb Hfb Hw Hsha.
  rewrite (fix_header_run sha w hb payload h Hun Hfile Hlen Hdec). cbv zeta.
  destruct (Z.eqb_spec (detect_fixes h) 0) as [|_]; [contradiction|].
  rewrite Hb. unfold pack_Q. pose proof (len_nonneg fb).
  destruct (Z.leb_spec 0 (len fb)); [|lia].
  destruct (Z.ltb_spec (len fb) 18446744073709551616); [|lia].
  unfold write_tmp, replace_with_tmp, mark_sha256, mark_fix, _xattr_set, bind, log, lift,
    Utf8.encode.
  simpl. rewrite Hsha. simpl. rewrite Hw. reflexivity.
Qed.

Lemma len_doubled (n : nat) (s : string) : len (doubled n s) = 2 ^ Z.of_nat n * len s.
Proof.
  revert s; induction n as [|n IHn]; intros s.
  - simpl. lia.
  - simpl doubled. rewrite IHn, len_app, Nat2Z.inj_succ, Z.pow_succ_r by lia. lia.
Qed.

Lemma len_big_payload : len big_payload = 1048576.
Proof. unfold big_payload. rewrite len_doubled. reflexivity. Qed.

Lemma safetensors_file_head (a p : string) :
  safetensors_file a p
  = String (chr (len a mod 256)) (le_bytes 7 (len a / 256) +:+ a +:+ p).
Proof. reflexivity. Qed.

Opaque big_payload.

(** The first three stages on the large sample file. *)
Lemma big_world_stages :
  stage_sha256_and_civitai false big_world
  = (Ok (Sha256.hexdigest (file_data big_world)), looked_up big_world)
  /\ stage_header_fix (Sha256.hexdigest (file_data big_world)) (looked_up big_world)
     = (Ok tt, rewritten (looked_up big_world) (Sha256.hexdigest (file_data big_world))
                 (Json.dumps (JObj (renamed header_sample))) big_payload
                 (detect_fixes header_sample))
  /\ forall x, len (safetensors_file x big_payload) > 1 * 1024 * 1024.
Proof.
  split; [exact (stage_1_2_runs big_world eq_refl eq_refl eq_refl I)|]. split.
  - apply (fix_header_rewrites _ (looked_up big_world)
             (Json.dumps (JObj header_sample)) big_payload header_sample).
    + unfold unchecked, looked_up, hashed. simpl.
      rewrite lookup_insert_ne by discriminate. reflexivity.
    + reflexivity.
    + vm_compute. reflexivity.
    + apply decode_loads_dumps, wf_jsonb_sound. reflexivity.
    + vm_compute. discriminate.
    + vm_compute. reflexivity.
    + vm_compute. reflexivity.
    + reflexivity.
    + apply hexdigest_valid.
  - intros x. unfold safetensors_file. rewrite !len_app, len_big_payload.
    pose proof (len_nonneg x).
    assert (len (le_bytes 8 (len x)) = 8) by (unfold len; now rewrite length_le_bytes).
    lia.
Qed.

(** C2 at the large sample file with a limit of 1 MB. *)
Lemma oversized_rejected_at_preflight_witness :
  exists w1,
    process_file [] 1 false false false false false big_world
    = (Ok (Skipped TooLarge), add_event EvStat w1)
    /\ file_data (add_event EvStat w1) = file_data w1
    /\ xattrs (add_event EvStat w1) = xattrs w1
    /\ events_since w1 (add_event EvStat w1) = [EvStat].
Proof.
  destruct big_world_stages as (H12 & H3 & Hsize).
  eexists.
  apply (oversized_rejected_at_preflight [] 1 false false big_world _ _ _ H12 H3).
  - lia.
  - apply Hsize.
Defined.

(** C2 at a file of more than one megabyte, limit 1 MB: the run ends at
    the size check, after the file was hashed and rewritten. *)
Lemma oversized_file_is_hashed_and_rewritten :
  1 * 1024 * 1024 < len (file_data big_world)
  /\ exists w',
       process_file [] 1 false false false false false big_world
       = (Ok (Skipped TooLarge), w')
       /\ In EvHash (trace w') /\ In EvReplace (trace w')
       /\ xattrs w' !! XATTR_SHA256 <> xattrs big_world !! XATTR_SHA256
       /\ file_data w' <> file_data big_world.
Proof.
  destruct big_world_stages as (H12 & H3 & Hsize).
  split; [pose proof (Hsize (Json.dumps (JObj header_sample))) as H; exact (Z.gt_lt _ _ H)|].
  eexists. split.
  - apply (process_file_too_large [] 1 false false big_world _ _ _ H12 H3).
    + lia.
    + apply Hsize.
  - split; [do 11 right; left; reflexivity|].
    split; [do 3 right; left; reflexivity|].
    split.
    + simpl. rewrite lookup_insert_ne by discriminate.
      rewrite lookup_insert_eq. discriminate.
    + simpl file_data. rewrite !safetensors_file_head. intros H.
      apply (f_equal (fun s => match s with
                               | String c _ => code c
                               | EmptyString => 0
                               end)) in H.
      cbv beta iota in H. vm_compute in H. discriminate H.
Qed.

(** ** The duplicate check by external id *)

(** ** C10: the duplicate check by external id *)

Section Keeps.
Context {A B : Type} (P : world -> Prop).

Lemma keeps_ret (a : A) : keeps P (ret a).
Proof. intros w H. exact H. Qed.

Lemma keeps_raise (e : exn) : keeps P (@raise A e).
Proof. intros w H. exact H. Qed.

Lemma keeps_lift (r : result A) : keeps P (lift r).
Proof. intros w H. exact H. Qed.

Lemma keeps_bind (m : M A) (f : A -> M B) :
  keeps P m -> (forall a, keeps P (f a)) -> keeps P (bind m f).
Proof.
  intros Hm Hf w H. unfold bind. specialize (Hm w H).
  destruct (m w) as [[a|e] w']; simpl in *; [now apply Hf | assumption].
Qed.

Lemma keeps_except (m handler : M A) :
  keeps P m -> keeps P handler -> keeps P (except_exception m handler).
Proof.
  intros Hm Hh w H. unfold except_exception. specialize (Hm w H).
  destruct (m w) as [[a|e] w']; simpl in *; [assumption | now apply Hh].
Qed.

End Keeps.

Lemma keeps_log (e : event) : keeps no_id_tag (log e).
Proof. intros w H. exact H. Qed.

Lemma keeps_file_contents : keeps no_id_tag file_contents.
Proof. intros w H. exact H. Qed.

Lemma keeps_stat_size : keeps no_id_tag stat_size.
Proof. intros w H. exact H. Qed.

Lemma keeps_urlopen (url : string) : keeps no_id_tag (urlopen url).
Proof. intros w H. exact H. Qed.

Lemma keeps_xattr_get (name : string) : keeps no_id_tag (_xattr_get name).
Proof. intros w H. exact H. Qed.

Lemma keeps_xattr_set (name value : string) :
  name <> XATTR_ID -> keeps no_id_tag (_xattr_set name value).
Proof.
  intros Hne w H. rewrite run_xattr_set. destruct (xattr_writable w); [|exact H].
  unfold no_id_tag in *. simpl. now rewrite lookup_insert_ne.
Qed.

Lemma keeps_write_tmp (data : string) : keeps no_id_tag (write_tmp data).
Proof. intros w H. exact H. Qed.

Lemma keeps_replace : keeps no_id_tag replace_with_tmp.
Proof.
  intros w H. unfold replace_with_tmp, bind, log. simpl.
  destruct (tmp_file w); [reflexivity | exact H].
Qed.

Ltac keeps_step :=
  lazymatch goal with
  | |- keeps _ (ret _) => apply keeps_ret
  | |- keeps _ (raise _) => apply keeps_raise
  | |- keeps _ (lift _) => apply keeps_lift
  | |- keeps _ (log _) => apply keeps_log
  | |- keeps _ file_contents => apply keeps_file_contents
  | |- keeps _ stat_size => apply keeps_stat_size
  | |- keeps _ (urlopen _) => apply keeps_urlopen
  | |- keeps _ (_xattr_get _) => apply keeps_xattr_get
  | |- keeps _ (write_tmp _) => apply keeps_write_tmp
  | |- keeps _ replace_with_tmp => apply keeps_replace
  | |- keeps _ (_xattr_set _ _) => apply keeps_xattr_set; discriminate
  | |- keeps _ (except_exception _ _) => apply keeps_except
  | |- keeps _ (bind _ _) => apply keeps_bind; [| intros ?]
  | |- keeps _ (match ?x with _ => _ end) => destruct x
  | |- keeps _ (let _ := _ in _) => cbv zeta
  end.

Ltac keeps_all := repeat keeps_step.

Lemma keeps_ensure_sha256 : keeps no_id_tag ensure_sha256.
Proof.
  unfold ensure_sha256, get_sha256_xattr, sha256_file, mark_sha256. keeps_all.
Qed.

Lemma keeps_mark_civitai_fields (fields : list (string * (json -> result json)))
  (data : json) (written : Z) :
  Forall (fun fe => CIVITAI_PFX +:+ fst fe <> XATTR_ID) fields ->
  keeps no_id_tag (mark_civitai_fields fields data written).
Proof.
  intros H. revert written. induction H as [|[field extractor] fields Hne _ IH];
    intros written; simpl.
  - apply keeps_ret.
  - apply keeps_bind; [apply keeps_lift|]. intros value.
    destruct value; try apply IH;
      (apply keeps_bind; [apply keeps_lift|]; intros raw;
       apply keeps_bind; [now apply keeps_xattr_set | intros _; apply IH]).
Qed.

(** No extractor writes the tag that the check reads. *)
Lemma extractors_skip_id :
  Forall (fun fe => CIVITAI_PFX +:+ fst fe <> XATTR_ID) CIVITAI_FIELD_EXTRACTORS.
Proof. repeat constructor; discriminate. Qed.

Lemma keeps_mark_civitai (data : json) : keeps no_id_tag (mark_civitai data).
Proof.
  unfold mark_civitai.
  apply keeps_bind; [apply keeps_mark_civitai_fields, extractors_skip_id|].
  intros written. keeps_all.
Qed.

Lemma keeps_ensure_civitai (sha : string) : keeps no_id_tag (ensure_civitai_xattrs sha).
Proof.
  unfold ensure_civitai_xattrs, civitai_xattr_exists, fetch_civitai, mark_where_froms.
  keeps_all; try apply keeps_mark_civitai.
Qed.

Lemma keeps_fix_header (sha : string) : keeps no_id_tag (fix_header_inplace sha).
Proof.
  unfold fix_header_inplace, get_fix_xattr, mark_fix, mark_sha256. keeps_all.
Qed.

Lemma keeps_preflight (entries : list json) (limit : Z) :
  keeps no_id_tag (preflight entries limit).
Proof.
  unfold preflight, get_civitai_xattr, get_sha256_xattr. keeps_all.
Qed.

Lemma keeps_process_file (entries : list json) (limit : Z)
  (skip_fix skip_civitai skip_convert fix_only tag_only : bool) :
  keeps no_id_tag
    (process_file entries limit skip_fix skip_civitai skip_convert fix_only tag_only).
Proof.
  unfold process_file, stage_sha256_and_civitai, stage_header_fix, civitai_xattr_exists.
  keeps_all;
    first [apply keeps_ensure_sha256 | apply keeps_ensure_civitai
          | apply keeps_fix_header | apply keeps_preflight].
Qed.

Section Answers.
Context {A B : Type} (P : world -> Prop).

Lemma answers_ret (Q : A -> Prop) (a : A) : Q a -> answers P Q (ret a).
Proof. intros H w _. exact H. Qed.

Lemma answers_bind (Q : B -> Prop) (m : M A) (f : A -> M B) :
  keeps P m -> (forall a, answers P Q (f a)) -> answers P Q (bind m f).
Proof.
  intros Hm Hf w H. unfold bind. specialize (Hm w H).
  destruct (m w) as [[a|e] w']; simpl in *; [now apply Hf | exact I].
Qed.

Lemma answers_seq (Q1 : A -> Prop) (Q : B -> Prop) (m : M A) (f : A -> M B) :
  keeps P m -> answers P Q1 m -> (forall a, Q1 a -> answers P Q (f a)) ->
  answers P Q (bind m f).
Proof.
  intros Hm H1 Hf w H. unfold bind. specialize (Hm w H). specialize (H1 w H).
  destruct (m w) as [[a|e] w']; simpl in *; [now apply Hf | exact I].
Qed.

End Answers.

(** Without the tag, the last check of pre-flight has nothing to compare. *)
Lemma id_check_skipped (entries : list json) :
  answers no_id_tag not_by_id
    (civitai_id <- get_civitai_xattr "id" ;;
     if given civitai_id then lift (id_scan entries (default "" civitai_id))
     else ret Pass).
Proof.
  intros w H. unfold get_civitai_xattr, _xattr_get, bind, log, ret. simpl.
  unfold no_id_tag, XATTR_ID in H. rewrite H. exact I.
Qed.

Lemma preflight_not_by_id (entries : list json) (limit : Z) :
  answers no_id_tag not_by_id (preflight entries limit).
Proof.
  unfold preflight.
  apply answers_bind; [apply keeps_stat_size|]. intros file_size. cbv zeta.
  destruct (_ && _); [now apply answers_ret|].
  apply answers_bind; [unfold get_civitai_xattr; keeps_all|]. intros model_type.
  destruct (_ && _); [now apply answers_ret|].
  apply answers_bind; [unfold get_sha256_xattr; keeps_all|]. intros sha256.
  apply answers_bind; [keeps_all|]. intros existing.
  destruct (truthy existing); [now apply answers_ret|].
  apply id_check_skipped.
Qed.

Lemma process_file_not_by_id (entries : list json) (limit : Z)
  (skip_fix skip_civitai skip_convert fix_only tag_only : bool) :
  answers no_id_tag not_skipped_by_id
    (process_file entries limit skip_fix skip_civitai skip_convert fix_only tag_only).
Proof.
  unfold process_file.
  apply answers_bind.
  { unfold stage_sha256_and_civitai, civitai_xattr_exists. keeps_all;
      first [apply keeps_ensure_sha256 | apply keeps_ensure_civitai]. }
  intros sha256. apply answers_bind.
  { destruct (_ && _); [apply keeps_fix_header | apply keeps_ret]. }
  intros _.
  destruct tag_only; [now apply answers_ret|].
  destruct fix_only; [now apply answers_ret|].
  destruct skip_convert; [now apply answers_ret|].
  apply (answers_seq _ not_by_id);
    [apply keeps_preflight | apply preflight_not_by_id |].
  intros v Hv. destruct v; now apply answers_ret.
Qed.

Lemma keeps_anything {A} (m : M A) : keeps (fun _ => True) m.
Proof. intros w _. exact I. Qed.

Lemma dict_get_absent {A} (k : string) (d : list (string * A)) :
  ~ In k (Dict.keys d) -> Dict.get k d = None.
Proof.
  intros H. apply dict_has_not_in in H. unfold Dict.has in H.
  destruct (Dict.get k d); [discriminate | reflexivity].
Qed.

(** The collected keys come from the list of fields. *)
Lemma collect_fields_keys (fields : list string) (data : list (string * json)) :
  answers (fun _ => True)
    (fun d => forall x, In x (Dict.keys d) -> In x fields \/ In x (Dict.keys data))
    (collect_fields fields data).
Proof.
  revert data. induction fields as [|field r IH]; intros data; simpl.
  - apply answers_ret. tauto.
  - apply answers_bind; [apply keeps_anything|]. intros val.
    assert (Hset : forall v',
      answers (fun _ => True)
        (fun d => forall x, In x (Dict.keys d) ->
                            In x (field :: r) \/ In x (Dict.keys data))
        (collect_fields r (Dict.set field v' data))).
    { intros v' w Hw. specialize (IH (Dict.set field v' data) w Hw). cbv beta in IH.
      destruct (fst (collect_fields r (Dict.set field v' data) w)); [|exact I].
      intros x Hx. destruct (IH x Hx) as [H|H]; [simpl; tauto|].
      apply dict_set_keys in H. destruct H as [->|H]; simpl; tauto. }
    destruct val as [v|]; [destruct (Json.loads v); apply Hset|].
    intros w Hw. specialize (IH data w Hw). cbv beta in IH.
    destruct (fst (collect_fields r data w)); [|exact I].
    intros x Hx. destruct (IH x Hx); simpl; tauto.
Qed.

(** No collected dictionary has an external id. *)
Lemma collect_civitai_data_no_id :
  answers (fun _ => True)
    (fun o => match o with Some d => Dict.get "id" d = None | None => True end)
    collect_civitai_data.
Proof.
  unfold collect_civitai_data.
  eapply answers_seq; [apply keeps_anything | apply collect_fields_keys |].
  intros data Hd. apply answers_bind; [apply keeps_anything|]. intros sha256.
  cbv zeta. apply answers_ret.
  assert (Hno : ~ In "id" (Dict.keys data)).
  { intros Hin. destruct (Hd _ Hin) as [H|H]; [|exact H].
    simpl in H. intuition discriminate. }
  destruct (given sha256).
  - destruct (Dict.set _ _ data) eqn:E; [exact I|]. rewrite <- E.
    apply dict_get_absent. intros Hin. apply dict_set_keys in Hin.
    destruct Hin as [Hin|Hin]; [discriminate | contradiction].
  - destruct data; [exact I|]. now apply dict_get_absent.
Qed.

Lemma id_scan_registered (entries : list json) (c : ascii) (s : string) :
  Forall pipeline_entry entries -> id_scan entries (String c s) = Ok Pass.
Proof.
  induction 1 as [|entry r He _ IH]; [reflexivity|].
  destruct He as (sha & name & version & file & prefix & loha & w & d & Hd & ->).
  pose proof (collect_civitai_data_no_id w I) as Hno.
  unfold result_of in Hd. rewrite Hd in Hno.
  destruct d as [[|kv d]|]; simpl; try exact IH.
  simpl in Hno. rewrite Hno. simpl. exact IH.
Qed.

Lemma preflight_registered (entries : list json) (limit : Z) :
  Forall pipeline_entry entries ->
  answers (fun _ => True) not_by_id (preflight entries limit).
Proof.
  intros He. unfold preflight.
  apply answers_bind; [apply keeps_anything|]. intros file_size. cbv zeta.
  destruct (_ && _); [now apply answers_ret|].
  apply answers_bind; [apply keeps_anything|]. intros model_type.
  destruct (_ && _); [now apply answers_ret|].
  apply answers_bind; [apply keeps_anything|]. intros sha256.
  apply answers_bind; [apply keeps_anything|]. intros existing.
  destruct (truthy existing); [now apply answers_ret|].
  apply answers_bind; [apply keeps_anything|]. intros [[|c s]|]; simpl;
    try now apply answers_ret.
  intros w _. simpl. now rewrite id_scan_registered.
Qed.

Lemma answers_result {A} (P : world -> Prop) (Q : A -> Prop) (m : M A) (w : world) (a : A) :
  answers P Q m -> P w -> result_of m w = Ok a -> Q a.
Proof. intros H Hw E. specialize (H w Hw). unfold result_of in E. now rewrite E in H. Qed.

(** C10: the duplicate check by external id never rejects a file that
    carries no [civitai.id] tag, and nothing in the pipeline writes that
    tag: the table of extractors has no field [id], and [mark_civitai],
    like the whole of [process_file], leaves the tag absent.  The check is
    idle for a second reason as well: the [civitai] sub-object that
    [collect_civitai_data] builds never has a key [id], so against entries
    registered by the pipeline no tag at all can match. *)
Theorem id_check_is_vacuous (entries : list json) (limit : Z)
  (skip_fix skip_civitai skip_convert fix_only tag_only : bool) (w : world) :
  no_id_tag w ->
  ~ In "id" CIVITAI_FIELDS
  /\ (forall data, no_id_tag (world_after (mark_civitai data) w))
  /\ no_id_tag (world_after
       (process_file entries limit skip_fix skip_civitai skip_convert fix_only tag_only) w)
  /\ (forall name,
        result_of
          (process_file entries limit skip_fix skip_civitai skip_convert fix_only tag_only) w
        <> Ok (Skipped (DuplicateId name)))
  /\ (forall name, result_of (preflight entries limit) w <> Ok (DuplicateId name))
  /\ (forall w0 d, result_of collect_civitai_data w0 = Ok (Some d) ->
                   Dict.get "id" d = None)
  /\ (Forall pipeline_entry entries ->
      forall w0 name, result_of (preflight entries limit) w0 <> Ok (DuplicateId name)).
Proof.
  intros Hw. repeat split.
  - simpl. intuition discriminate.
  - intros data. now apply keeps_mark_civitai.
  - now apply keeps_process_file.
  - intros name E.
    exact (answers_result _ _ _ _ _ (process_file_not_by_id _ _ _ _ _ _ _) Hw E).
  - intros name E.
    exact (answers_result _ _ _ _ _ (preflight_not_by_id _ _) Hw E).
  - intros w0 d E.
    exact (answers_result _ _ _ _ _ collect_civitai_data_no_id I E).
  - intros He w0 name E.
    exact (answers_result _ _ _ _ _ (preflight_registered _ limit He) I E).
Qed.

(** C10 at a full run on the sample file. *)
Lemma id_check_is_vacuous_witness :
  no_id_tag sample_world
  /\ forall name,
       result_of (process_file [] 0 false false false false false) sample_world
       <> Ok (Skipped (DuplicateId name)).
Proof.
  assert (H : no_id_tag sample_world) by reflexivity.
  split; [exact H|].
  apply (id_check_is_vacuous [] 0 false false false false false sample_world H).
Defined.

(** * Instances of the theorems *)

(** C3 at three providers: an answer that is not JSON, a 404, a 500. *)
Lemma provider_failures_witness :
  fetch_civitai sample_sha garbled_world
  = (Ok JNull, add_event (EvUrlopen (CIVITAI_BY_HASH (upper sample_sha))) garbled_world)
  /\ result_of (fetch_civitai sample_sha) not_found_world = Ok JNull
  /\ result_of (fetch_civitai sample_sha) server_error_world = Raise (HTTPError 500).
Proof.
  split; [|split].
  - apply (proj1 (provider_failures sample_sha garbled_world)).
    simpl. eexists. vm_compute. reflexivity.
  - unfold result_of.
    rewrite (proj1 (proj1 (provider_failures sample_sha not_found_world) eq_refl)).
    reflexivity.
  - apply (proj2 (provider_failures sample_sha server_error_world) 500).
    + reflexivity.
    + discriminate.
Defined.

(** C4 at the sample file: one prefixed key. *)
Lemma fix_header_rewrite_correct_witness :
  exists hb',
    file_data (world_after (fix_header_inplace sample_sha) sample_world)
    = safetensors_file hb' "0123456789abcdef"
    /\ len hb' < 18446744073709551616
    /\ rbind (Utf8.decode hb') Json.loads = Ok (JObj (renamed header_sample))
    /\ Dict.has METADATA_KEY (renamed header_sample) = false
    /\ Forall2 entry_renamed (Dict.pop METADATA_KEY header_sample) (renamed header_sample)
    /\ changed_keys (Dict.pop METADATA_KEY header_sample) (renamed header_sample) = 1%nat
    /\ drop_z (len hb')
         (drop_z 8 (file_data (world_after (fix_header_inplace sample_sha) sample_world)))
       = drop_z (len (Json.dumps (JObj header_sample)))
           (drop_z 8 (file_data sample_world)).
Proof.
  apply (fix_header_rewrite_correct sample_sha sample_world
           (world_after (fix_header_inplace sample_sha) sample_world)
           (Json.dumps (JObj header_sample)) "0123456789abcdef" header_sample 1).
  - reflexivity.
  - reflexivity.
  - vm_compute. reflexivity.
  - vm_compute. reflexivity.
  - apply wf_jsonb_sound. reflexivity.
  - reflexivity.
  - reflexivity.
  - apply distinct_nodup. reflexivity.
  - vm_compute. reflexivity.
Defined.

(** C4 where a stripped name meets a key that is already there: the
    rewrite completes, and of the two tensors one is left. *)
Lemma stripped_name_meets_existing_key :
  Dict.has METADATA_KEY header_collision = true
  /\ prefixed_keys header_collision = 1%nat
  /\ Dict.get "a" header_collision = Some (sample_descriptor 0 32)
  /\ exists w' hb',
       fix_header_inplace sample_sha collision_world = (Ok tt, w')
       /\ file_data w' = safetensors_file hb' "0123456789abcdef"
       /\ rbind (Utf8.decode hb') Json.loads
          = Ok (JObj [("a", sample_descriptor 32 64)]).
Proof.
  split; [reflexivity|]. split; [reflexivity|]. split; [reflexivity|].
  eexists. exists (Json.dumps (JObj [("a", sample_descriptor 32 64)])).
  split; [vm_compute; reflexivity|]. split; vm_compute; reflexivity.
Qed.

(** C6 at the sample file: hashed, then fixed. *)
Lemma sha256_tag_pinned_witness :
  sample_sha = Sha256.hexdigest (file_data sample_world)
  /\ xattrs (world_after (fix_header_inplace sample_sha) (hashed sample_world))
       !! XATTR_SHA256 = Some sample_sha
  /\ ensure_sha256 (world_after (fix_header_inplace sample_sha) (hashed sample_world))
     = (Ok sample_sha,
        add_event (EvGetxattr XATTR_SHA256)
          (world_after (fix_header_inplace sample_sha) (hashed sample_world))).
Proof.
  assert (H := sha256_tag_pinned sample_world (hashed sample_world)
                 (world_after (fix_header_inplace sample_sha) (hashed sample_world))
                 sample_sha).
  destruct H as (H1 & _ & _ & H4 & _ & _ & H7).
  - reflexivity.
  - vm_compute. reflexivity.
  - vm_compute. reflexivity.
  - split; [exact H1|]. split; [exact H4 | exact H7].
Defined.

(** C8 at the sample header. *)
Lemma detect_after_fix_is_zero_witness :
  exists b h',
    build_fixed_header header_sample (detect_fixes header_sample) = Ok b
    /\ rbind (Utf8.decode b) Json.loads = Ok (JObj h')
    /\ detect_fixes h' = 0.
Proof.
  apply (detect_after_fix_is_zero header_sample).
  - apply wf_jsonb_sound. reflexivity.
  - vm_compute. discriminate.
  - simpl. intros k [<-|[<-|[<-|[]]]] Hne.
    + now contradiction Hne.
    + split; [discriminate | reflexivity].
    + split; [discriminate | reflexivity].
Defined.

(** C8 at a key that carries the prefix twice: one prefix is left after
    the fix, and detection finds it. *)
Lemma double_prefix_survives_fix :
  detect_fixes header_double_prefix = FIX_KEYS
  /\ exists b,
       build_fixed_header header_double_prefix (detect_fixes header_double_prefix) = Ok b
       /\ rbind (Utf8.decode b) Json.loads = Ok (JObj header_single_prefix)
       /\ detect_fixes header_single_prefix = FIX_KEYS.
Proof.
  split; [reflexivity|]. eexists. split; [vm_compute; reflexivity|].
  split; vm_compute; reflexivity.
Qed.

(** C5 at a header whose key is a lone surrogate, as the decoder gives it
    for the escape: the encoder raises. *)
Lemma lone_surrogate_is_not_encodable :
  rbind (Utf8.decode surrogate_text) Json.loads = Ok (JObj header_lone_surrogate)
  /\ Dict.has METADATA_KEY header_lone_surrogate = false
  /\ build_fixed_header header_lone_surrogate 0 = Raise UnicodeEncodeError.
Proof. repeat split; vm_compute; reflexivity. Qed.

(* ================================================================== *)
(** * Further properties of the code                                   *)
(* ================================================================== *)

(** ** What the actions leave alone *)

Section Frames.
Context (P : world -> Prop) (allowed : event -> bool).
Hypothesis P_event : forall e w, allowed e = true -> P w -> P (add_event e w).

Lemma frame_log (e : event) : allowed e = true -> keeps P (log e).
Proof. intros He w H. now apply P_event. Qed.

Lemma frame_file_contents : keeps P file_contents.
Proof. intros w H. exact H. Qed.

Lemma frame_stat_size : allowed EvStat = true -> keeps P stat_size.
Proof. intros He w H. now apply P_event. Qed.

Lemma frame_urlopen (url : string) :
  allowed (EvUrlopen url) = true -> keeps P (urlopen url).
Proof. intros He w H. now apply P_event. Qed.

Lemma frame_xattr_get (name : string) :
  allowed (EvGetxattr name) = true -> keeps P (_xattr_get name).
Proof. intros He w H. now apply P_event. Qed.

Hypothesis P_xattrs : forall x w, P w -> P (set_xattrs x w).

Lemma frame_xattr_set (name value : string) :
  allowed (EvSetxattr name value) = true -> keeps P (_xattr_set name value).
Proof.
  intros He w H. rewrite run_xattr_set.
  destruct (xattr_writable w); simpl; [apply P_xattrs|]; now apply P_event.
Qed.

Hypothesis P_tmp : forall t w, P w -> P (set_tmp t w).

Lemma frame_write_tmp (data : string) :
  allowed (EvWriteTmp data) = true -> keeps P (write_tmp data).
Proof. intros He w H. unfold write_tmp, bind, log. simpl. now apply P_tmp, P_event. Qed.

End Frames.

(** [He], [Hx], [Ht]: the property survives an allowed event, a change of
    tags, a change of the temporary file ([I] where it does not). *)
Ltac frame_step He Hx Ht :=
  lazymatch goal with
  | |- keeps _ (ret _) => apply keeps_ret
  | |- keeps _ (raise _) => apply keeps_raise
  | |- keeps _ (lift _) => apply keeps_lift
  | |- keeps _ (log _) => apply (frame_log _ _ He); reflexivity
  | |- keeps _ file_contents => apply frame_file_contents
  | |- keeps _ stat_size => apply (frame_stat_size _ _ He); reflexivity
  | |- keeps _ (urlopen _) => apply (frame_urlopen _ _ He); reflexivity
  | |- keeps _ (_xattr_get _) => apply (frame_xattr_get _ _ He); reflexivity
  | |- keeps _ (_xattr_set _ _) => apply (frame_xattr_set _ _ He Hx); reflexivity
  | |- keeps _ (write_tmp _) => apply (frame_write_tmp _ _ He Ht); reflexivity
  | |- keeps _ (except_exception _ _) => apply keeps_except
  | |- keeps _ (bind _ _) => apply keeps_bind; [| intros ?]
  | |- keeps _ (match ?x with _ => _ end) => destruct x
  | |- keeps _ (let _ := _ in _) => cbv zeta
  end.

Ltac frames He Hx Ht := repeat frame_step He Hx Ht.

Lemma only_events_refl (allowed : event -> bool) (w : world) : only_events allowed w w.
Proof. exists []. split; reflexivity. Qed.

Lemma only_events_step (allowed : event -> bool) (w w' : world) (e : event) :
  allowed e = true -> only_events allowed w w' -> only_events allowed w (add_event e w').
Proof.
  intros He (l & E & Hl). exists (e :: l). simpl. rewrite E, He, Hl. split; reflexivity.
Qed.

Lemma only_events_since (allowed : event -> bool) (w w' : world) :
  only_events allowed w w' -> Forall (fun e => allowed e = true) (events_since w w').
Proof.
  intros (l & E & Hl). rewrite (events_since_app w w' l E).
  apply List.Forall_forall. intros e He. apply in_rev in He.
  rewrite forallb_forall in Hl. now apply Hl.
Qed.

(** ** Pre-flight asks and changes nothing *)

Lemma keeps_mark_free (A : Type) (allowed : event -> bool) (w0 : world) (m : M A) :
  keeps (fun w' => untouched w0 w' /\ only_events allowed w0 w') m ->
  forall w, w = w0 -> untouched w (snd (m w)) /\ only_events allowed w (snd (m w)).
Proof.
  intros H w ->. apply H. split; [repeat split | apply only_events_refl].
Qed.

Lemma query_event (w0 : world) (e : event) (w : world) :
  is_query e = true ->
  untouched w0 w /\ only_events is_query w0 w ->
  untouched w0 (add_event e w) /\ only_events is_query w0 (add_event e w).
Proof. intros He [Hu Ho]. split; [exact Hu | now apply only_events_step]. Qed.

(** X1: whatever pre-flight answers, and also when it raises, the bytes of
    the file, its tags and the temporary sibling are as before, and it
    has done nothing but stat the file and read tags. *)
Theorem preflight_is_read_only (entries : list json) (limit : Z) (w : world) :
  untouched w (world_after (preflight entries limit) w)
  /\ Forall (fun e => is_query e = true)
       (events_since w (world_after (preflight entries limit) w)).
Proof.
  assert (H : keeps (fun w' => untouched w w' /\ only_events is_query w w')
                (preflight entries limit)).
  { unfold preflight, get_civitai_xattr, get_sha256_xattr.
    frames (query_event w) I I. }
  destruct (keeps_mark_free _ _ _ _ H w eq_refl) as [Hu Ho].
  split; [exact Hu | now apply only_events_since].
Qed.

(** ** The order of the checks of pre-flight *)

Lemma id_scan_verdict (entries : list json) (id : string) (v : verdict) :
  id_scan entries id = Ok v -> v = Pass \/ exists n, v = DuplicateId n.
Proof.
  induction entries as [|entry r IH]; simpl; intros H.
  - injection H as <-. now left.
  - destruct (py_get entry "civitai" (JObj [])) as [c|]; [|discriminate]. simpl in H.
    destruct (py_get c "id" (JStr "")) as [i|]; [|discriminate]. simpl in H.
    destruct (String.eqb (py_str i) id); [|auto].
    destruct (py_get entry "name" (JStr "?")) as [n|]; [|discriminate]. simpl in H.
    injection H as <-. right. eauto.
Qed.

(** What pre-flight goes on to when the size is accepted. *)
Lemma preflight_after_size (entries : list json) (limit : Z) (w : world) :
  (limit >? 0) && (len (file_data w) >? limit * 1024 * 1024) = false ->
  preflight entries limit w
  = (model_type <- get_civitai_xattr "modelType" ;;
     if given model_type && negb (String.eqb (upper (default "" model_type)) "LORA")
     then ret (NotALora (default "" model_type))
     else
       sha256 <- get_sha256_xattr ;;
       existing <- (if given sha256 then lift (is_duplicate entries "" sha256)
                    else ret JNull) ;;
       if truthy existing then ret (DuplicateSha256 existing)
       else
         civitai_id <- get_civitai_xattr "id" ;;
         if given civitai_id
         then lift (id_scan entries (default "" civitai_id))
         else ret Pass) (add_event EvStat w).
Proof.
  intros H. unfold preflight. erewrite bind_ok by reflexivity. cbv zeta.
  now rewrite H.
Qed.

Lemma after_type_check (entries : list json) :
  answers (fun _ => True)
    (fun v => match v with TooLarge | NotALora _ => False | _ => True end)
    (sha256 <- get_sha256_xattr ;;
     existing <- (if given sha256 then lift (is_duplicate entries "" sha256)
                  else ret JNull) ;;
     if truthy existing then ret (DuplicateSha256 existing)
     else
       civitai_id <- get_civitai_xattr "id" ;;
       if given civitai_id
       then lift (id_scan entries (default "" civitai_id))
       else ret Pass).
Proof.
  apply answers_bind; [apply keeps_anything|]. intros sha256.
  apply answers_bind; [apply keeps_anything|]. intros existing.
  destruct (truthy existing); [now apply answers_ret|].
  apply answers_bind; [apply keeps_anything|]. intros civitai_id.
  destruct (given civitai_id); [|now apply answers_ret].
  intros w _. simpl.
  destruct (id_scan entries (default "" civitai_id)) as [v|] eqn:E; [|exact I].
  destruct (id_scan_verdict _ _ _ E) as [->|[n ->]]; exact I.
Qed.

(** X2: the size check is the first check and is strict: pre-flight
    answers "too large" exactly when the limit is positive and the file
    has more bytes than [limit] MiB; a limit of zero or less switches the
    check off, and a file of exactly the limit passes it. *)
Theorem size_check_iff (entries : list json) (limit : Z) (w : world) :
  result_of (preflight entries limit) w = Ok TooLarge
  <-> limit > 0 /\ len (file_data w) > limit * 1024 * 1024.
Proof.
  split.
  - intros H.
    destruct ((limit >? 0) && (len (file_data w) >? limit * 1024 * 1024)) eqn:E.
    + apply andb_true_iff in E as [E1 E2]. split; lia.
    + exfalso. unfold result_of in H. rewrite (preflight_after_size _ _ _ E) in H.
      set (w1 := add_event EvStat w) in H.
      unfold bind at 1 in H. rewrite run_get_civitai_xattr in H.
      destruct (given _ && negb _); [discriminate|].
      match type of H with
      | fst (?m ?w2) = _ => pose proof (after_type_check entries w2 I) as Ha
      end.
      cbv beta in Ha. rewrite H in Ha. exact Ha.
  - intros [H1 H2]. unfold result_of. now rewrite preflight_too_large.
Qed.

(** X3: the type check comes second and ignores the case of the letters:
    a file that passes the size check is turned away as "not a LoRA"
    exactly when its [civitai.modelType] tag is set, is not empty, and is
    not [LORA] once in upper case. *)
Theorem lora_check_iff (entries : list json) (limit : Z) (w : world) (t : string) :
  (limit >? 0) && (len (file_data w) >? limit * 1024 * 1024) = false ->
  result_of (preflight entries limit) w = Ok (NotALora t)
  <-> option_map Utf8.decode_replace (xattrs w !! (CIVITAI_PFX +:+ "modelType")) = Some t
      /\ t <> "" /\ upper t <> "LORA".
Proof.
  intros Hsize. unfold result_of. rewrite (preflight_after_size _ _ _ Hsize).
  unfold bind at 1. rewrite run_get_civitai_xattr.
  change (xattrs (add_event EvStat w)) with (xattrs w).
  destruct (option_map Utf8.decode_replace (xattrs w !! (CIVITAI_PFX +:+ "modelType")))
    as [[|c s]|] eqn:E; simpl given; cbv iota beta.
  - rewrite andb_false_l. split.
    + intros H.
      match type of H with
      | fst (?m ?w2) = _ => pose proof (after_type_check entries w2 I) as Ha
      end.
      cbv beta in Ha. rewrite H in Ha. destruct Ha.
    + intros (H & Hne & _). injection H as <-. congruence.
  - rewrite andb_true_l.
    change (default "" (Some (String c s))) with (String c s).
    destruct (String.eqb_spec (upper (String c s)) "LORA") as [Hu|Hu]; cbv [negb]; cbv iota.
    + split.
      * intros H.
        match type of H with
        | fst (?m ?w2) = _ => pose proof (after_type_check entries w2 I) as Ha
        end.
        cbv beta in Ha. rewrite H in Ha. destruct Ha.
      * intros (H & _ & Hne). injection H as <-. contradiction.
    + split.
      * intros H. injection H as <-. repeat split; congruence.
      * intros (H & _ & _). injection H as <-. reflexivity.
  - rewrite andb_false_l. split.
    + intros H.
      match type of H with
      | fst (?m ?w2) = _ => pose proof (after_type_check entries w2 I) as Ha
      end.
      cbv beta in Ha. rewrite H in Ha. destruct Ha.
    + intros (H & _). discriminate.
Qed.

Lemma size_check_iff_witness :
  result_of (preflight [] 1) big_world = Ok TooLarge.
Proof.
  apply (proj2 (size_check_iff [] 1 big_world)). split; [lia|].
  apply (proj2 (proj2 big_world_stages)).
Defined.

Lemma lora_check_iff_witness :
  result_of (preflight [] 1200) checkpoint_world = Ok (NotALora "Checkpoint").
Proof.
  apply (proj2 (lora_check_iff [] 1200 checkpoint_world "Checkpoint" eq_refl)).
  split; [reflexivity|]. split; [discriminate | vm_compute; discriminate].
Defined.

(** ** What a run of the pipeline does to the bytes of the file *)

Section FrameCivitai.
Context (P : world -> Prop) (allowed : event -> bool).
Hypothesis P_event : forall e w, allowed e = true -> P w -> P (add_event e w).
Hypothesis P_xattrs : forall x w, P w -> P (set_xattrs x w).
Hypothesis allowed_tagging : forall e, is_tagging e = true -> allowed e = true.

Lemma frame_tag (name value : string) : keeps P (_xattr_set name value).
Proof. apply (frame_xattr_set _ _ P_event P_xattrs). now apply allowed_tagging. Qed.

Lemma frame_ensure_sha256 : keeps P ensure_sha256.
Proof.
  unfold ensure_sha256, get_sha256_xattr, sha256_file, mark_sha256.
  repeat first
    [ apply frame_tag
    | apply (frame_xattr_get _ _ P_event); now apply allowed_tagging
    | apply (frame_log _ _ P_event); now apply allowed_tagging
    | frame_step P_event P_xattrs I ].
Qed.

Lemma frame_mark_civitai_fields (fields : list (string * (json -> result json)))
  (data : json) (written : Z) :
  keeps P (mark_civitai_fields fields data written).
Proof.
  revert written. induction fields as [|[field extractor] fields IH]; intros written; simpl.
  - apply keeps_ret.
  - apply keeps_bind; [apply keeps_lift|]. intros value.
    destruct value; try apply IH;
      (apply keeps_bind; [apply keeps_lift|]; intros raw;
       apply keeps_bind; [apply frame_tag | intros _; apply IH]).
Qed.

Lemma frame_ensure_civitai (sha : string) : keeps P (ensure_civitai_xattrs sha).
Proof.
  unfold ensure_civitai_xattrs, civitai_xattr_exists, fetch_civitai, mark_civitai,
    mark_where_froms.
  repeat first
    [ apply frame_tag
    | apply frame_mark_civitai_fields
    | apply (frame_xattr_get _ _ P_event); now apply allowed_tagging
    | apply (frame_urlopen _ _ P_event); now apply allowed_tagging
    | frame_step P_event P_xattrs I ].
Qed.

Lemma frame_stage_1_2 (skip_civitai : bool) : keeps P (stage_sha256_and_civitai skip_civitai).
Proof.
  unfold stage_sha256_and_civitai, civitai_xattr_exists.
  repeat first
    [ apply frame_ensure_sha256
    | apply frame_ensure_civitai
    | apply (frame_xattr_get _ _ P_event); now apply allowed_tagging
    | frame_step P_event P_xattrs I ].
Qed.

End FrameCivitai.

Lemma keeps_from (A : Type) (P : world -> Prop) (m : M A) (w : world) :
  keeps P m -> P w -> P (snd (m w)).
Proof. intros H. apply H. Qed.

(** X4: in tag-only mode the pipeline tags and does nothing else: it
    returns True unless an exception ends it, the bytes of the file and
    the temporary sibling are as before, and every event is the read or
    the write of a tag, the hashing of the file or a request to the
    provider; the file is not opened for a fix, nothing is written or
    replaced, pre-flight is not run. *)
Theorem tag_only_only_tags (entries : list json) (limit : Z)
  (skip_fix skip_civitai skip_convert fix_only : bool) (w : world) :
  let run := process_file entries limit skip_fix skip_civitai skip_convert fix_only true in
  file_data (world_after run w) = file_data w
  /\ tmp_file (world_after run w) = tmp_file w
  /\ Forall (fun e => is_tagging e = true) (events_since w (world_after run w))
  /\ (forall o, result_of run w = Ok o -> o = Returned true).
Proof.
  intros run.
  set (P := fun w' => (file_data w' = file_data w /\ tmp_file w' = tmp_file w)
                      /\ only_events is_tagging w w').
  assert (He : forall e w', is_tagging e = true -> P w' -> P (add_event e w')).
  { intros e w' H [Hu Ho]. split; [exact Hu | now apply only_events_step]. }
  assert (Hx : forall x w', P w' -> P (set_xattrs x w')).
  { intros x w' H. exact H. }
  assert (H12 : keeps P (stage_sha256_and_civitai skip_civitai)).
  { apply (frame_stage_1_2 P is_tagging He Hx). auto. }
  assert (Hrun : keeps P run).
  { unfold run, process_file. rewrite andb_false_r.
    apply keeps_bind; [exact H12|]. intros sha.
    apply keeps_bind; [apply keeps_ret|]. intros _. apply keeps_ret. }
  destruct (Hrun w) as [[H1 H2] H3].
  { split; [split; reflexivity | apply only_events_refl]. }
  split; [exact H1|]. split; [exact H2|]. split; [now apply only_events_since|].
  intros o. unfold result_of, run, process_file. rewrite andb_false_r. unfold bind.
  destruct (stage_sha256_and_civitai skip_civitai w) as [[sha|e] w1]; simpl;
    [|discriminate].
  intros H. now injection H as <-.
Qed.

Lemma frame_fix_header (P : world -> Prop) (sha : string) :
  (forall e w, P w -> P (add_event e w)) ->
  (forall x w, P w -> P (set_xattrs x w)) ->
  (forall t w, P w -> P (set_tmp t w)) ->
  keeps P replace_with_tmp ->
  keeps P (fix_header_inplace sha).
Proof.
  intros He Hx Ht Hr.
  assert (He' : forall e w, any_event e = true -> P w -> P (add_event e w)) by auto.
  unfold fix_header_inplace, get_fix_xattr, mark_fix, mark_sha256.
  repeat first [ exact Hr | frame_step He' Hx Ht ].
Qed.

Lemma frame_preflight (P : world -> Prop) (entries : list json) (limit : Z) :
  (forall e w, P w -> P (add_event e w)) -> keeps P (preflight entries limit).
Proof.
  intros He.
  assert (He' : forall e w, any_event e = true -> P w -> P (add_event e w)) by auto.
  unfold preflight, get_civitai_xattr, get_sha256_xattr. frames He' I I.
Qed.

Lemma frame_process_file (P : world -> Prop) (entries : list json) (limit : Z)
  (skip_fix skip_civitai skip_convert fix_only tag_only : bool) :
  (forall e w, P w -> P (add_event e w)) ->
  (forall x w, P w -> P (set_xattrs x w)) ->
  (negb skip_fix && negb tag_only = true ->
   (forall t w, P w -> P (set_tmp t w)) /\ keeps P replace_with_tmp) ->
  keeps P (process_file entries limit skip_fix skip_civitai skip_convert fix_only tag_only).
Proof.
  intros He Hx Hfix.
  assert (He' : forall e w, any_event e = true -> P w -> P (add_event e w)) by auto.
  unfold process_file, stage_header_fix.
  apply keeps_bind; [apply (frame_stage_1_2 P any_event He' Hx); reflexivity|]. intros sha.
  apply keeps_bind.
  { destruct (negb skip_fix && negb tag_only); [|apply keeps_ret].
    destruct (Hfix eq_refl) as [Ht Hr]. apply frame_fix_header; auto. }
  intros _. destruct tag_only; [apply keeps_ret|].
  destruct fix_only; [apply keeps_ret|].
  destruct skip_convert; [apply keeps_ret|].
  apply keeps_bind; [now apply frame_preflight|]. intros v.
  destruct (verdict_ok v); apply keeps_ret.
Qed.

(** X5: the pipeline changes the bytes of the file by the replace of the
    header fix and by nothing else: after any run, in any mode and
    however it ends, the bytes are as before unless a replace is among
    the events; and a run with the fix switched off ([skip_fix] or
    [tag_only]) leaves bytes and temporary sibling as they were. *)
Theorem bytes_change_only_by_replace (entries : list json) (limit : Z)
  (skip_fix skip_civitai skip_convert fix_only tag_only : bool) (w : world) :
  let run := process_file entries limit skip_fix skip_civitai skip_convert fix_only
               tag_only in
  (file_data (world_after run w) = file_data w
   \/ In EvReplace (events_since w (world_after run w)))
  /\ (skip_fix || tag_only = true ->
      file_data (world_after run w) = file_data w
      /\ tmp_file (world_after run w) = tmp_file w).
Proof.
  intros run. split.
  - set (P := fun w' => exists l, trace w' = (l ++ trace w)%list
                                  /\ (file_data w' = file_data w \/ In EvReplace l)).
    assert (H : keeps P run).
    { apply frame_process_file.
      - intros e w' (l & E & H). exists (e :: l). simpl. rewrite E. split; [reflexivity|].
        destruct H; [now left | right; now right].
      - intros x w' H. exact H.
      - intros _. split; [intros t w' H; exact H|].
        intros w' (l & E & H). unfold P, replace_with_tmp, bind, log. simpl.
        destruct (tmp_file w'); simpl; exists (EvReplace :: l); simpl; rewrite E;
          (split; [reflexivity | right; now left]). }
    destruct (H w) as (l & E & Hl); [exists []; split; [reflexivity | now left]|].
    destruct Hl as [Hl|Hl]; [now left | right].
    unfold world_after. rewrite (events_since_app w _ l E). now apply in_rev in Hl.
  - intros Hoff.
    set (P := fun w' => file_data w' = file_data w /\ tmp_file w' = tmp_file w).
    assert (H : keeps P run).
    { apply frame_process_file; try (intros ? w' H; exact H).
      intros Hon. exfalso. destruct skip_fix, tag_only; simpl in *; discriminate. }
    apply (H w). split; reflexivity.
Qed.

(** X6: the partial modes ([tag_only], [fix_only], [skip_convert]) end
    before pre-flight: such a run returns True unless an exception ends
    it, and never stats the file; the size limit, the type check and the
    duplicate checks have no say in it. *)
Theorem partial_modes_skip_preflight (entries : list json) (limit : Z)
  (skip_fix skip_civitai skip_convert fix_only tag_only : bool) (w : world) :
  tag_only || fix_only || skip_convert = true ->
  let run := process_file entries limit skip_fix skip_civitai skip_convert fix_only
               tag_only in
  (forall o, result_of run w = Ok o -> o = Returned true)
  /\ Forall (fun e => not_stat e = true) (events_since w (world_after run w)).
Proof.
  intros Hmode run. split.
  - intros o. unfold result_of, run, process_file, bind.
    destruct (stage_sha256_and_civitai skip_civitai w) as [[sha|e] w1]; [|discriminate].
    destruct ((if negb skip_fix && negb tag_only then stage_header_fix sha else ret tt) w1)
      as [[[]|e] w2]; [|discriminate].
    destruct tag_only; [intros H; now injection H as <-|].
    destruct fix_only; [intros H; now injection H as <-|].
    destruct skip_convert; [intros H; now injection H as <-|].
    discriminate Hmode.
  - set (P := fun w' => only_events not_stat w w').
    assert (He : forall e w', not_stat e = true -> P w' -> P (add_event e w')).
    { intros e w' H Ho. now apply only_events_step. }
    assert (Hx : forall x w', P w' -> P (set_xattrs x w')) by (intros x w' H; exact H).
    assert (Ht : forall t w', P w' -> P (set_tmp t w')) by (intros t w' H; exact H).
    assert (H : keeps P run).
    { unfold run, process_file, stage_header_fix.
      apply keeps_bind.
      { apply (frame_stage_1_2 P not_stat He Hx). now intros []. }
      intros sha. apply keeps_bind.
      { destruct (negb skip_fix && negb tag_only); [|apply keeps_ret].
        unfold fix_header_inplace, get_fix_xattr, mark_fix, mark_sha256.
        repeat first
          [ frame_step He Hx Ht
          | match goal with
            | |- keeps _ replace_with_tmp =>
                intros w' Hw'; unfold P, replace_with_tmp, bind, log; simpl;
                destruct (tmp_file w'); simpl;
                destruct Hw' as (l & E & Hl); exists (EvReplace :: l); simpl;
                rewrite E, Hl; split; reflexivity
            end ]. }
      intros _. destruct tag_only; [apply keeps_ret|].
      destruct fix_only; [apply keeps_ret|].
      destruct skip_convert; [apply keeps_ret|]. discriminate Hmode. }
    apply only_events_since. apply (H w). apply only_events_refl.
Qed.

Lemma partial_modes_skip_preflight_witness :
  (forall o, result_of (process_file [] 1 false false false true false) big_world = Ok o ->
             o = Returned true)
  /\ Forall (fun e => not_stat e = true)
       (events_since big_world
          (world_after (process_file [] 1 false false false true false) big_world)).
Proof.
  apply (partial_modes_skip_preflight [] 1 false false false true false big_world).
  reflexivity.
Defined.

Lemma bytes_change_only_by_replace_witness :
  file_data (world_after (process_file [] 0 true false false false false) sample_world)
  = file_data sample_world
  /\ tmp_file (world_after (process_file [] 0 true false false false false) sample_world)
     = tmp_file sample_world.
Proof.
  apply (proj2 (bytes_change_only_by_replace [] 0 true false false false false
                  sample_world)).
  reflexivity.
Defined.

(** ** The header reader *)

(** X7: the reader never raises and changes nothing: whatever the file
    holds, it returns a value (None for a file it cannot read as a
    header) and leaves the world as it was but for the open; a file of
    fewer than 8 bytes, a length field above 100 MiB, bytes that are not
    UTF-8 and text that is not JSON all give None. *)
Theorem reader_never_raises (w : world) :
  exists v,
    read_safetensors_header w = (Ok v, add_event EvOpen w)
    /\ (len (file_data w) < 8 -> v = JNull)
    /\ (forall n, unpack_Q (take_z 8 (file_data w)) = Ok n ->
          (n > HEADER_MAX -> v = JNull)
          /\ (forall e, rbind (Utf8.decode (take_z n (drop_z 8 (file_data w)))) Json.loads
                        = Raise e -> v = JNull)).
Proof.
  unfold read_safetensors_header, except_exception.
  erewrite bind_ok by reflexivity. erewrite bind_ok by reflexivity.
  change (file_data (add_event EvOpen w)) with (file_data w). cbv zeta.
  assert (Hshort : len (file_data w) < 8 ->
                   (String.length (take_z 8 (file_data w)) <? 8)%nat = true).
  { intros H. apply Nat.ltb_lt.
    assert (Hle : forall s n, (String.length (take_z n s) <= String.length s)%nat).
    { induction s as [|c s IH]; intros n; [reflexivity|].
      change (take_z n (String c s))
        with (if n <=? 0 then EmptyString else String c (take_z (n - 1) s)).
      destruct (n <=? 0); simpl; [lia|]. specialize (IH (n - 1)). lia. }
    specialize (Hle (file_data w) 8). unfold len in H. lia. }
  destruct ((String.length (take_z 8 (file_data w)) <? 8)%nat) eqn:E8.
  - exists JNull. split; [reflexivity|]. split; [reflexivity|].
    intros n Hn. unfold unpack_Q in Hn. apply Nat.ltb_lt in E8.
    destruct (Nat.eqb_spec (String.length (take_z 8 (file_data w))) 8); [lia | discriminate].
  - destruct (unpack_Q (take_z 8 (file_data w))) as [n|e] eqn:En.
    + unfold lift at 1. erewrite bind_ok by reflexivity.
      destruct (n >? HEADER_MAX) eqn:Eb.
      * exists JNull. split; [reflexivity|].
        split; [reflexivity|]. intros n' Hn'. split; reflexivity.
      * destruct (rbind (Utf8.decode (take_z n (drop_z 8 (file_data w)))) Json.loads)
          as [v|e] eqn:Ev.
        -- exists v. split; [reflexivity|].
           split; [intros H; specialize (Hshort H); congruence|].
           intros n' Hn'. injection Hn' as <-. split; [lia|]. intros e He. congruence.
        -- exists JNull. split; [reflexivity|].
           split; [reflexivity|]. intros n' Hn'. split; reflexivity.
    + unfold lift at 1. erewrite bind_raise by reflexivity.
      exists JNull. split; [reflexivity|]. split; [reflexivity|]. discriminate.
Qed.

Lemma read_encoded_header (w : world) (h : list (string * json))
  (payload : string) :
  wf_json (JObj h) ->
  len (Json.dumps (JObj h)) <= HEADER_MAX ->
  file_data w = safetensors_file (Json.dumps (JObj h)) payload ->
  read_safetensors_header w = (Ok (JObj h), add_event EvOpen w).
Proof.
  intros Hwf Hlen Hfile.
  unfold read_safetensors_header, except_exception.
  erewrite bind_ok by reflexivity. erewrite bind_ok by reflexivity.
  change (file_data (add_event EvOpen w)) with (file_data w). cbv zeta.
  rewrite Hfile.
  assert (Hlt : len (Json.dumps (JObj h)) < 18446744073709551616).
  { unfold HEADER_MAX in Hlen. lia. }
  destruct (file_parts _ payload Hlt) as (E1 & E2 & _).
  assert (E8 : String.length (take_z 8 (safetensors_file (Json.dumps (JObj h)) payload))
               = 8%nat).
  { unfold unpack_Q in E1.
    destruct (Nat.eqb_spec
                (String.length (take_z 8 (safetensors_file (Json.dumps (JObj h)) payload)))
                8); [assumption | discriminate]. }
  rewrite E8. change ((8 <? 8)%nat) with false. cbv iota.
  unfold lift at 1. erewrite bind_ok by (rewrite E1; reflexivity).
  destruct (Z.gtb_spec (len (Json.dumps (JObj h))) HEADER_MAX); [lia|].
  rewrite E2. destruct (decode_loads_dumps _ Hwf) as [_ ->]. reflexivity.
Qed.

(** X8: the reader reads back what the layout holds: for a file made of
    the 8-byte length, the encoded header and a payload, where the
    header is a dictionary of Unicode text without floats whose encoding
    is within the bound of 100 MiB, the reader returns that dictionary. *)
Theorem reader_reads_encoded_header (w : world) (h : list (string * json))
  (payload : string) :
  wf_json (JObj h) ->
  len (Json.dumps (JObj h)) <= HEADER_MAX ->
  file_data w = safetensors_file (Json.dumps (JObj h)) payload ->
  read_safetensors_header w = (Ok (JObj h), add_event EvOpen w).
Proof. apply read_encoded_header. Qed.

Lemma reader_reads_encoded_header_witness :
  read_safetensors_header sample_world
  = (Ok (JObj header_sample), add_event EvOpen sample_world).
Proof.
  apply (reader_reads_encoded_header sample_world header_sample "0123456789abcdef").
  - apply wf_jsonb_sound. reflexivity.
  - vm_compute. discriminate.
  - reflexivity.
Defined.

(** ** The header fixer *)

Lemma build_fixed_header_wf (h : list (string * json)) :
  wf_json (JObj h) ->
  build_fixed_header h (detect_fixes h)
  = Ok (Json.dumps (JObj (fixed_header h (detect_fixes h)))).
Proof.
  intros Hwf. unfold build_fixed_header.
  now destruct (decode_loads_dumps _ (wf_fixed_header h Hwf)) as [-> _].
Qed.

(** X9: stage 3 hands stage 5 what it built: after a completed rewrite
    the reader returns the dictionary the fixer encoded (when its
    encoding is within the bound of the reader), and the new file is the
    new length, the new header and the old payload. *)
Theorem fix_then_read (sha : string) (w w' : world) (hb payload : string)
  (h : list (string * json)) :
  unchecked w ->
  file_data w = safetensors_file hb payload ->
  len hb < 18446744073709551616 ->
  rbind (Utf8.decode hb) Json.loads = Ok (JObj h) ->
  wf_json (JObj h) ->
  detect_fixes h <> 0 ->
  len (Json.dumps (JObj (fixed_header h (detect_fixes h)))) <= HEADER_MAX ->
  fix_header_inplace sha w = (Ok tt, w') ->
  file_data w'
  = safetensors_file (Json.dumps (JObj (fixed_header h (detect_fixes h)))) payload
  /\ result_of read_safetensors_header w'
     = Ok (JObj (fixed_header h (detect_fixes h))).
Proof.
  intros Hun Hfile Hlen Hdec Hwf Hflags Hmax Hrun.
  destruct (fix_header_completed sha w w' hb payload h Hun Hfile Hlen Hdec Hflags Hrun)
    as (fb & Hb & _ & _ & ->).
  rewrite (build_fixed_header_wf h Hwf) in Hb. injection Hb as <-.
  split; [reflexivity|]. unfold result_of.
  erewrite read_encoded_header;
    [reflexivity | now apply wf_fixed_header | exact Hmax | reflexivity].
Qed.

Lemma fix_then_read_witness :
  file_data (world_after (fix_header_inplace sample_sha) sample_world)
  = safetensors_file
      (Json.dumps (JObj (fixed_header header_sample (detect_fixes header_sample))))
      "0123456789abcdef"
  /\ result_of read_safetensors_header
       (world_after (fix_header_inplace sample_sha) sample_world)
     = Ok (JObj (fixed_header header_sample (detect_fixes header_sample))).
Proof.
  apply (fix_then_read sample_sha sample_world _ (Json.dumps (JObj header_sample))
           "0123456789abcdef" header_sample).
  - reflexivity.
  - reflexivity.
  - vm_compute. reflexivity.
  - vm_compute. reflexivity.
  - apply wf_jsonb_sound. reflexivity.
  - vm_compute. discriminate.
  - vm_compute. discriminate.
  - vm_compute. reflexivity.
Defined.

(** X10: a fix that fails fails before it writes: when tags can be written
    and the digest is text, a call that raises (a file too short for the
    length field, a header that is not UTF-8 or not JSON or not a
    dictionary, a key that cannot be encoded) leaves the bytes, the tags
    and the temporary sibling as they were, having read the fix-state
    tag and opened the file and done nothing more. *)
Theorem failed_fix_changes_nothing (sha : string) (w w' : world) (e : exn) :
  xattr_writable w = true -> Utf8.valid sha = true ->
  fix_header_inplace sha w = (Raise e, w') ->
  untouched w w'
  /\ events_since w w' = [EvGetxattr XATTR_FIX; EvOpen].
Proof.
  intros Hw Hsha. unfold fix_header_inplace.
  erewrite bind_ok by apply run_get_fix_xattr.
  destruct (match xattrs w !! XATTR_FIX with
            | Some r => int_of_text r
            | None => None
            end); [discriminate|].
  erewrite bind_ok by reflexivity. erewrite bind_ok by reflexivity.
  set (w1 := add_event EvOpen (add_event (EvGetxattr XATTR_FIX) w)).
  change (file_data w1) with (file_data w).
  assert (Hend : forall e0 : exn, (Raise e0 : result unit, w1) = (Raise e, w') ->
                 untouched w w' /\ events_since w w' = [EvGetxattr XATTR_FIX; EvOpen]).
  { intros e0 H. injection H as _ <-. split; [repeat split|].
    now apply (events_since_app w w1 [EvOpen; EvGetxattr XATTR_FIX]). }
  unfold lift, bind.
  destruct (unpack_Q (take_z 8 (file_data w))) as [n|e0]; [|apply Hend].
  destruct (Utf8.decode (take_z n (drop_z 8 (file_data w)))) as [text|e0]; [|apply Hend].
  destruct (Json.loads text) as [header|e0]; [|apply Hend].
  destruct (detect_fixes_any header) as [flags|e0]; [|apply Hend].
  destruct (flags =? 0).
  - rewrite run_mark_fix, run_xattr_set.
    change (xattr_writable w1) with (xattr_writable w). rewrite Hw. discriminate.
  - destruct (build_fixed_header_any header flags) as [fb|e0]; [|apply Hend].
    destruct (pack_Q (len fb)) as [p|e0]; [|apply Hend].
    unfold write_tmp, replace_with_tmp, mark_sha256, mark_fix, _xattr_set, bind, log, lift,
      Utf8.encode.
    simpl. rewrite Hsha. simpl. rewrite Hw. discriminate.
Qed.

Lemma failed_fix_changes_nothing_witness :
  untouched garbled_file_world
    (world_after (fix_header_inplace sample_sha) garbled_file_world)
  /\ events_since garbled_file_world
       (world_after (fix_header_inplace sample_sha) garbled_file_world)
     = [EvGetxattr XATTR_FIX; EvOpen].
Proof.
  apply (failed_fix_changes_nothing sample_sha garbled_file_world _ JSONDecodeError).
  - reflexivity.
  - vm_compute. reflexivity.
  - vm_compute. reflexivity.
Defined.

(** X11: there is no way back after the replace: when tags cannot be
    written, a header that needs a fix is still rewritten; the call then
    raises OSError at the first [setxattr], and leaves the rewritten
    file without any tag, neither the digest of the original bytes nor
    the fix state. *)
Theorem replaced_file_loses_tags (sha : string) (w : world) (hb payload : string)
  (h : list (string * json)) :
  xattr_writable w = false ->
  unchecked w ->
  file_data w = safetensors_file hb payload ->
  len hb < 18446744073709551616 ->
  rbind (Utf8.decode hb) Json.loads = Ok (JObj h) ->
  wf_json (JObj h) ->
  detect_fixes h <> 0 ->
  len (Json.dumps (JObj (fixed_header h (detect_fixes h)))) < 18446744073709551616 ->
  Utf8.valid sha = true ->
  exists w',
    fix_header_inplace sha w = (Raise OSError, w')
    /\ file_data w'
       = safetensors_file (Json.dumps (JObj (fixed_header h (detect_fixes h)))) payload
    /\ xattrs w' = ∅
    /\ In EvReplace (events_since w w').
Proof.
  intros Hw Hun Hfile Hlen Hdec Hwf Hflags Hfb Hsha.
  rewrite (fix_header_run sha w hb payload h Hun Hfile Hlen Hdec). cbv zeta.
  destruct (Z.eqb_spec (detect_fixes h) 0) as [|_]; [contradiction|].
  rewrite (build_fixed_header_wf h Hwf).
  set (fb := Json.dumps (JObj (fixed_header h (detect_fixes h)))) in *.
  unfold pack_Q. pose proof (len_nonneg fb).
  destruct (Z.leb_spec 0 (len fb)); [|lia].
  destruct (Z.ltb_spec (len fb) 18446744073709551616); [|lia].
  unfold write_tmp, replace_with_tmp, mark_sha256, mark_fix, _xattr_set, bind, log, lift,
    Utf8.encode.
  simpl. rewrite Hsha. simpl. rewrite Hw.
  eexists. split; [reflexivity|]. split; [reflexivity|]. split; [reflexivity|].
  erewrite events_since_app
    with (l := [EvSetxattr XATTR_SHA256 sha; EvReplace;
                EvWriteTmp (safetensors_file fb payload); EvOpen; EvGetxattr XATTR_FIX]);
    [|reflexivity].
  simpl. auto.
Qed.

Lemma replaced_file_loses_tags_witness :
  exists w',
    fix_header_inplace sample_sha unwritable_world = (Raise OSError, w')
    /\ file_data w'
       = safetensors_file
           (Json.dumps (JObj (fixed_header header_sample (detect_fixes header_sample))))
           "0123456789abcdef"
    /\ xattrs w' = ∅
    /\ In EvReplace (events_since unwritable_world w').
Proof.
  apply (replaced_file_loses_tags sample_sha unwritable_world
           (Json.dumps (JObj header_sample)) "0123456789abcdef" header_sample).
  - reflexivity.
  - reflexivity.
  - reflexivity.
  - vm_compute. reflexivity.
  - vm_compute. reflexivity.
  - apply wf_jsonb_sound. reflexivity.
  - vm_compute. discriminate.
  - vm_compute. reflexivity.
  - vm_compute. reflexivity.
Defined.

(** X12: a file whose header needs no fix is tagged and not touched: with
    no [__metadata__] entry and no prefixed key, the fixer sets the
    fix-state tag to 0 and does nothing else; bytes and temporary
    sibling stay, nothing is written or replaced, and the digest it was
    given is not written either. *)
Theorem clean_file_is_only_tagged (sha : string) (w : world) (hb payload : string)
  (h : list (string * json)) :
  unchecked w ->
  file_data w = safetensors_file hb payload ->
  len hb < 18446744073709551616 ->
  rbind (Utf8.decode hb) Json.loads = Ok (JObj h) ->
  Dict.has METADATA_KEY h = false ->
  (forall k, In k (Dict.keys h) -> startswith k HDR_PREFIX = false) ->
  xattr_writable w = true ->
  exists w',
    fix_header_inplace sha w = (Ok tt, w')
    /\ file_data w' = file_data w
    /\ tmp_file w' = tmp_file w
    /\ xattrs w' = <[XATTR_FIX := "0"]> (xattrs w)
    /\ events_since w w' = [EvGetxattr XATTR_FIX; EvOpen; EvSetxattr XATTR_FIX "0"].
Proof.
  intros Hun Hfile Hlen Hdec Hmeta Hkeys Hw.
  assert (Hflags : detect_fixes h = 0).
  { apply detect_fixes_zero. split; [now apply dict_has_not_in | exact Hkeys]. }
  rewrite (fix_header_clean_run sha w hb payload h Hun Hfile Hlen Hdec Hflags).
  rewrite run_mark_fix, run_xattr_set.
  change (xattr_writable (add_event EvOpen (add_event (EvGetxattr XATTR_FIX) w)))
    with (xattr_writable w).
  rewrite Hw. eexists. split; [reflexivity|]. repeat split.
  now apply (events_since_app w _ [EvSetxattr XATTR_FIX "0"; EvOpen; EvGetxattr XATTR_FIX]).
Qed.

Lemma clean_file_is_only_tagged_witness :
  exists w',
    fix_header_inplace sample_sha clean_world = (Ok tt, w')
    /\ file_data w' = file_data clean_world
    /\ tmp_file w' = tmp_file clean_world
    /\ xattrs w' = <[XATTR_FIX := "0"]> (xattrs clean_world)
    /\ events_since clean_world w'
       = [EvGetxattr XATTR_FIX; EvOpen; EvSetxattr XATTR_FIX "0"].
Proof.
  apply (clean_file_is_only_tagged sample_sha clean_world
           (Json.dumps (JObj header_clean)) "0123456789abcdef" header_clean).
  - reflexivity.
  - reflexivity.
  - vm_compute. reflexivity.
  - vm_compute. reflexivity.
  - reflexivity.
  - simpl. intros k [<-|[<-|[]]]; reflexivity.
  - reflexivity.
Defined.

(** ** Tags written and read back *)

Lemma decode_replace_from_valid (s : string) :
  forall st pend,
    (st = Utf8.S0 -> pend = EmptyString) ->
    Utf8.run st s = Some Utf8.S0 ->
    Utf8.decode_replace_from st pend s = pend +:+ s.
Proof.
  induction s as [|c r IH]; intros st pend Hp Hrun.
  - simpl in Hrun. injection Hrun as ->. rewrite (Hp eq_refl). reflexivity.
  - simpl in Hrun. simpl Utf8.decode_replace_from.
    destruct (Utf8.step st c) as [st'|]; [|discriminate].
    destruct st';
      try (rewrite IH by (assumption || discriminate);
           rewrite app_assoc_s, app_cons, app_nil_l_s; reflexivity).
    rewrite IH by (assumption || reflexivity). reflexivity.
Qed.

(** Decoding with replacement leaves well-formed UTF-8 as it is. *)
Lemma decode_replace_valid (s : string) :
  Utf8.valid s = true -> Utf8.decode_replace s = s.
Proof.
  unfold Utf8.valid, Utf8.decode_replace. intros H.
  destruct (Utf8.run Utf8.S0 s) as [[]|] eqn:E; try discriminate.
  now rewrite (decode_replace_from_valid s Utf8.S0 EmptyString).
Qed.

(** X13: the fix-state tag reads back as the number written: for every
    integer, negative ones too, [mark_fix] followed by [get_fix_xattr]
    gives that integer, so that a fixer that set the tag finds it set. *)
Theorem fix_tag_round_trip (flags : Z) (w : world) :
  xattr_writable w = true ->
  result_of (mark_fix flags ;;; get_fix_xattr) w = Ok (Some flags).
Proof.
  intros Hw. unfold result_of.
  erewrite bind_ok by (rewrite run_mark_fix, run_xattr_set, Hw; reflexivity).
  rewrite run_get_fix_xattr. simpl.
  now rewrite lookup_insert_eq, int_of_text_str_of_int.
Qed.

Lemma fix_tag_round_trip_witness :
  result_of (mark_fix (-3) ;;; get_fix_xattr) sample_world = Ok (Some (-3)).
Proof. apply (fix_tag_round_trip (-3) sample_world). reflexivity. Defined.

(** X14: the digest tag reads back as the text written, and text that
    cannot be encoded is not written: for Unicode text [d],
    [mark_sha256] followed by [get_sha256_xattr] gives [d]; for a [d]
    with a lone surrogate [mark_sha256] raises and the tags stay. *)
Theorem sha256_tag_round_trip (d : string) (w : world) :
  xattr_writable w = true ->
  (Utf8.valid d = true ->
   result_of (mark_sha256 d ;;; get_sha256_xattr) w = Ok (Some d))
  /\ (Utf8.valid d = false ->
      mark_sha256 d w = (Raise UnicodeEncodeError, w)).
Proof.
  intros Hw. split; intros Hd.
  - unfold result_of.
    erewrite bind_ok by (rewrite (run_mark_sha256 d w Hd), run_xattr_set, Hw; reflexivity).
    rewrite run_get_sha256_xattr. simpl. rewrite lookup_insert_eq. simpl.
    now rewrite (decode_replace_valid d Hd).
  - unfold mark_sha256, Utf8.encode, lift, bind. now rewrite Hd.
Qed.

Lemma sha256_tag_round_trip_witness :
  result_of (mark_sha256 "abc" ;;; get_sha256_xattr) sample_world = Ok (Some "abc").
Proof.
  apply (proj1 (sha256_tag_round_trip "abc" sample_world eq_refl)). reflexivity.
Defined.

(** X15: [ensure_sha256] settles: the digest it returns is not empty, and
    every later call returns the same digest from the tag, with one read
    of the tag and without reading the file. *)
Theorem ensure_sha256_idempotent (w w1 : world) (d : string) :
  ensure_sha256 w = (Ok d, w1) ->
  d <> EmptyString
  /\ ensure_sha256 w1 = (Ok d, add_event (EvGetxattr XATTR_SHA256) w1).
Proof.
  intros H.
  destruct (given (option_map Utf8.decode_replace (xattrs w !! XATTR_SHA256))) eqn:Eg.
  - destruct (xattrs w !! XATTR_SHA256) as [raw|] eqn:Eraw; [|discriminate].
    simpl in Eg. destruct (Utf8.decode_replace raw) as [|c r] eqn:Ed; [discriminate|].
    rewrite (ensure_sha256_cached w raw c r Eraw Ed) in H. injection H as <- <-.
    split; [discriminate|].
    now apply (ensure_sha256_cached _ raw c r).
  - destruct (ensure_sha256_computes w w1 d Eg H) as [-> ->].
    destruct (hexdigest_nonempty (file_data w)) as (c & r & E).
    split; [rewrite E; discriminate|].
    apply ensure_sha256_after. unfold hashed. simpl. apply lookup_insert_eq.
Qed.

Lemma ensure_sha256_idempotent_witness :
  sample_sha <> EmptyString
  /\ ensure_sha256 (hashed sample_world)
     = (Ok sample_sha, add_event (EvGetxattr XATTR_SHA256) (hashed sample_world)).
Proof.
  apply (ensure_sha256_idempotent sample_world (hashed sample_world) sample_sha).
  vm_compute. reflexivity.
Defined.

(** ** The tags of the provider's record *)

Lemma civitai_raw_wf (v : json) : wf_json v -> civitai_raw v = Ok (tag_text v).
Proof.
  intros H. destruct v as [| [] | z | lit | s | l | kvs]; simpl in *;
    try reflexivity; try contradiction.
  - unfold Utf8.encode. now rewrite (valid_ascii _ (str_of_int_is_ascii z)).
  - unfold Utf8.encode. now rewrite H.
  - now destruct (decode_loads_dumps (JArr l) H) as [-> _].
  - now destruct (decode_loads_dumps (JObj kvs) H) as [-> _].
Qed.

Lemma app_inj_l (p a b : string) : p +:+ a = p +:+ b -> a = b.
Proof.
  induction p as [|x p IH]; [now rewrite !app_nil_l_s|].
  rewrite !app_cons. intros H. injection H as H. auto.
Qed.

Lemma mark_fields_run (fields : list (string * (json -> result json))) (data : json) :
  NoDup (map fst fields) ->
  Forall (fun fe => exists v, snd fe data = Ok v /\ wf_json v) fields ->
  forall written w,
    xattr_writable w = true ->
    exists w',
      mark_civitai_fields fields data written w
      = (Ok (written + Z.of_nat (length (List.filter (fun v => negb (is_none v))
                                           (extracted fields data)))), w')
      /\ xattr_writable w' = true
      /\ file_data w' = file_data w
      /\ tmp_file w' = tmp_file w
      /\ (forall fe, In fe fields ->
            exists v, snd fe data = Ok v
              /\ xattrs w' !! (CIVITAI_PFX +:+ fst fe)
                 = if is_none v then xattrs w !! (CIVITAI_PFX +:+ fst fe)
                   else Some (tag_text v))
      /\ (forall name, (forall fe, In fe fields -> name <> CIVITAI_PFX +:+ fst fe) ->
            xattrs w' !! name = xattrs w !! name).
Proof.
  intros Hnd Hall. induction Hall as [|[field ex] fields (v & Ev & Hwf) _ IH];
    intros written w Hw.
  - exists w. simpl. rewrite Z.add_0_r. repeat split; auto. intros fe [].
  - simpl in Hnd. apply NoDup_cons in Hnd as [Hfresh Hnd]. rewrite list_elem_of_In in Hfresh.
    specialize (IH Hnd). simpl in Ev.
    assert (Hother : forall fe, In fe fields ->
                     CIVITAI_PFX +:+ field <> CIVITAI_PFX +:+ fst fe).
    { intros fe Hin E. apply app_inj_l in E. apply Hfresh. rewrite E. now apply in_map. }
    simpl mark_civitai_fields. unfold extracted. simpl flat_map. rewrite Ev.
    fold (extracted fields data). unfold lift at 1. erewrite bind_ok by reflexivity.
    destruct (is_none v) eqn:En.
    + destruct v; try discriminate En. simpl app. simpl List.filter.
      destruct (IH written w Hw) as (w' & Hrun & Hw' & Hf & Ht & Hfields & Hframe).
      exists w'. split; [exact Hrun|]. repeat split; try assumption.
      * intros fe [<-|Hin]; [|now apply Hfields].
        exists JNull. split; [exact Ev|]. simpl. now apply Hframe.
      * intros name Hname. apply Hframe. intros fe Hin. apply Hname. now right.
    + assert (Hrun1 : (raw <- lift (civitai_raw v) ;;
                       _xattr_set (CIVITAI_PFX +:+ field) raw ;;;
                       mark_civitai_fields fields data (written + 1)) w
                      = mark_civitai_fields fields data (written + 1)
                          (set_xattrs (<[CIVITAI_PFX +:+ field := tag_text v]> (xattrs w))
                             (add_event (EvSetxattr (CIVITAI_PFX +:+ field) (tag_text v)) w))).
      { unfold lift at 1. erewrite bind_ok by (rewrite (civitai_raw_wf v Hwf); reflexivity).
        erewrite bind_ok by (rewrite run_xattr_set, Hw; reflexivity). reflexivity. }
      set (w1 := set_xattrs (<[CIVITAI_PFX +:+ field := tag_text v]> (xattrs w))
                   (add_event (EvSetxattr (CIVITAI_PFX +:+ field) (tag_text v)) w)) in *.
      destruct (IH (written + 1) w1 Hw) as (w' & Hrun & Hw' & Hf & Ht & Hfields & Hframe).
      exists w'. split.
      { destruct v; try discriminate En; simpl app; simpl List.filter; simpl length;
          (etransitivity; [exact Hrun1|]); rewrite Hrun; do 2 f_equal; lia. }
      repeat split; try assumption.
      * intros fe [<-|Hin].
        -- exists v. split; [exact Ev|]. rewrite En. simpl fst.
           rewrite (Hframe _ Hother). unfold w1. simpl. apply lookup_insert_eq.
        -- destruct (Hfields fe Hin) as (v' & Ev' & Htag). exists v'. split; [exact Ev'|].
           rewrite Htag. destruct (is_none v'); [|reflexivity].
           unfold w1. simpl. apply lookup_insert_ne. now apply Hother.
      * intros name Hname. rewrite Hframe by (intros fe Hin; apply Hname; now right).
        unfold w1. simpl. apply lookup_insert_ne. intros E. apply (Hname (field, ex)); auto.
        now left.
Qed.

Lemma wf_dict_get (d : list (string * json)) (k : string) (v : json) :
  wf_json (JObj d) -> Dict.get k d = Some v -> wf_json v.
Proof.
  intros [_ Hall]. induction d as [|[k' v'] d IH]; simpl; [discriminate|].
  destruct Hall as (_ & Hv & Hall). destruct (String.eqb k' k); [|auto].
  intros H. now injection H as <-.
Qed.

Lemma py_get_wf (d : list (string * json)) (k : string) :
  wf_json (JObj d) -> exists v, py_get (JObj d) k JNull = Ok v /\ wf_json v.
Proof.
  intros H. simpl. destruct (Dict.get k d) as [v|] eqn:E.
  - exists v. split; [reflexivity | now apply (wf_dict_get d k)].
  - exists JNull. split; [reflexivity | exact I].
Qed.

Lemma extractors_succeed (d : list (string * json)) :
  wf_json (JObj d) -> model_is_object d ->
  Forall (fun fe => exists v, snd fe (JObj d) = Ok v /\ wf_json v) CIVITAI_FIELD_EXTRACTORS.
Proof.
  intros Hwf Hmodel.
  assert (Hm : forall k, exists v,
             rbind (py_get (JObj d) "model" (JObj [])) (fun m => py_get m k JNull) = Ok v
             /\ wf_json v).
  { intros k. unfold model_is_object in Hmodel. simpl.
    destruct (Dict.get "model" d) as [m|] eqn:E.
    - destruct m; try contradiction. apply py_get_wf. now apply (wf_dict_get d "model").
    - exists JNull. split; [reflexivity | exact I]. }
  repeat constructor; simpl snd; first [now apply py_get_wf | apply Hm].
Qed.

Lemma mark_civitai_run (d : list (string * json)) (w : world) :
  wf_json (JObj d) -> model_is_object d -> xattr_writable w = true ->
  exists w',
    mark_civitai (JObj d) w
    = (Ok (Z.of_nat (length (List.filter (fun v => negb (is_none v))
                               (extracted CIVITAI_FIELD_EXTRACTORS (JObj d))))), w')
    /\ (forall field extractor, In (field, extractor) CIVITAI_FIELD_EXTRACTORS ->
          exists v, extractor (JObj d) = Ok v
            /\ xattrs w' !! (CIVITAI_PFX +:+ field)
               = if is_none v then xattrs w !! (CIVITAI_PFX +:+ field)
                 else Some (tag_text v))
    /\ xattrs w' !! (CIVITAI_PFX +:+ "metadata.version") = Some "1"
    /\ (forall name, startswith name CIVITAI_PFX = false ->
          xattrs w' !! name = xattrs w !! name)
    /\ file_data w' = file_data w
    /\ xattr_writable w' = true.
Proof.
  intros Hwf Hmodel Hw.
  assert (Hnd : NoDup (map fst CIVITAI_FIELD_EXTRACTORS))
    by (apply distinct_nodup; reflexivity).
  destruct (mark_fields_run CIVITAI_FIELD_EXTRACTORS (JObj d)
              Hnd (extractors_succeed d Hwf Hmodel) 0 w Hw)
    as (w1 & Hrun & Hw1 & Hf & _ & Hfields & Hframe).
  unfold mark_civitai. erewrite bind_ok by exact Hrun.
  erewrite bind_ok by (rewrite run_xattr_set, Hw1; reflexivity).
  eexists. split; [reflexivity|]. simpl xattrs. simpl file_data.
  split; [|split; [|split]].
  - intros field ex Hin. destruct (Hfields _ Hin) as (v & Ev & Htag).
    exists v. split; [exact Ev|]. simpl fst in Htag. rewrite <- Htag.
    apply lookup_insert_ne. intros E. apply app_inj_l in E. subst field.
    simpl in Hin.
    repeat (destruct Hin as [Hin|Hin]; [injection Hin as Hin _; discriminate Hin|]).
    exact Hin.
  - apply lookup_insert_eq.
  - intros name Hname.
    assert (Hne : forall s, name <> CIVITAI_PFX +:+ s).
    { intros s E. rewrite E in Hname. unfold startswith in Hname.
      now rewrite prefix_app in Hname. }
    rewrite lookup_insert_ne by (intros E; now apply (Hne "metadata.version")).
    apply Hframe. intros fe _. apply Hne.
  - split; [exact Hf | exact Hw1].
Qed.

(** X16: what [mark_civitai] leaves on a record it can handle (Unicode
    text, no floats, [model] missing or an object), when tags can be
    written: it returns the number of fields of the record that are not
    null, each such field is in its tag as text (a string as it is, a
    number in decimal, a list as compact JSON), the tag of a null field
    is left as it was, the version stamp is [1], and no tag outside
    [civitai.] and no byte of the file changes. *)
Theorem mark_civitai_tags (d : list (string * json)) (w : world) :
  wf_json (JObj d) -> model_is_object d -> xattr_writable w = true ->
  exists w',
    mark_civitai (JObj d) w
    = (Ok (Z.of_nat (length (List.filter (fun v => negb (is_none v))
                               (extracted CIVITAI_FIELD_EXTRACTORS (JObj d))))), w')
    /\ (forall field extractor, In (field, extractor) CIVITAI_FIELD_EXTRACTORS ->
          exists v, extractor (JObj d) = Ok v
            /\ xattrs w' !! (CIVITAI_PFX +:+ field)
               = if is_none v then xattrs w !! (CIVITAI_PFX +:+ field)
                 else Some (tag_text v))
    /\ xattrs w' !! (CIVITAI_PFX +:+ "metadata.version") = Some "1"
    /\ (forall name, startswith name CIVITAI_PFX = false ->
          xattrs w' !! name = xattrs w !! name)
    /\ file_data w' = file_data w.
Proof.
  intros Hwf Hmodel Hw.
  destruct (mark_civitai_run d w Hwf Hmodel Hw) as (w' & H1 & H2 & H3 & H4 & H5 & _).
  exists w'. auto.
Qed.

Lemma mark_civitai_tags_witness :
  exists w',
    mark_civitai (JObj sample_record) sample_world
    = (Ok (Z.of_nat (length (List.filter (fun v => negb (is_none v))
                               (extracted CIVITAI_FIELD_EXTRACTORS (JObj sample_record))))),
       w')
    /\ (forall field extractor, In (field, extractor) CIVITAI_FIELD_EXTRACTORS ->
          exists v, extractor (JObj sample_record) = Ok v
            /\ xattrs w' !! (CIVITAI_PFX +:+ field)
               = if is_none v then xattrs sample_world !! (CIVITAI_PFX +:+ field)
                 else Some (tag_text v))
    /\ xattrs w' !! (CIVITAI_PFX +:+ "metadata.version") = Some "1"
    /\ (forall name, startswith name CIVITAI_PFX = false ->
          xattrs w' !! name = xattrs sample_world !! name)
    /\ file_data w' = file_data sample_world.
Proof.
  apply (mark_civitai_tags sample_record sample_world).
  - apply wf_jsonb_sound. reflexivity.
  - exact I.
  - reflexivity.
Defined.

(** ** The provider's record as a cache *)

Section KeepsTag.
Context (name : string) (v : option string) (fd : string) (t : option string).

Lemma tag_kept_event (e : event) (w : world) :
  any_event e = true -> tag_is name v fd t w -> tag_is name v fd t (add_event e w).
Proof. intros _ H. exact H. Qed.

Lemma tag_kept_set (name' value : string) :
  name' <> name -> keeps (tag_is name v fd t) (_xattr_set name' value).
Proof.
  intros Hne w (H1 & H2 & H3). rewrite run_xattr_set.
  destruct (xattr_writable w); [|repeat split; assumption].
  repeat split; try assumption. simpl. now rewrite lookup_insert_ne.
Qed.

Lemma tag_kept_fields (fields : list (string * (json -> result json)))
  (data : json) (written : Z) :
  Forall (fun fe => CIVITAI_PFX +:+ fst fe <> name) fields ->
  keeps (tag_is name v fd t) (mark_civitai_fields fields data written).
Proof.
  intros H. revert written. induction H as [|[field extractor] fields Hne _ IH];
    intros written; simpl.
  - apply keeps_ret.
  - apply keeps_bind; [apply keeps_lift|]. intros value.
    destruct value; try apply IH;
      (apply keeps_bind; [apply keeps_lift|]; intros raw;
       apply keeps_bind; [now apply tag_kept_set | intros _; apply IH]).
Qed.

End KeepsTag.

Lemma written_names (name : string) :
  civitai_written name = false ->
  Forall (fun fe => CIVITAI_PFX +:+ fst fe <> name) CIVITAI_FIELD_EXTRACTORS
  /\ CIVITAI_PFX +:+ "metadata.version" <> name
  /\ XATTR_WHERE <> name.
Proof.
  unfold civitai_written. intros H. apply orb_false_iff in H as [H1 H2].
  rewrite existsb_false in H1.
  split; [|split].
  - apply List.Forall_forall. intros fe Hin E.
    assert (Hf : In (fst fe) (CIVITAI_FIELDS ++ ["metadata.version"])%list).
    { apply in_or_app. left. unfold CIVITAI_FIELDS. now apply in_map. }
    apply (in_map (fun f => CIVITAI_PFX +:+ f)) in Hf. apply H1 in Hf.
    rewrite <- E, String.eqb_refl in Hf. discriminate.
  - intros E.
    assert (Hf : In (CIVITAI_PFX +:+ "metadata.version")
                    (map (fun f => CIVITAI_PFX +:+ f)
                       (CIVITAI_FIELDS ++ ["metadata.version"])%list)).
    { apply (in_map (fun f => CIVITAI_PFX +:+ f)). apply in_or_app. right. now left. }
    apply H1 in Hf. rewrite <- E, String.eqb_refl in Hf. discriminate.
  - intros E. rewrite <- E, String.eqb_refl in H2. discriminate.
Qed.

Lemma tag_kept_ensure_civitai (name : string) (v : option string) (fd : string)
  (t : option string) (sha : string) :
  civitai_written name = false ->
  keeps (tag_is name v fd t) (ensure_civitai_xattrs sha).
Proof.
  intros H. destruct (written_names name H) as (Hf & Hv & Hw).
  unfold ensure_civitai_xattrs, civitai_xattr_exists, fetch_civitai, mark_civitai,
    mark_where_froms.
  repeat first
    [ apply tag_kept_fields; exact Hf
    | apply tag_kept_set; assumption
    | frame_step (tag_kept_event name v fd t) I I ].
Qed.

(** X17: the look-up at the provider writes its own tags and nothing else:
    whatever the provider answers and however the call ends, the bytes
    of the file and every tag other than the seven field tags, the
    version stamp and the where-froms tag are as before; the digest tag
    and the fix-state tag among them. *)
Theorem civitai_lookup_writes_its_tags (sha : string) (w : world) :
  (forall name, civitai_written name = false ->
     xattrs (world_after (ensure_civitai_xattrs sha) w) !! name = xattrs w !! name)
  /\ xattrs (world_after (ensure_civitai_xattrs sha) w) !! XATTR_SHA256
     = xattrs w !! XATTR_SHA256
  /\ xattrs (world_after (ensure_civitai_xattrs sha) w) !! XATTR_FIX
     = xattrs w !! XATTR_FIX
  /\ file_data (world_after (ensure_civitai_xattrs sha) w) = file_data w
  /\ tmp_file (world_after (ensure_civitai_xattrs sha) w) = tmp_file w.
Proof.
  assert (H : forall name, civitai_written name = false ->
              tag_is name (xattrs w !! name) (file_data w) (tmp_file w)
                (world_after (ensure_civitai_xattrs sha) w)).
  { intros name Hn. apply (tag_kept_ensure_civitai name _ _ _ sha Hn w).
    repeat split. }
  split; [intros name Hn; apply (H name Hn)|].
  split; [apply (H XATTR_SHA256); reflexivity|].
  split; [apply (H XATTR_FIX); reflexivity|].
  split; apply (H XATTR_FIX eq_refl).
Qed.

Lemma run_ensure_civitai (sha : string) (w : world) (body : string)
  (d : list (string * json)) :
  xattrs w !! (CIVITAI_PFX +:+ "baseModel") = None ->
  provider w (CIVITAI_BY_HASH (upper sha)) = Response body ->
  rbind (Utf8.decode body) Json.loads = Ok (JObj d) ->
  wf_json (JObj d) -> model_is_object d -> xattr_writable w = true ->
  exists w1,
    ensure_civitai_xattrs sha w = (Ok true, w1)
    /\ xattrs w1 !! (CIVITAI_PFX +:+ "baseModel")
       = match Dict.get "baseModel" d with
         | Some b => if is_none b then None else Some (tag_text b)
         | None => None
         end.
Proof.
  intros Hbase Hprov Hbody Hwf Hmodel Hw.
  unfold ensure_civitai_xattrs.
  erewrite bind_ok by apply run_civitai_xattr_exists. rewrite Hbase. cbv iota.
  set (w0 := add_event (EvUrlopen (CIVITAI_BY_HASH (upper sha)))
               (add_event (EvGetxattr (CIVITAI_PFX +:+ "baseModel")) w)).
  assert (Hfetch : fetch_civitai sha (add_event (EvGetxattr (CIVITAI_PFX +:+ "baseModel")) w)
                   = (Ok (JObj d), w0)).
  { rewrite fetch_civitai_run.
    change (provider (add_event (EvGetxattr (CIVITAI_PFX +:+ "baseModel")) w))
      with (provider w).
    now rewrite Hprov, Hbody. }
  erewrite bind_ok by exact Hfetch.
  cbv iota.
  destruct (mark_civitai_run d w0 Hwf Hmodel Hw)
    as (w' & Hrun & Hfields & _ & _ & _ & Hw').
  erewrite bind_ok by exact Hrun.
  destruct (Hfields "baseModel" (fun d => py_get d "baseModel" JNull)) as (b & Eb & Htag);
    [right; left; reflexivity|].
  change (xattrs w0) with (xattrs w) in Htag. rewrite Hbase in Htag.
  simpl in Eb. injection Eb as Eb.
  assert (Hres : xattrs w' !! (CIVITAI_PFX +:+ "baseModel")
                 = match Dict.get "baseModel" d with
                   | Some b => if is_none b then None else Some (tag_text b)
                   | None => None
                   end).
  { rewrite Htag, <- Eb. destruct (Dict.get "baseModel" d); reflexivity. }
  unfold lift at 1. erewrite bind_ok by reflexivity.
  destruct (match Dict.get "modelId" d with Some v => v | None => JNull end) eqn:Em;
    try (eexists; split; [reflexivity | exact Hres]);
    (unfold mark_where_froms; erewrite bind_ok by (rewrite run_xattr_set, Hw'; reflexivity);
     eexists; split; [reflexivity|]; simpl xattrs;
     rewrite lookup_insert_ne by discriminate; exact Hres).
Qed.

(** X18: a record with a base model is fetched once: when the provider
    answers with a record (Unicode text, no floats, [model] missing or
    an object) whose [baseModel] is not null, the look-up returns True
    and tags the base model, and every later look-up returns True after
    one read of that tag, without a request to the provider. *)
Theorem fetched_record_is_cached (sha : string) (w : world) (body : string)
  (d : list (string * json)) (b : json) :
  xattrs w !! (CIVITAI_PFX +:+ "baseModel") = None ->
  provider w (CIVITAI_BY_HASH (upper sha)) = Response body ->
  rbind (Utf8.decode body) Json.loads = Ok (JObj d) ->
  wf_json (JObj d) -> model_is_object d -> xattr_writable w = true ->
  Dict.get "baseModel" d = Some b -> is_none b = false ->
  exists w1,
    ensure_civitai_xattrs sha w = (Ok true, w1)
    /\ xattrs w1 !! (CIVITAI_PFX +:+ "baseModel") = Some (tag_text b)
    /\ forall sha',
         ensure_civitai_xattrs sha' w1
         = (Ok true, add_event (EvGetxattr (CIVITAI_PFX +:+ "baseModel")) w1).
Proof.
  intros Hbase Hprov Hbody Hwf Hmodel Hw Hb Hnone.
  destruct (run_ensure_civitai sha w body d Hbase Hprov Hbody Hwf Hmodel Hw)
    as (w1 & Hrun & Htag).
  rewrite Hb, Hnone in Htag.
  exists w1. split; [exact Hrun|]. split; [exact Htag|].
  intros sha'. unfold ensure_civitai_xattrs.
  erewrite bind_ok by apply run_civitai_xattr_exists. now rewrite Htag.
Qed.

Lemma fetched_record_is_cached_witness :
  exists w1,
    ensure_civitai_xattrs sample_sha (record_world sample_record) = (Ok true, w1)
    /\ xattrs w1 !! (CIVITAI_PFX +:+ "baseModel") = Some (tag_text (JStr "Pony"))
    /\ forall sha',
         ensure_civitai_xattrs sha' w1
         = (Ok true, add_event (EvGetxattr (CIVITAI_PFX +:+ "baseModel")) w1).
Proof.
  apply (fetched_record_is_cached sample_sha (record_world sample_record)
           (Json.dumps (JObj sample_record)) sample_record (JStr "Pony")).
  - reflexivity.
  - reflexivity.
  - vm_compute. reflexivity.
  - apply wf_jsonb_sound. reflexivity.
  - exact I.
  - reflexivity.
  - reflexivity.
  - reflexivity.
Defined.

Lemma trace_grows_ensure_civitai (sha : string) (w0 : world) (e : event) :
  keeps (fun w' => exists l, trace w' = (l ++ trace w0)%list /\ In e l)
    (ensure_civitai_xattrs sha).
Proof.
  set (P := fun w' => exists l, trace w' = (l ++ trace w0)%list /\ In e l).
  assert (He : forall e' w', any_event e' = true -> P w' -> P (add_event e' w')).
  { intros e' w' _ (l & E & Hin). exists (e' :: l). simpl. rewrite E.
    split; [reflexivity | now right]. }
  assert (Hx : forall x w', P w' -> P (set_xattrs x w')) by (intros x w' H; exact H).
  apply (frame_ensure_civitai P any_event He Hx). reflexivity.
Qed.

(** X19: a record without a base model is fetched again each time: the
    look-up takes the [civitai.baseModel] tag as the sign that a record
    is there, so when the provider's record has no [baseModel] (or null)
    the look-up returns True and tags what there is, the sign stays
    absent, and every later look-up sends its request to the provider
    again. *)
Theorem record_without_base_model_is_refetched (sha : string) (w : world) (body : string)
  (d : list (string * json)) :
  xattrs w !! (CIVITAI_PFX +:+ "baseModel") = None ->
  provider w (CIVITAI_BY_HASH (upper sha)) = Response body ->
  rbind (Utf8.decode body) Json.loads = Ok (JObj d) ->
  wf_json (JObj d) -> model_is_object d -> xattr_writable w = true ->
  is_none (default JNull (Dict.get "baseModel" d)) = true ->
  exists w1,
    ensure_civitai_xattrs sha w = (Ok true, w1)
    /\ xattrs w1 !! (CIVITAI_PFX +:+ "baseModel") = None
    /\ forall sha',
         In (EvUrlopen (CIVITAI_BY_HASH (upper sha')))
            (events_since w1 (world_after (ensure_civitai_xattrs sha') w1)).
Proof.
  intros Hbase Hprov Hbody Hwf Hmodel Hw Hnone.
  destruct (run_ensure_civitai sha w body d Hbase Hprov Hbody Hwf Hmodel Hw)
    as (w1 & Hrun & Htag).
  assert (Htag' : xattrs w1 !! (CIVITAI_PFX +:+ "baseModel") = None).
  { rewrite Htag. destruct (Dict.get "baseModel" d) as [b|]; [|reflexivity].
    simpl in Hnone. now rewrite Hnone. }
  exists w1. split; [exact Hrun|]. split; [exact Htag'|].
  intros sha'.
  set (url := CIVITAI_BY_HASH (upper sha')).
  assert (H : exists l, trace (world_after (ensure_civitai_xattrs sha') w1)
                        = (l ++ trace w1)%list /\ In (EvUrlopen url) l).
  { unfold world_after, ensure_civitai_xattrs.
    erewrite bind_ok by apply run_civitai_xattr_exists. rewrite Htag'. cbv iota.
    set (w2 := add_event (EvUrlopen url)
                 (add_event (EvGetxattr (CIVITAI_PFX +:+ "baseModel")) w1)).
    assert (H2 : exists l, trace w2 = (l ++ trace w1)%list /\ In (EvUrlopen url) l).
    { exists [EvUrlopen url; EvGetxattr (CIVITAI_PFX +:+ "baseModel")].
      split; [reflexivity | now left]. }
    destruct (fetch_civitai sha' (add_event (EvGetxattr (CIVITAI_PFX +:+ "baseModel")) w1))
      as [[data|e0] wf] eqn:Ef;
      (assert (Ew : wf = w2) by (rewrite fetch_civitai_run in Ef; now injection Ef));
      subst wf;
      [erewrite bind_ok by exact Ef | erewrite bind_raise by exact Ef; exact H2].
    set (P := fun w' => exists l, trace w' = (l ++ trace w1)%list /\ In (EvUrlopen url) l).
    assert (He : forall e' w', any_event e' = true -> P w' -> P (add_event e' w')).
    { intros e' w' _ (l & E & Hin). exists (e' :: l). simpl. rewrite E.
      split; [reflexivity | now right]. }
    assert (Hx : forall x w', P w' -> P (set_xattrs x w')) by (intros x w' Hp; exact Hp).
    assert (Hk : keeps P
              (match data with
               | JNull => ret false
               | _ =>
                   n <- mark_civitai data ;;
                   model_id <- lift (py_get data "modelId" JNull) ;;
                   match model_id with
                   | JNull => ret true
                   | _ => mark_where_froms (CIVITAI_MODEL_URL (py_str model_id)) ;;; ret true
                   end
               end)).
    { unfold mark_civitai, mark_where_froms.
      repeat first
        [ apply (frame_mark_civitai_fields P any_event He Hx); reflexivity
        | frame_step He Hx I ]. }
    apply (Hk w2 H2). }
  destruct H as (l & E & Hin). rewrite (events_since_app _ _ l E). now apply in_rev in Hin.
Qed.

Lemma record_without_base_model_is_refetched_witness :
  exists w1,
    ensure_civitai_xattrs sample_sha (record_world bare_record) = (Ok true, w1)
    /\ xattrs w1 !! (CIVITAI_PFX +:+ "baseModel") = None
    /\ forall sha',
         In (EvUrlopen (CIVITAI_BY_HASH (upper sha')))
            (events_since w1 (world_after (ensure_civitai_xattrs sha') w1)).
Proof.
  apply (record_without_base_model_is_refetched sample_sha (record_world bare_record)
           (Json.dumps (JObj bare_record)) bare_record).
  - reflexivity.
  - reflexivity.
  - vm_compute. reflexivity.
  - apply wf_jsonb_sound. reflexivity.
  - exact I.
  - reflexivity.
  - reflexivity.
Defined.

(** ** The labels of the classifier *)

Lemma known_rbind {A} (r : result A) (f : A -> result (option string)) :
  (forall a, known_label (f a)) -> known_label (rbind r f).
Proof. intros H. destruct r; simpl; [apply H | exact I]. Qed.

Lemma known_some (v : string) :
  In v DT_VERSIONS -> v <> EmptyString -> known_label (Ok (Some v)).
Proof. intros H1 H2. split; assumption. Qed.

Lemma known_sdxl_scan (items : list (string * json)) : known_label (sdxl_scan items).
Proof.
  induction items as [|[k v] r IH]; simpl; [exact I|].
  destruct (String.eqb k METADATA_KEY); [exact IH|].
  destruct (_ || _); [|exact IH].
  apply known_rbind. intros shape. apply known_rbind. intros [|]; [|exact IH].
  apply known_some; [simpl; tauto | discriminate].
Qed.

Ltac known_step :=
  lazymatch goal with
  | |- known_label (Ok None) => exact I
  | |- known_label (Raise _) => exact I
  | |- known_label (Ok (Some _)) => apply known_some; [simpl; tauto | discriminate]
  | |- known_label (sdxl_scan _) => apply known_sdxl_scan
  | |- known_label (rbind _ _) => apply known_rbind; intros ?
  | |- known_label (if ?b then _ else _) => destruct b
  | |- known_label (match ?x with _ => _ end) => destruct x
  | |- known_label (let _ := _ in _) => cbv zeta
  end.

Lemma known_early (r rest : result (option string)) :
  known_label r -> known_label rest ->
  known_label (rbind r (fun early => match early with
                                     | Some version => Ok (Some version)
                                     | None => rest
                                     end)).
Proof. intros Hr Hrest. destruct r as [[v|]|]; simpl; auto. Qed.

Lemma known_detect (header : list (string * json)) :
  known_label (detect_version_from_keys header).
Proof.
  unfold detect_version_from_keys. cbv zeta.
  apply known_early; [repeat known_step|].
  repeat match goal with
         | |- known_label (if ?b then _ else _) => destruct b
         | |- known_label (Ok (Some _)) => apply known_some; [simpl; tauto | discriminate]
         end.
  destruct (scan_blocks (tensor_keys header)) as [max_tb_idx has_double_stream_mod].
  apply known_early; [repeat known_step|].
  repeat known_step.
Qed.

(** X20: every label the classifier gives is a known version: whatever
    the header, an answer of [detect_version_from_keys] other than None
    is one of [DT_VERSIONS] (and so not empty). *)
Theorem classifier_labels_are_known (header : list (string * json)) (v : string) :
  detect_version_from_keys header = Ok (Some v) -> In v DT_VERSIONS /\ v <> EmptyString.
Proof.
  intros H. pose proof (known_detect header) as Hk. now rewrite H in Hk.
Qed.

Lemma classifier_labels_are_known_witness :
  In "flux2" DT_VERSIONS /\ "flux2" <> EmptyString.
Proof. apply (classifier_labels_are_known header_block_59 "flux2"). reflexivity. Defined.

(** ** Version resolution *)

Lemma dict_get_in {A} (k : string) (d : list (string * A)) (v : A) :
  Dict.get k d = Some v -> In v (map snd d).
Proof.
  induction d as [|[k' v'] d IH]; simpl; [discriminate|].
  destruct (String.eqb k' k); [|auto]. intros H. injection H as <-. now left.
Qed.

Lemma table_versions_known (k version : string) :
  Dict.get k CIVITAI_TO_DT_VERSION = Some version ->
  In version DT_VERSIONS /\ version <> EmptyString.
Proof.
  intros H. apply dict_get_in in H. simpl in H.
  repeat (destruct H as [<-|H]; [split; [simpl; tauto | discriminate]|]).
  destruct H.
Qed.

Lemma known_detect_any (header : json) : known_label (detect_version_any header).
Proof. destruct header; try exact I. apply known_detect. Qed.

Lemma resolve_after_cli (header : json) (non_interactive : bool) (w : world)
  (cli_version : option string) :
  given cli_version = false ->
  result_of (resolve_version header cli_version non_interactive) w
  = match (let base_model := option_map Utf8.decode_replace
                               (xattrs w !! (CIVITAI_PFX +:+ "baseModel")) in
           if given base_model
           then Dict.get (default "" base_model) CIVITAI_TO_DT_VERSION
           else None) with
    | Some version => Ok (Some version)
    | None =>
        if truthy header then
          rbind (detect_version_any header)
            (fun detected => if given detected then Ok detected else Ok None)
        else Ok None
    end.
Proof.
  intros Hcli. unfold resolve_version, result_of. rewrite Hcli.
  unfold bind at 1. rewrite run_get_civitai_xattr. cbv zeta.
  destruct (if given _ then _ else _) as [version|]; [reflexivity|].
  destruct (truthy header); [|reflexivity].
  unfold lift, bind. destruct (detect_version_any header) as [detected|e]; [|reflexivity].
  simpl. destruct (given detected); reflexivity.
Qed.

(** X21: the version handed to the converter is the override of the
    command line or a known version: whatever the header and the tags,
    an answer of [resolve_version] other than None is not empty, and is
    the CLI version or one of [DT_VERSIONS]; a header that is not a
    dictionary is not looked at when the CLI or the base model decide. *)
Theorem resolved_version_is_known (header : json) (cli_version : option string)
  (non_interactive : bool) (w : world) (v : string) :
  result_of (resolve_version header cli_version non_interactive) w = Ok (Some v) ->
  v <> EmptyString /\ (cli_version = Some v \/ In v DT_VERSIONS).
Proof.
  destruct (given cli_version) eqn:Hcli.
  - unfold resolve_version, result_of. rewrite Hcli. simpl. intros H. injection H as ->.
    split; [|now left]. intros ->. simpl in Hcli. discriminate Hcli.
  - rewrite (resolve_after_cli header non_interactive w cli_version Hcli). cbv zeta.
    set (bm := option_map Utf8.decode_replace (xattrs w !! (CIVITAI_PFX +:+ "baseModel"))).
    destruct (if given bm then Dict.get (default "" bm) CIVITAI_TO_DT_VERSION else None)
      as [version|] eqn:Et.
    + intros H. injection H as <-.
      destruct (given bm); [|discriminate Et].
      destruct (table_versions_known _ _ Et). auto.
    + destruct (truthy header); [|discriminate].
      pose proof (known_detect_any header) as Hk.
      destruct (detect_version_any header) as [[d|]|]; simpl; try discriminate.
      destruct d as [|c s]; simpl; [discriminate|].
      intros H. injection H as <-. destruct Hk. auto.
Qed.

Lemma resolved_version_is_known_witness :
  "sdxl_base_v0.9" <> EmptyString
  /\ (None = Some "sdxl_base_v0.9" \/ In "sdxl_base_v0.9" DT_VERSIONS).
Proof.
  apply (resolved_version_is_known JNull None true pony_world "sdxl_base_v0.9").
  reflexivity.
Defined.

(** X22: counting blocks never gives [qwen_image]: for every header
    without a family hint whose largest [transformer_blocks] index is 19
    or more, the classifier answers with one of the flux2 labels; so an
    answer of [qwen_image] for a header without hint means that the
    largest index is below 19 (or that no key matches the pattern). *)
Theorem block_count_gives_flux2 (header : list (string * json)) :
  no_family_hint header ->
  (19 <= fst (scan_blocks (tensor_keys header)) ->
   exists v, detect_version_from_keys header = Ok (Some v) /\ flux2_variant v)
  /\ (detect_version_from_keys header = Ok (Some "qwen_image") ->
      fst (scan_blocks (tensor_keys header)) < 19).
Proof.
  intros Hhint. split; [now apply classifier_large_index|].
  intros H. destruct (Z.lt_ge_cases (fst (scan_blocks (tensor_keys header))) 19) as [|Hge];
    [assumption|].
  destruct (classifier_large_index header Hhint Hge) as (v & Ev & Hv).
  rewrite H in Ev. injection Ev as <-. destruct Hv as [Hv|[Hv|Hv]]; discriminate Hv.
Qed.

Lemma block_count_gives_flux2_witness :
  exists v, detect_version_from_keys header_block_59 = Ok (Some v) /\ flux2_variant v.
Proof.
  apply (proj1 (block_count_gives_flux2 header_block_59 I)). vm_compute. discriminate.
Defined.

(** ** The duplicate check by digest *)

Lemma registered_fields (name file : string) (cd : option (list (string * json)))
  (entry : json) :
  registered name file cd entry ->
  py_get entry "file" JNull = Ok (JStr file)
  /\ (forall default, py_get entry "name" default = Ok (JStr name))
  /\ py_get entry "civitai" (JObj [])
     = Ok (JObj match cd with Some (kv :: r) => kv :: r | _ => [] end).
Proof.
  intros (sha & version & prefix & loha & ->).
  destruct cd as [[|kv r]|]; repeat split.
Qed.

(** The collected data holds the digest the tag holds. *)
Lemma collect_holds_sha (w : world) (cd : option (list (string * json))) (d : string) :
  result_of collect_civitai_data w = Ok cd ->
  option_map Utf8.decode_replace (xattrs w !! XATTR_SHA256) = Some d ->
  d <> EmptyString ->
  exists kv r, cd = Some (kv :: r) /\ Dict.get "sha256" (kv :: r) = Some (JStr d).
Proof.
  unfold result_of, collect_civitai_data, bind. intros H Hd Hne.
  destruct (collect_fields _CIVITAI_JSON_FIELDS [] w) as [[data|e] w1] eqn:Ec;
    [|discriminate].
  assert (Hx : xattrs w1 = xattrs w).
  { assert (Hk : keeps (fun w' => xattrs w' = xattrs w) (collect_fields _CIVITAI_JSON_FIELDS [])).
    { generalize (@nil (string * json)). generalize _CIVITAI_JSON_FIELDS.
      induction l as [|f l IH]; intros acc; simpl; [apply keeps_ret|].
      apply keeps_bind; [intros w' Hw'; exact Hw'|]. intros [v|]; [|apply IH].
      destruct (Json.loads v); apply IH. }
    specialize (Hk w eq_refl). now rewrite Ec in Hk. }
  rewrite run_get_sha256_xattr in H. cbv zeta in H. rewrite Hx, Hd in H.
  destruct d as [|c s]; [congruence|]. simpl in H. injection H as <-.
  pose proof (dict_get_set_same "sha256" (JStr (String c s)) data) as Hg.
  destruct (Dict.set "sha256" (JStr (String c s)) data) as [|kv r] eqn:Es;
    [discriminate Hg|].
  exists kv, r. split; [reflexivity | exact Hg].
Qed.

Lemma is_duplicate_finds (entries : list json) (d : string) :
  d <> EmptyString ->
  Forall named_entry entries ->
  Exists (registered_for d) entries ->
  exists name, name <> EmptyString
               /\ is_duplicate entries "" (Some d) = Ok (JStr name).
Proof.
  intros Hne Hall Hex. induction Hall as [|entry r Hentry _ IH]; [inversion Hex|].
  destruct Hentry as (name & file & cd & Hname & Hreg).
  destruct (registered_fields _ _ _ _ Hreg) as (Hfile & Hnm & Hciv).
  destruct d as [|c s]; [congruence|].
  simpl is_duplicate. rewrite Hfile. cbn [rbind].
  destruct (eq_str (JStr file) "") eqn:Ef.
  { exists name. split; [exact Hname | apply Hnm]. }
  rewrite Hciv. cbn [rbind].
  destruct (py_get (JObj match cd with Some (kv :: r0) => kv :: r0 | _ => [] end)
              "sha256" JNull) as [h|] eqn:Eh; [|discriminate Eh].
  cbn [rbind].
  destruct (eq_str h (String c s)) eqn:Es.
  { exists name. split; [exact Hname | apply Hnm]. }
  apply IH. inversion Hex as [? ? Hhere|]; [|assumption]. exfalso.
  destruct Hhere as (name' & file' & w & cd' & Hreg' & Hcol & Htag).
  destruct (collect_holds_sha w cd' _ Hcol Htag Hne) as (kv & r' & -> & Hget).
  destruct (registered_fields _ _ _ _ Hreg') as (_ & _ & Hciv').
  rewrite Hciv in Hciv'. injection Hciv' as Hcd.
  rewrite Hcd in Eh. unfold py_get in Eh. rewrite Hget in Eh. injection Eh as <-.
  unfold eq_str, json_is_str in Es. rewrite String.eqb_refl in Es. discriminate Es.
Qed.

(** X23: a digest that is registered is turned away: when every entry of
    the registry was registered under a name that is not empty, and one
    of them for a source file whose digest tag read [d], then pre-flight
    on a file whose digest tag reads [d], which passes the size and the
    type check, answers that the file is already imported, under the
    name of a registered entry. *)
Theorem registered_digest_is_rejected (entries : list json) (limit : Z) (w : world)
  (d : string) :
  d <> EmptyString ->
  Forall named_entry entries ->
  Exists (registered_for d) entries ->
  option_map Utf8.decode_replace (xattrs w !! XATTR_SHA256) = Some d ->
  (limit >? 0) && (len (file_data w) >? limit * 1024 * 1024) = false ->
  (let model_type := option_map Utf8.decode_replace
                       (xattrs w !! (CIVITAI_PFX +:+ "modelType")) in
   given model_type && negb (String.eqb (upper (default "" model_type)) "LORA") = false) ->
  exists name,
    name <> EmptyString
    /\ result_of (preflight entries limit) w = Ok (DuplicateSha256 (JStr name)).
Proof.
  intros Hne Hall Hex Htag Hsize Htype.
  destruct (is_duplicate_finds entries d Hne Hall Hex) as (name & Hname & Hdup).
  exists name. split; [exact Hname|].
  unfold result_of. rewrite (preflight_after_size _ _ _ Hsize).
  unfold bind at 1. rewrite run_get_civitai_xattr.
  change (xattrs (add_event EvStat w)) with (xattrs w).
  cbv zeta in Htype. rewrite Htype.
  unfold bind at 1. rewrite run_get_sha256_xattr.
  change (xattrs (add_event (EvGetxattr (CIVITAI_PFX +:+ "modelType")) (add_event EvStat w)))
    with (xattrs w).
  rewrite Htag.
  destruct d as [|c s]; [congruence|]. simpl given. cbv iota.
  unfold lift, bind. rewrite Hdup.
  destruct name as [|c' s']; [congruence|]. reflexivity.
Qed.

Lemma registered_digest_is_rejected_witness :
  exists name,
    name <> EmptyString
    /\ result_of (preflight [sample_entry] 1200) hashed_world
       = Ok (DuplicateSha256 (JStr name)).
Proof.
  apply (registered_digest_is_rejected [sample_entry] 1200 hashed_world sample_sha).
  - vm_compute. discriminate.
  - repeat constructor. exists "Sample", "sample_f16.ckpt", (Some [("sha256", JStr sample_sha)]).
    split; [discriminate|]. exists "00", "flux2", "", false. reflexivity.
  - constructor.
    exists "Sample", "sample_f16.ckpt", hashed_world, (Some [("sha256", JStr sample_sha)]).
    split; [exists "00", "flux2", "", false; reflexivity|].
    split; vm_compute; reflexivity.
  - vm_compute. reflexivity.
  - vm_compute. reflexivity.
  - vm_compute. reflexivity.
Defined.

(** ** Propagating tags *)

Lemma propagate_loop_run (names : list string) (src : gmap string string) :
  (forall n, In n names -> is_Some (src !! n)) ->
  forall (dst : gmap string string) (copied : Z),
    propagate_loop names src dst true copied
    = (fold_left (fun d n => if wanted n then <[n := default "" (src !! n)]> d else d)
         names dst,
       copied + Z.of_nat (length (List.filter wanted names))).
Proof.
  induction names as [|name r IH]; intros Hsrc dst copied; simpl.
  - now rewrite Z.add_0_r.
  - destruct (Hsrc name (or_introl eq_refl)) as [val Hval].
    assert (Hr : forall n, In n r -> is_Some (src !! n)) by (intros n Hn; apply Hsrc; now right).
    destruct (wanted name) eqn:Ew.
    + rewrite Hval, (IH Hr). simpl. f_equal. lia.
    + now rewrite (IH Hr).
Qed.

Lemma fold_copy_lookup (names : list string) (src : gmap string string) :
  forall (dst : gmap string string) (name : string),
    fold_left (fun d n => if wanted n then <[n := default "" (src !! n)]> d else d)
      names dst !! name
    = if wanted name && existsb (String.eqb name) names
      then Some (default "" (src !! name))
      else dst !! name.
Proof.
  induction names as [|n r IH]; intros dst name; simpl.
  - now rewrite andb_false_r.
  - rewrite IH. destruct (String.eqb_spec name n) as [->|Hne].
    + simpl. destruct (wanted n) eqn:Ew; simpl.
      * destruct (existsb (String.eqb n) r); [reflexivity|]. now rewrite lookup_insert_eq.
      * reflexivity.
    + simpl. destruct (wanted name && existsb (String.eqb name) r); [reflexivity|].
      destruct (wanted n); [|reflexivity]. apply lookup_insert_ne. congruence.
Qed.

(** X24: what [propagate_xattrs] leaves on the target, when [names] lists
    the tags of the source and tags can be written: a tag whose name
    starts with [civitai.] or is the where-froms tag has the value it
    has on the source, if the source has it; every other tag of the
    target is as before; the count is the number of listed names that
    pass the test.  So the digest tag travels to the converted file, and
    the fix-state tag does not.  When tags cannot be written on the
    target, nothing is copied and the count is 0. *)
Theorem propagate_copies_wanted_tags (names : list string) (src dst : gmap string string) :
  (forall n, In n names <-> is_Some (src !! n)) ->
  (forall name,
     fst (propagate_xattrs names src dst true) !! name
     = if wanted name
       then match src !! name with Some v => Some v | None => dst !! name end
       else dst !! name)
  /\ snd (propagate_xattrs names src dst true)
     = Z.of_nat (length (List.filter wanted names))
  /\ fst (propagate_xattrs names src dst true) !! XATTR_FIX = dst !! XATTR_FIX
  /\ (forall d, src !! XATTR_SHA256 = Some d ->
        fst (propagate_xattrs names src dst true) !! XATTR_SHA256 = Some d)
  /\ propagate_xattrs names src dst false = (dst, 0).
Proof.
  intros Hnames.
  assert (Hlookup : forall name,
            fst (propagate_xattrs names src dst true) !! name
            = if wanted name
              then match src !! name with Some v => Some v | None => dst !! name end
              else dst !! name).
  { intros name. unfold propagate_xattrs.
    rewrite propagate_loop_run by (intros n Hn; now apply Hnames).
    simpl fst. rewrite fold_copy_lookup.
    destruct (wanted name); [|reflexivity]. simpl.
    destruct (existsb (String.eqb name) names) eqn:Ex.
    - apply existsb_exists in Ex as (n & Hn & En). apply String.eqb_eq in En. subst n.
      apply Hnames in Hn as [v Hv]. now rewrite Hv.
    - destruct (src !! name) as [v|] eqn:Ev; [|reflexivity].
      assert (Hin : In name names) by (apply Hnames; eauto).
      rewrite existsb_false in Ex. specialize (Ex name Hin).
      now rewrite String.eqb_refl in Ex. }
  split; [exact Hlookup|]. split; [|split; [|split]].
  - unfold propagate_xattrs.
    now rewrite propagate_loop_run by (intros n Hn; now apply Hnames).
  - now rewrite Hlookup.
  - intros d Hd. rewrite Hlookup.
    assert (Hw : wanted XATTR_SHA256 = true) by (vm_compute; reflexivity).
    now rewrite Hw, Hd.
  - unfold propagate_xattrs. generalize 0. clear. induction names as [|n r IH]; intros c.
    + reflexivity.
    + simpl. destruct (wanted n); [destruct (src !! n)|]; apply IH.
Qed.

Lemma propagate_copies_wanted_tags_witness :
  fst (propagate_xattrs [XATTR_SHA256] (<[XATTR_SHA256 := "ab"]> ∅) ∅ true) !! XATTR_SHA256
  = Some "ab".
Proof.
  assert (H : forall n, In n [XATTR_SHA256]
                        <-> is_Some ((<[XATTR_SHA256 := "ab"]> ∅ : gmap string string) !! n)).
  { intros n. split.
    - intros [<-|[]]. rewrite lookup_insert_eq. eauto.
    - intros [v Hv]. destruct (decide (XATTR_SHA256 = n)) as [E|Hne]; [now left|].
      rewrite lookup_insert_ne, lookup_empty in Hv by exact Hne. discriminate Hv. }
  apply (proj1 (proj2 (proj2 (proj2
           (propagate_copies_wanted_tags [XATTR_SHA256] (<[XATTR_SHA256 := "ab"]> ∅) ∅ H))))).
  apply lookup_insert_eq.
Defined.

(** ** The registry file *)


(** ** The name of the converted file *)

Lemma isin_cons (p : string) (c : ascii) (r : string) :
  isin p (String c r) = String.prefix p (String c r) || isin p r.
Proof.
  change (isin p (String c r))
    with (if String.prefix p (String c r) then true else isin p r).
  destruct (String.prefix p (String c r)); reflexivity.
Qed.

Lemma prefix_length (p s : string) :
  String.prefix p s = true -> (String.length p <= String.length s)%nat.
Proof.
  intros H. apply prefix_split in H. rewrite H, length_app_s. lia.
Qed.

Lemma replace_from_cons (old new : string) (c : ascii) (r : string) :
  replace_from old new O (String c r)
  = if String.prefix old (String c r)
    then new +:+ replace_from old new (String.length old - 1) r
    else String c (replace_from old new O r).
Proof. reflexivity. Qed.

Lemma replace_from_length (old new : string) (k : nat) (s : string) :
  (String.length new <= String.length old)%nat -> old <> EmptyString ->
  (String.length (replace_from old new k s) + Nat.min k (String.length s)
   <= String.length s)%nat.
Proof.
  intros Hlen Hold. revert k. induction s as [|c r IH]; intros k.
  - simpl. lia.
  - destruct k as [|k].
    + rewrite replace_from_cons.
      destruct (String.prefix old (String c r)) eqn:Ep.
      * apply prefix_length in Ep.
        specialize (IH (String.length old - 1)%nat). rewrite length_app_s.
        destruct old as [|a old']; [congruence|].
        cbn [String.length] in *. lia.
      * specialize (IH O). cbn [String.length] in *. lia.
    + specialize (IH k). cbn [replace_from String.length]. lia.
Qed.

Lemma replace_shortens (old new : string) (s : string) :
  (String.length new < String.length old)%nat ->
  isin old s = true ->
  (String.length (replace old new s) < String.length s)%nat.
Proof.
  intros Hlen. unfold replace.
  assert (Hold : old <> EmptyString) by (intros ->; simpl in Hlen; lia).
  induction s as [|c r IH].
  - destruct old; [congruence | discriminate].
  - rewrite isin_cons, replace_from_cons. intros H.
    destruct (String.prefix old (String c r)) eqn:Ep.
    + pose proof (prefix_length _ _ Ep) as Hp.
      pose proof (replace_from_length old new (String.length old - 1) r
                    (Nat.lt_le_incl _ _ Hlen) Hold).
      rewrite length_app_s. cbn [String.length] in *. lia.
    + simpl orb in H. specialize (IH H). cbn [String.length]. lia.
Qed.

Lemma replace_absent (old new : string) (s : string) :
  isin old s = false -> replace old new s = s.
Proof.
  unfold replace. induction s as [|c r IH]; [reflexivity|].
  rewrite isin_cons. intros H. apply orb_false_iff in H as [Hp Hr].
  rewrite replace_from_cons, Hp. now rewrite IH.
Qed.

Lemma collapse_length (prev : bool) (s : string) :
  (String.length (collapse_from prev s) <= String.length s)%nat.
Proof.
  revert prev. induction s as [|c r IH]; intros prev; [simpl; lia|].
  cbn [collapse_from].
  pose proof (IH true). pose proof (IH false).
  destruct (Ascii.eqb c "_"); [destruct prev|]; cbn [String.length]; lia.
Qed.

Lemma prefix_cons (a : ascii) (p : string) (c : ascii) (r : string) :
  String.prefix (String a p) (String c r) = Ascii.eqb a c && String.prefix p r.
Proof.
  cbn [String.prefix]. destruct (ascii_dec a c) as [E|Hne].
  - subst c. now rewrite Ascii.eqb_refl.
  - destruct (Ascii.eqb_spec a c); [contradiction | reflexivity].
Qed.

Lemma prefix_one (c : ascii) (r : string) :
  String.prefix "_" (String c r) = Ascii.eqb c "_".
Proof.
  rewrite prefix_cons, Ascii.eqb_sym.
  destruct r; apply andb_true_r.
Qed.

Lemma prefix_two (c : ascii) (r : string) :
  String.prefix "__" (String c r) = Ascii.eqb c "_" && String.prefix "_" r.
Proof. rewrite prefix_cons, Ascii.eqb_sym. reflexivity. Qed.

(** After an underscore the collapsed text does not go on with one. *)
Lemma collapse_head (s : string) :
  String.prefix "_" (collapse_from true s) = false.
Proof.
  induction s as [|c r IH]; [reflexivity|]. cbn [collapse_from].
  destruct (Ascii.eqb c "_") eqn:Ec; [exact IH|].
  rewrite prefix_one. exact Ec.
Qed.

Lemma collapse_no_double (prev : bool) (s : string) :
  isin "__" (collapse_from prev s) = false.
Proof.
  revert prev. induction s as [|c r IH]; intros prev; [reflexivity|].
  cbn [collapse_from]. destruct (Ascii.eqb c "_") eqn:Ec.
  - destruct prev; [apply IH|].
    rewrite isin_cons, prefix_two, Ec, collapse_head, IH. reflexivity.
  - rewrite isin_cons, prefix_two, Ec, IH. reflexivity.
Qed.

Lemma collapse_id (s : string) :
  isin "__" s = false ->
  forall prev, (prev = true -> String.prefix "_" s = false) -> collapse_from prev s = s.
Proof.
  induction s as [|c r IH]; intros H prev Hprev; [reflexivity|].
  rewrite isin_cons, prefix_two in H. apply orb_false_iff in H as [Hp Hr].
  cbn [collapse_from]. destruct (Ascii.eqb c "_") eqn:Ec.
  - simpl andb in Hp. destruct prev.
    + specialize (Hprev eq_refl). rewrite prefix_one, Ec in Hprev. discriminate.
    + f_equal. apply IH; [exact Hr | intros _; exact Hp].
  - f_equal. apply IH; [exact Hr | discriminate].
Qed.

(** X26: the cleaned name of the converted file never has two
    underscores in a row, and cleaning keeps a name exactly when the
    name has no [_lora_] and no two underscores in a row; only then is
    the file not renamed. *)
Theorem clean_name_result (name : string) :
  isin "__" (clean_name name) = false
  /\ (clean_name name = name
      <-> isin "_lora_" name = false /\ isin "__" name = false).
Proof.
  unfold clean_name, collapse_underscores. split; [apply collapse_no_double|].
  split.
  - intros H.
    destruct (isin "_lora_" name) eqn:El.
    + exfalso.
      assert (Hs : (String.length (replace "_lora_" "_" name) < String.length name)%nat).
      { apply replace_shortens; [cbn [String.length]; lia | exact El]. }
      pose proof (collapse_length false (replace "_lora_" "_" name)) as Hc.
      rewrite H in Hc. lia.
    + split; [reflexivity|]. rewrite (replace_absent _ _ _ El) in H.
      rewrite <- H. apply collapse_no_double.
  - intros [Hl Hu]. rewrite (replace_absent _ _ _ Hl).
    apply collapse_id; [exact Hu | discriminate].
Qed.
